(** * DataElement: reference-counted state synchronisation between custom elements

    A shallow embedding of [packages/DataElement/src/DataElement.ts]:
    the attach hook [elementConnected], the detach hook
    [elementDisconnected], the two event listeners they install and the
    synchronous event dispatch that ties them together.

    The browser is modelled by an explicit [World]: the RootState store, the
    [stateRefs] counter object, the static [dataProperties] record of every
    element class, the property values of every element, the listeners this
    module has registered on elements and on [window], and a log of the
    observable actions (store writes, property writes, dispatched events).
    Listeners that other code may add to the same targets are outside the
    model.

    Listeners dispatch events from inside a dispatch, so [dispatchEvent]
    takes fuel; that three levels always suffice is proved, not assumed. *)

From Stdlib Require Import Ascii.
From stdpp Require Import base gmap strings list.

(** ** JavaScript values *)

(** The values a property or a RootState entry can hold.  The module never
    computes with them: it tests them ([v ? a : b], [v === null]), puts them
    into a template literal, and stores them.  A number is therefore carried
    as the string that [Number::toString] gives for it (["5"], ["0"] for
    both zeros, ["NaN"], ["0.5"], ["1e+21"]), which determines the number up
    to the sign of zero.  An object is a reference together with the string
    its conversion yields: ["[object Object]"] for a plain object, the
    joined elements for an array, the result of its own [toString]
    otherwise.  A BigInt behaves here like the number of the same digits.
    Symbols, objects whose conversion throws or is not stable from one call
    to the next, and the falsy legacy object [document.all] are not
    represented. *)
Inductive value :=
  | VUndefined
  | VNull
  | VBool (b : bool)
  | VNum (repr : string)
  | VStr (s : string)
  | VObj (ref : nat) (repr : string).

#[global] Instance value_eq_dec : EqDecision value.
Proof. solve_decision. Defined.

(** [v ? a : b] takes the first branch exactly when [truthy v]: the falsy
    values are [undefined], [null], [false], the zeros, [NaN] and the
    empty string. *)
Definition truthy (v : value) : bool :=
  match v with
  | VUndefined | VNull => false
  | VBool b => b
  | VNum repr => negb (String.eqb repr "0") && negb (String.eqb repr "NaN")
  | VStr s => negb (String.eqb s "")
  | VObj _ _ => true
  end.

(** String conversion of a template literal [`${v}`]. *)
Definition toStr (v : value) : string :=
  match v with
  | VUndefined => "undefined"
  | VNull => "null"
  | VBool true => "true"
  | VBool false => "false"
  | VNum repr => repr
  | VStr s => s
  | VObj _ repr => repr
  end.

(** The numbers held by [stateRefs]: an integer or [NaN] (what
    [undefined - 1] evaluates to). *)
Inductive number :=
  | Num (n : Z)
  | NaN.

#[global] Instance number_eq_dec : EqDecision number.
Proof. solve_decision. Defined.

(** Truthiness of [stateRefs[statePath]]; a missing key reads [undefined]. *)
Definition refTruthy (r : option number) : bool :=
  match r with
  | Some (Num n) => negb (n =? 0)%Z
  | Some NaN | None => false
  end.

(** [r + 1] and [r - 1] on a possibly missing entry. *)
Definition refPlus (r : option number) (k : Z) : number :=
  match r with
  | Some (Num n) => Num (n + k)
  | Some NaN | None => NaN
  end.

(** [stateRefs[statePath] ? stateRefs[statePath] + 1 : 1] *)
Definition refIncr (r : option number) : number :=
  if refTruthy r then refPlus r 1 else Num 1.

(** [stateRefs[statePath] - 1] *)
Definition refDecr (r : option number) : number := refPlus r (-1).

(** An [undefined] used as a property key or event type is the string
    ["undefined"]. *)
Definition asString (s : option string) : string := default "undefined" s.

(** ** Static and dynamic data *)

(** [interface DataProperty]: every field is optional. *)
Record DataProperty := {
  changeEvent : option string;
  statePath : option string;
  windowEventName : option string;
  windowEventHandler : option nat
}.

(** The immutable static fields of an element class; its [dataProperties]
    record is mutable and lives in the [World] under [ctorId]. *)
Record DataElementCtor := {
  ctorId : nat;
  __elementName : string;
  stateIdProperty : string
}.

(** An element: its object identity and its constructor. *)
Record DataElement := {
  elId : nat;
  elCtor : DataElementCtor
}.

Inductive Target :=
  | TWindow
  | TElement (el : nat).

(** The [detail] of a [CustomEvent]: none, [{isSyncUpdate:true}], or
    [{sourceElement:el}]. *)
Inductive Detail :=
  | DetailNone
  | DetailSync
  | DetailSource (sourceElement : nat).

#[global] Instance Detail_eq_dec : EqDecision Detail.
Proof. solve_decision. Defined.

(** The closure added with [el.addEventListener(changeEvent, ...)]: the
    variables it captured.  It is registered on [llEl] under
    [llChangeEvent]; nothing ever removes it. *)
Record LocalListener := {
  llEl : DataElement;
  llChangeEvent : string;
  llStatePath : string;
  llPropertyName : string;
  llWindowEventName : string
}.

(** The closure added with [window.addEventListener(windowEventName,
    windowEventHandler)]: its identity, the event type it is registered
    under, and the variables it captured. *)
Record WindowListener := {
  wlHandler : nat;
  wlWindowEventName : string;
  wlEl : DataElement;
  wlPropertyName : string;
  wlStatePath : string;
  wlChangeEvent : string
}.

(** Observable actions, newest first in [trace]. *)
Inductive Action :=
  | RootSet (path : string) (v : value)
  | RootDelete (path : string)
  | PropSet (el : nat) (name : string) (v : value)
  | Dispatched (target : Target) (type : string) (detail : Detail)
  | MiddlewareRun (connected : bool) (el : nat).

Record World := {
  rootState : gmap string value;
  stateRefs : gmap string number;
  dataProperties : gmap nat (list (string * DataProperty));
  elementProps : gmap (nat * string) value;
  localListeners : list LocalListener;
  windowListeners : list WindowListener;
  nextHandler : nat;
  trace : list Action
}.

Definition log (a : Action) (w : World) : World :=
  {| rootState := rootState w; stateRefs := stateRefs w;
     dataProperties := dataProperties w; elementProps := elementProps w;
     localListeners := localListeners w; windowListeners := windowListeners w;
     nextHandler := nextHandler w; trace := a :: trace w |}.

(** ** RootState *)

(** Modelled from the spec: the module [./RootState] is imported by
    DataElement.ts but is not part of the sources at hand.  Section 4.1:
    [get(path)] returns the stored value, or the null sentinel if absent,
    with no side effects. *)
Definition RootState_get (w : World) (path : string) : value :=
  default VNull (rootState w !! path).

(** Modelled from the spec: missing module [./RootState], section 4.1:
    [set(path, value)] overwrites or creates the entry unconditionally. *)
Definition RootState_set (path : string) (v : value) (w : World) : World :=
  {| rootState := <[path := v]> (rootState w); stateRefs := stateRefs w;
     dataProperties := dataProperties w; elementProps := elementProps w;
     localListeners := localListeners w; windowListeners := windowListeners w;
     nextHandler := nextHandler w; trace := RootSet path v :: trace w |}.

(** Modelled from the spec: missing module [./RootState], section 4.1:
    [delete(path)] removes the entry; no-op if absent. *)
Definition RootState_delete (path : string) (w : World) : World :=
  {| rootState := delete path (rootState w); stateRefs := stateRefs w;
     dataProperties := dataProperties w; elementProps := elementProps w;
     localListeners := localListeners w; windowListeners := windowListeners w;
     nextHandler := nextHandler w; trace := RootDelete path :: trace w |}.

(** ** Property and record access *)

(** [getProp(el, name)]: a property never written reads [undefined]. *)
Definition getProp (w : World) (el : DataElement) (name : string) : value :=
  default VUndefined (elementProps w !! (elId el, name)).

(** [setProp(el, name, value)] *)
Definition setProp (el : DataElement) (name : string) (v : value) (w : World)
  : World :=
  {| rootState := rootState w; stateRefs := stateRefs w;
     dataProperties := dataProperties w;
     elementProps := <[(elId el, name) := v]> (elementProps w);
     localListeners := localListeners w; windowListeners := windowListeners w;
     nextHandler := nextHandler w;
     trace := PropSet (elId el) name v :: trace w |}.

(** [stateRefs[statePath] = n] *)
Definition setStateRef (path : string) (n : number) (w : World) : World :=
  {| rootState := rootState w; stateRefs := <[path := n]> (stateRefs w);
     dataProperties := dataProperties w; elementProps := elementProps w;
     localListeners := localListeners w; windowListeners := windowListeners w;
     nextHandler := nextHandler w; trace := trace w |}.

(** The object [ctor.dataProperties] as an association list in the order
    [Object.keys] enumerates it. *)
Fixpoint alist_lookup (k : string) (l : list (string * DataProperty))
  : option DataProperty :=
  match l with
  | [] => None
  | (k', v) :: r => if decide (k = k') then Some v else alist_lookup k r
  end.

(** Assignment to a key the record has keeps the key's place in the
    enumeration order.  The module assigns to no other key; a new key is
    put last here, which is its place in [Object.keys] unless the name is
    an array index or [__proto__]. *)
Fixpoint alist_set (k : string) (v : DataProperty)
    (l : list (string * DataProperty)) : list (string * DataProperty) :=
  match l with
  | [] => [(k, v)]
  | (k', v') :: r =>
      if decide (k = k') then (k, v) :: r else (k', v') :: alist_set k v r
  end.

(** [ctor.dataProperties] *)
Definition getDataProperties (w : World) (ctor : DataElementCtor)
  : list (string * DataProperty) :=
  default [] (dataProperties w !! ctorId ctor).

(** [Object.keys(ctor.dataProperties)] *)
Definition keys (w : World) (ctor : DataElementCtor) : list string :=
  (getDataProperties w ctor).*1.

(** [ctor.dataProperties[propertyName] = dp] *)
Definition setDataProperty (ctor : DataElementCtor) (propertyName : string)
    (dp : DataProperty) (w : World) : World :=
  {| rootState := rootState w; stateRefs := stateRefs w;
     dataProperties :=
       <[ctorId ctor := alist_set propertyName dp (getDataProperties w ctor)]>
         (dataProperties w);
     elementProps := elementProps w;
     localListeners := localListeners w; windowListeners := windowListeners w;
     nextHandler := nextHandler w; trace := trace w |}.

(** ** Listeners *)

(** [el.addEventListener(changeEvent, listener)] with a fresh closure. *)
Definition addLocalListener (l : LocalListener) (w : World) : World :=
  {| rootState := rootState w; stateRefs := stateRefs w;
     dataProperties := dataProperties w; elementProps := elementProps w;
     localListeners := localListeners w ++ [l];
     windowListeners := windowListeners w;
     nextHandler := nextHandler w; trace := trace w |}.

(** [window.addEventListener(windowEventName, windowEventHandler)]; the
    closure is fresh, its identity is the next unused handler number. *)
Definition addWindowListener (h : WindowListener) (w : World) : World :=
  {| rootState := rootState w; stateRefs := stateRefs w;
     dataProperties := dataProperties w; elementProps := elementProps w;
     localListeners := localListeners w;
     windowListeners := windowListeners w ++ [h];
     nextHandler := S (nextHandler w); trace := trace w |}.

(** [window.removeEventListener(type, handler)]: drops the registration of
    that very closure under that very type; an [undefined] handler removes
    nothing, an [undefined] type is the type ["undefined"]. *)
Definition removeWindowListener (type : option string) (handler : option nat)
    (w : World) : World :=
  match handler with
  | None => w
  | Some h =>
      {| rootState := rootState w; stateRefs := stateRefs w;
         dataProperties := dataProperties w; elementProps := elementProps w;
         localListeners := localListeners w;
         windowListeners :=
           filter (λ l, ¬ (wlWindowEventName l = asString type ∧ wlHandler l = h))
                  (windowListeners w);
         nextHandler := nextHandler w; trace := trace w |}
  end.

(** ** Event dispatch *)

(** [forEach] over a snapshot, stopping when a callback does not return. *)
Fixpoint forEachM {A : Type} (f : A → World → option World) (l : list A)
    (w : World) : option World :=
  match l with
  | [] => Some w
  | x :: r =>
      match f x w with
      | Some w' => forEachM f r w'
      | None => None
      end
  end.

Section Handlers.
(** The handlers call back into the dispatcher. *)
Variable dispatch : Target → string → Detail → World → option World.

(** [triggerSyncEvent]: [el.dispatchEvent(new CustomEvent(changeEvent,
    {detail:{isSyncUpdate:true}}))] *)
Definition triggerSyncEvent (el : DataElement) (changeEvent : string)
    (w : World) : option World :=
  dispatch (TElement (elId el)) changeEvent DetailSync w.

(** [triggerGlobalEvent]: [window.dispatchEvent(new CustomEvent(
    changeEvent, {detail:{sourceElement:el}}))] *)
Definition triggerGlobalEvent (el : DataElement) (changeEvent : string)
    (w : World) : option World :=
  dispatch TWindow changeEvent (DetailSource (elId el)) w.

(** The body of the local listener:
    [if (event.detail?.isSyncUpdate !== true) { RootState.set(statePath,
    getProp(el, propertyName)); triggerGlobalEvent(el, windowEventName) }] *)
Definition localListener (l : LocalListener) (detail : Detail) (w : World)
  : option World :=
  match detail with
  | DetailSync => Some w
  | DetailNone | DetailSource _ =>
      triggerGlobalEvent (llEl l) (llWindowEventName l)
        (RootState_set (llStatePath l)
           (getProp w (llEl l) (llPropertyName l)) w)
  end.

(** The body of [windowEventHandler]:
    [if (event.detail?.sourceElement !== el) { setProp(el, propertyName,
    RootState.get(statePath)); triggerSyncEvent(el, changeEvent) }] *)
Definition windowHandler (h : WindowListener) (detail : Detail) (w : World)
  : option World :=
  if decide (detail = DetailSource (elId (wlEl h))) then Some w
  else
    triggerSyncEvent (wlEl h) (wlChangeEvent h)
      (setProp (wlEl h) (wlPropertyName h)
         (RootState_get w (wlStatePath h)) w).
End Handlers.

(** Synchronous dispatch: the listeners registered on the target under the
    event type, in registration order, each run to completion.  [fuel]
    bounds the nesting of dispatches inside listeners; [None] means the
    bound was hit. *)
Fixpoint dispatchEvent (fuel : nat) (target : Target) (type : string)
    (detail : Detail) (w : World) : option World :=
  match fuel with
  | O => None
  | S fuel' =>
      let w0 := log (Dispatched target type detail) w in
      match target with
      | TElement e =>
          forEachM (λ l, localListener (dispatchEvent fuel') l detail)
            (filter (λ l, elId (llEl l) = e ∧ llChangeEvent l = type)
                    (localListeners w))
            w0
      | TWindow =>
          forEachM (λ h, windowHandler (dispatchEvent fuel') h detail)
            (filter (λ h, wlWindowEventName h = type) (windowListeners w))
            w0
      end
  end.

(** ** Attach *)

(** [const stateIdPath = stateId ? `.${stateId}` : ""] *)
Definition stateIdPathOf (stateId : value) : string :=
  if truthy stateId then "." +:+ toStr stateId else "".

(** [`${ctor.__elementName}.${propertyName}${stateIdPath}`] *)
Definition statePathOf (ctor : DataElementCtor) (propertyName : string)
    (stateIdPath : string) : string :=
  __elementName ctor +:+ "." +:+ propertyName +:+ stateIdPath.

(** [dp.changeEvent || `${propertyName}-changed`] *)
Definition changeEventOf (dp : DataProperty) (propertyName : string) : string :=
  match changeEvent dp with
  | Some s => if decide (s = "") then propertyName +:+ "-changed" else s
  | None => propertyName +:+ "-changed"
  end.

(** [`${statePath}-changed`] *)
Definition windowEventNameOf (path : string) : string := path +:+ "-changed".

(** [ctor.dataProperties[propertyName].windowEventHandler = handler] *)
Definition setWindowEventHandler (ctor : DataElementCtor)
    (propertyName : string) (handler : nat) (w : World) : World :=
  match alist_lookup propertyName (getDataProperties w ctor) with
  | Some dp =>
      setDataProperty ctor propertyName
        {| changeEvent := changeEvent dp; statePath := statePath dp;
           windowEventName := windowEventName dp;
           windowEventHandler := Some handler |} w
  | None => w
  end.

(** The body of the [forEach] in [elementConnected], for one property
    name.  [None]: the dispatch ran out of fuel, or [dp] was undefined
    (which [Object.keys] excludes). *)
Definition connectProperty (fuel : nat) (el : DataElement)
    (stateIdPath : string) (propertyName : string) (w : World)
  : option World :=
  let ctor := elCtor el in
  dp ← alist_lookup propertyName (getDataProperties w ctor);
  let statePath := statePathOf ctor propertyName stateIdPath in
  let changeEvent := changeEventOf dp propertyName in
  let windowEventName := windowEventNameOf statePath in
  let w1 :=
    setDataProperty ctor propertyName
      {| changeEvent := Some changeEvent; statePath := Some statePath;
         windowEventName := Some windowEventName;
         windowEventHandler := windowEventHandler dp |} w in
  let w2 := setStateRef statePath (refIncr (stateRefs w1 !! statePath)) w1 in
  let initialState := RootState_get w2 statePath in
  w3 ← (if decide (initialState = VNull)
        then Some (RootState_set statePath (getProp w2 el propertyName) w2)
        else triggerSyncEvent (dispatchEvent fuel) el changeEvent
               (setProp el propertyName initialState w2));
  let w4 :=
    addLocalListener
      {| llEl := el; llChangeEvent := changeEvent; llStatePath := statePath;
         llPropertyName := propertyName;
         llWindowEventName := windowEventName |} w3 in
  let handler := nextHandler w4 in
  let w5 := setWindowEventHandler ctor propertyName handler w4 in
  Some (addWindowListener
          {| wlHandler := handler; wlWindowEventName := windowEventName;
             wlEl := el; wlPropertyName := propertyName;
             wlStatePath := statePath; wlChangeEvent := changeEvent |} w5).

(** [elementConnected(el)].  The middleware pipelines are taken empty, so
    running one only shows in the trace. *)
Definition elementConnected (fuel : nat) (el : DataElement) (w : World)
  : option World :=
  let ctor := elCtor el in
  let stateId := getProp w el (stateIdProperty ctor) in
  let stateIdPath := stateIdPathOf stateId in
  w' ← forEachM (connectProperty fuel el stateIdPath) (keys w ctor) w;
  Some (log (MiddlewareRun true (elId el)) w').

(** ** Detach *)

(** The body of the [forEach] in [elementDisconnected]. *)
Definition disconnectProperty (el : DataElement) (propertyName : string)
    (w : World) : option World :=
  let ctor := elCtor el in
  dp ← alist_lookup propertyName (getDataProperties w ctor);
  (* [dp] once [windowEventName] and [windowEventHandler] are deleted *)
  let cleared :=
    {| changeEvent := changeEvent dp; statePath := statePath dp;
       windowEventName := None; windowEventHandler := None |} in
  let statePath := asString (statePath dp) in
  let w1 := setStateRef statePath (refDecr (stateRefs w !! statePath)) w in
  let w2 :=
    if decide (stateRefs w1 !! statePath = Some (Num 0))
    then RootState_delete statePath w1 else w1 in
  let w3 :=
    removeWindowListener (windowEventName dp) (windowEventHandler dp) w2 in
  Some (setDataProperty ctor propertyName cleared w3).

(** [elementDisconnected(el)] *)
Definition elementDisconnected (el : DataElement) (w : World) : option World :=
  let ctor := elCtor el in
  w' ← forEachM (disconnectProperty el) (keys w ctor) w;
  Some (log (MiddlewareRun false (elId el)) w').

(** [refreshState()] *)
Definition refreshState (fuel : nat) (el : DataElement) (w : World)
  : option World :=
  elementDisconnected el w ≫= elementConnected fuel el.

(** The property names every object has from [Object.prototype]. *)
Definition objectPrototypeNames : list string :=
  ["constructor"; "__defineGetter__"; "__defineSetter__"; "hasOwnProperty";
   "__lookupGetter__"; "__lookupSetter__"; "isPrototypeOf";
   "propertyIsEnumerable"; "toString"; "valueOf"; "__proto__";
   "toLocaleString"].

(** [ctor.dataProperties[prop].changeEvent] as [dispatchChange] reads it.
    The record object is an object literal (line 65), so a name it does
    not own is looked up on [Object.prototype]: there it finds a function
    or object without [changeEvent], and the result is [undefined]; for a
    name found nowhere the lookup gives [undefined] and reading
    [changeEvent] of it throws. *)
Definition changeEventRead (w : World) (ctor : DataElementCtor)
    (prop : string) : option (option string) :=
  match alist_lookup prop (getDataProperties w ctor) with
  | Some dp => Some (changeEvent dp)
  | None => if decide (prop ∈ objectPrototypeNames) then Some None else None
  end.

(** [dispatchChange(prop)]: a change event without detail, of the type
    read from the class record ([new CustomEvent(undefined)] has the
    type ["undefined"]). *)
Definition dispatchChange (fuel : nat) (el : DataElement) (prop : string)
    (w : World) : option World :=
  ce ← changeEventRead w (elCtor el) prop;
  dispatchEvent fuel (TElement (elId el)) (asString ce) DetailNone w.

(** ** Lifecycle sequences *)

Inductive Op :=
  | Attach (el : DataElement)
  | Detach (el : DataElement).

Definition step (fuel : nat) (op : Op) (w : World) : option World :=
  match op with
  | Attach el => elementConnected fuel el w
  | Detach el => elementDisconnected el w
  end.

Definition run (fuel : nat) (ops : list Op) (w : World) : option World :=
  forEachM (step fuel) ops w.

(** ** The Widget scenario of the specification *)

Module Widget.
Definition ctor : DataElementCtor :=
  {| ctorId := 0; __elementName := "Widget"; stateIdProperty := "stateId" |}.

Definition declared : list (string * DataProperty) :=
  [("count", {| changeEvent := Some "count-changed"; statePath := None;
                windowEventName := None; windowEventHandler := None |})].

Definition W1 : DataElement := {| elId := 1; elCtor := ctor |}.
Definition W2 : DataElement := {| elId := 2; elCtor := ctor |}.

(** The class is declared; [W1.count = 5], [W2.count = 0]. *)
Definition init : World :=
  {| rootState := ∅; stateRefs := ∅;
     dataProperties := {[ 0 := declared ]};
     elementProps := {[ (1, "count") := VNum "5"; (2, "count") := VNum "0" ]};
     localListeners := []; windowListeners := []; nextHandler := 0;
     trace := [] |}.

(** The same two elements with [stateId] set to [a] and [b]. *)
Definition withIds (a b : value) : World :=
  {| rootState := ∅; stateRefs := ∅;
     dataProperties := {[ 0 := declared ]};
     elementProps :=
       <[(1, "stateId") := a]> (<[(2, "stateId") := b]> (elementProps init));
     localListeners := []; windowListeners := []; nextHandler := 0;
     trace := [] |}.

(** Both elements attached, [W1] first. *)
Definition both : World :=
  default init (run 3 [Attach W1; Attach W2] init).

(** The declared class with [null] stored at the path of [count]. *)
Definition nulled : World := RootState_set "Widget.count" VNull init.
End Widget.

(** A class whose property names contain the path separator. *)
Module Dotted.
Definition ctor : DataElementCtor :=
  {| ctorId := 1; __elementName := "T"; stateIdProperty := "stateId" |}.

Definition declared : list (string * DataProperty) :=
  [("x", {| changeEvent := Some "x-changed"; statePath := None;
            windowEventName := None; windowEventHandler := None |});
   ("x.a", {| changeEvent := Some "xa-changed"; statePath := None;
              windowEventName := None; windowEventHandler := None |})].

Definition A : DataElement := {| elId := 1; elCtor := ctor |}.
Definition B : DataElement := {| elId := 2; elCtor := ctor |}.

(** [A.stateId = "a.b"], [B.stateId = "b"], [A.x = 7]. *)
Definition init : World :=
  {| rootState := ∅; stateRefs := ∅;
     dataProperties := {[ 1 := declared ]};
     elementProps :=
       {[ (1, "stateId") := VStr "a.b"; (2, "stateId") := VStr "b";
          (1, "x") := VNum "7" ]};
     localListeners := []; windowListeners := []; nextHandler := 0;
     trace := [] |}.
End Dotted.

(** ** Observations on the trace *)

(** The RootState writes logged in [t], newest first. *)
Definition rootWrites (t : list Action) : list (string * value) :=
  omap (λ a, match a with RootSet p v => Some (p, v) | _ => None end) t.

(** The events dispatched on [window]. *)
Definition windowEvents (t : list Action) : list (string * Detail) :=
  omap (λ a, match a with
             | Dispatched TWindow ty d => Some (ty, d)
             | _ => None
             end) t.

(** The events dispatched on element [e]. *)
Definition elementEvents (e : nat) (t : list Action) : list (string * Detail) :=
  omap (λ a, match a with
             | Dispatched (TElement e') ty d =>
                 if decide (e' = e) then Some (ty, d) else None
             | _ => None
             end) t.

(** All dispatched events, whatever the target. *)
Definition allEvents (t : list Action) : list (Target * string * Detail) :=
  omap (λ a, match a with
             | Dispatched tg ty d => Some (tg, ty, d)
             | _ => None
             end) t.

(** The property writes done on element [e]. *)
Definition propWrites (e : nat) (t : list Action) : list (string * value) :=
  omap (λ a, match a with
             | PropSet e' n v => if decide (e' = e) then Some (n, v) else None
             | _ => None
             end) t.

(** ** What the listeners do, as total functions

    Used to state what a dispatch computes once it has enough fuel. *)

(** The effect of one global handler on an event with detail [d]. *)
Definition windowEffect (d : Detail) (h : WindowListener) (w : World) : World :=
  if decide (d = DetailSource (elId (wlEl h))) then w
  else log (Dispatched (TElement (elId (wlEl h))) (wlChangeEvent h) DetailSync)
         (setProp (wlEl h) (wlPropertyName h)
            (RootState_get w (wlStatePath h)) w).

(** The effect of one local listener on a genuine change event. *)
Definition localEffect (l : LocalListener) (w : World) : World :=
  let w1 :=
    RootState_set (llStatePath l) (getProp w (llEl l) (llPropertyName l)) w in
  fold_left (λ w h, windowEffect (DetailSource (elId (llEl l))) h w)
    (filter (λ h, wlWindowEventName h = llWindowEventName l)
            (windowListeners w1))
    (log (Dispatched TWindow (llWindowEventName l)
            (DetailSource (elId (llEl l)))) w1).


(** The effect of the loop body of [elementConnected] on one declared
    property whose record is [dp]. *)
Definition connectedProperty (el : DataElement) (stateIdPath : string)
    (propertyName : string) (dp : DataProperty) (w : World) : World :=
  let ctor := elCtor el in
  let path := statePathOf ctor propertyName stateIdPath in
  let ce := changeEventOf dp propertyName in
  let wn := windowEventNameOf path in
  let initial := RootState_get w path in
  let seed := bool_decide (initial = VNull) in
  {| rootState :=
       if seed then <[path := getProp w el propertyName]> (rootState w)
       else rootState w;
     stateRefs := <[path := refIncr (stateRefs w !! path)]> (stateRefs w);
     dataProperties :=
       <[ctorId ctor :=
           alist_set propertyName
             {| changeEvent := Some ce; statePath := Some path;
                windowEventName := Some wn;
                windowEventHandler := Some (nextHandler w) |}
             (getDataProperties w ctor)]> (dataProperties w);
     elementProps :=
       if seed then elementProps w
       else <[(elId el, propertyName) := initial]> (elementProps w);
     localListeners :=
       localListeners w ++
         [{| llEl := el; llChangeEvent := ce; llStatePath := path;
             llPropertyName := propertyName; llWindowEventName := wn |}];
     windowListeners :=
       windowListeners w ++
         [{| wlHandler := nextHandler w; wlWindowEventName := wn; wlEl := el;
             wlPropertyName := propertyName; wlStatePath := path;
             wlChangeEvent := ce |}];
     nextHandler := S (nextHandler w);
     trace :=
       (if seed then [RootSet path (getProp w el propertyName)]
        else [Dispatched (TElement (elId el)) ce DetailSync;
              PropSet (elId el) propertyName initial]) ++ trace w |}.

(** [w] without its RootState entry at [path]; nothing else differs. *)
Definition forgetEntry (path : string) (w : World) : World :=
  {| rootState := delete path (rootState w); stateRefs := stateRefs w;
     dataProperties := dataProperties w; elementProps := elementProps w;
     localListeners := localListeners w; windowListeners := windowListeners w;
     nextHandler := nextHandler w; trace := trace w |}.

(** Only element properties and the trace differ between [w] and [w']. *)
Definition onlyPropsChange (w w' : World) : Prop :=
  rootState w' = rootState w ∧ stateRefs w' = stateRefs w ∧
  dataProperties w' = dataProperties w ∧
  localListeners w' = localListeners w ∧
  windowListeners w' = windowListeners w ∧
  nextHandler w' = nextHandler w.

(** The actions logged on the way from [w] to [w'], newest first. *)
Definition since (w w' : World) : list Action :=
  take (length (trace w') - length (trace w)) (trace w').

(** The global handlers of element [b] that react to an event with detail
    [d]: all of them, unless [b] is the event's source. *)
Definition reacting (d : Detail) (b : nat) (h : WindowListener) : Prop :=
  elId (wlEl h) = b ∧ d ≠ DetailSource b.

#[global] Instance reacting_dec d b h : Decision (reacting d b h).
Proof. unfold reacting. apply _. Defined.

(** The effect of the loop body of [elementDisconnected] on one declared
    property whose record is [dp]. *)
Definition disconnectedProperty (el : DataElement) (propertyName : string)
    (dp : DataProperty) (w : World) : World :=
  let ctor := elCtor el in
  let path := asString (statePath dp) in
  let n := refDecr (stateRefs w !! path) in
  let last := bool_decide (n = Num 0) in
  {| rootState := if last then delete path (rootState w) else rootState w;
     stateRefs := <[path := n]> (stateRefs w);
     dataProperties :=
       <[ctorId ctor :=
           alist_set propertyName
             {| changeEvent := changeEvent dp; statePath := statePath dp;
                windowEventName := None; windowEventHandler := None |}
             (getDataProperties w ctor)]> (dataProperties w);
     elementProps := elementProps w;
     localListeners := localListeners w;
     windowListeners :=
       match windowEventHandler dp with
       | None => windowListeners w
       | Some h =>
           filter (λ l, ¬ (wlWindowEventName l = asString (windowEventName dp)
                           ∧ wlHandler l = h))
                  (windowListeners w)
       end;
     nextHandler := nextHandler w;
     trace := (if last then [RootDelete path] else []) ++ trace w |}.

(** ** Paired lifecycle sequences of two instances *)

#[global] Instance DataElementCtor_eq_dec : EqDecision DataElementCtor.
Proof. solve_decision. Defined.

#[global] Instance DataElement_eq_dec : EqDecision DataElement.
Proof. solve_decision. Defined.

(** One operation on the pair of flags "[A] is attached", "[B] is
    attached"; [None] when the operation is not on [A] or [B], attaches an
    attached instance or detaches a detached one. *)
Definition flagStep (A B : DataElement) (ab : bool * bool) (op : Op)
  : option (bool * bool) :=
  match op with
  | Attach e =>
      if decide (e = A) then (if ab.1 then None else Some (true, ab.2))
      else if decide (e = B) then (if ab.2 then None else Some (ab.1, true))
      else None
  | Detach e =>
      if decide (e = A) then (if ab.1 then Some (false, ab.2) else None)
      else if decide (e = B) then (if ab.2 then Some (ab.1, false) else None)
      else None
  end.

(** The flags after a sequence of paired attach/detach operations. *)
Fixpoint attachedAfter (A B : DataElement) (ab : bool * bool) (ops : list Op)
  : option (bool * bool) :=
  match ops with
  | [] => Some ab
  | op :: r =>
      match flagStep A B ab op with
      | Some ab' => attachedAfter A B ab' r
      | None => None
      end
  end.

(** How many of the two instances are attached. *)
Definition attachedCount (ab : bool * bool) : Z := Z.b2z ab.1 + Z.b2z ab.2.

(** The class record of [p] points at the path [p] has under the instance
    id suffix [sid]. *)
Definition resolvedAt (ctor : DataElementCtor) (sid : string) (w : World)
    (p : string) : Prop :=
  ∃ dp, alist_lookup p (getDataProperties w ctor) = Some dp ∧
        statePath dp = Some (statePathOf ctor p sid).

(** Both instances resolve to the suffix [sid], and every declared property
    of the class has [n] counted subscribers on its path, a record that
    points at the path, and no RootState entry when [n] is zero. *)
Definition countedAt (ctor : DataElementCtor) (ks : list string) (sid : string)
    (A B : DataElement) (n : Z) (w : World) : Prop :=
  keys w ctor = ks ∧
  stateIdPathOf (getProp w A (stateIdProperty ctor)) = sid ∧
  stateIdPathOf (getProp w B (stateIdProperty ctor)) = sid ∧
  ∀ p, p ∈ ks →
    stateRefs w !! statePathOf ctor p sid = Some (Num n) ∧
    resolvedAt ctor sid w p ∧
    (n = 0%Z → rootState w !! statePathOf ctor p sid = None).

(** The local listener that attaching [el] under the suffix [sid] in the
    world [w] registers for the declared property [p]. *)
Definition localListenerOf (w : World) (el : DataElement) (sid : string)
    (p : string) : LocalListener :=
  {| llEl := el;
     llChangeEvent :=
       match alist_lookup p (getDataProperties w (elCtor el)) with
       | Some dp => changeEventOf dp p
       | None => p +:+ "-changed"
       end;
     llStatePath := statePathOf (elCtor el) p sid;
     llPropertyName := p;
     llWindowEventName := windowEventNameOf (statePathOf (elCtor el) p sid) |}.

(** A name without the path separator. *)
Fixpoint dotFree (s : string) : bool :=
  match s with
  | EmptyString => true
  | String c r => if decide (c = "."%char) then false else dotFree r
  end.

(** ** Further operations of DataElement.ts *)

(** The global handler that attaching [el] under the suffix [sid] in the
    world [w] registers for the declared property [p]; [id] is its
    identity. *)
Definition windowListenerOf (w : World) (el : DataElement) (sid : string)
    (id : nat) (p : string) : WindowListener :=
  {| wlHandler := id;
     wlWindowEventName := windowEventNameOf (statePathOf (elCtor el) p sid);
     wlEl := el;
     wlPropertyName := p;
     wlStatePath := statePathOf (elCtor el) p sid;
     wlChangeEvent := llChangeEvent (localListenerOf w el sid p) |}.

(** The record attach leaves in the class for [p]. *)
Definition resolvedRecord (w : World) (el : DataElement) (sid : string)
    (id : nat) (p : string) : DataProperty :=
  {| changeEvent := Some (llChangeEvent (localListenerOf w el sid p));
     statePath := Some (statePathOf (elCtor el) p sid);
     windowEventName :=
       Some (windowEventNameOf (statePathOf (elCtor el) p sid));
     windowEventHandler := Some id |}.

(** The record of [p] in the class, or an empty record. *)
Definition recordOf (w : World) (ctor : DataElementCtor) (p : string)
  : DataProperty :=
  default {| changeEvent := None; statePath := None; windowEventName := None;
             windowEventHandler := None |}
          (alist_lookup p (getDataProperties w ctor)).

(** What [window.removeEventListener(dp.windowEventName,
    dp.windowEventHandler)] leaves of the registrations [hs]. *)
Definition removeRecorded (dp : DataProperty) (hs : list WindowListener)
  : list WindowListener :=
  match windowEventHandler dp with
  | None => hs
  | Some h =>
      filter (λ l, ¬ (wlWindowEventName l = asString (windowEventName dp)
                      ∧ wlHandler l = h)) hs
  end.

(** [dp] once detach has deleted its two fields. *)
Definition clearedRecord (dp : DataProperty) : DataProperty :=
  {| changeEvent := changeEvent dp; statePath := statePath dp;
     windowEventName := None; windowEventHandler := None |}.

(** [interface DataElementMetaData] *)
Module MetaData.
Record t := {
  elementName : string;
  element : DataElement;
  dataProperties : list (string * DataProperty)
}.
End MetaData.

(** [getMiddlewareMetaData(el)]; [dataProperties] is the class's live
    object, read here as it is in [w]. *)
Definition getMiddlewareMetaData (w : World) (el : DataElement) : MetaData.t :=
  let ctor := elCtor el in
  {| MetaData.elementName := __elementName ctor;
     MetaData.element := el;
     MetaData.dataProperties := getDataProperties w ctor |}.

(** Every registered global handler has an identity already handed out. *)
Definition handlersAllocated (w : World) : Prop :=
  ∀ h, h ∈ windowListeners w → wlHandler h < nextHandler w.

(** The actions in [t] that write: RootState writes, property writes and
    dispatched events; what is left out are deletions and pipeline runs. *)
Definition writesOf (t : list Action) : list Action :=
  omap (λ a, match a with
             | RootSet _ _ | PropSet _ _ _ | Dispatched _ _ _ => Some a
             | RootDelete _ | MiddlewareRun _ _ => None
             end) t.

(** Further stages of the Widget scenario. *)
Module Stage.
(** [W1] alone is attached. *)
Definition sole : World :=
  default Widget.init (elementConnected 3 Widget.W1 Widget.init).

(** [W1] is attached under the id ["a"] and has since been given the id
    ["b"]; [W2] has the id ["b"] and is not attached. *)
Definition renamed : World :=
  setProp Widget.W1 "stateId" (VStr "b")
    (default Widget.init
       (elementConnected 3 Widget.W1 (Widget.withIds (VStr "a") (VStr "b")))).

(** [W1] and [W2] are attached on the same path, whose entry has since
    been set to [9]. *)
Definition shared : World :=
  RootState_set "Widget.count" (VNum "9") Widget.both.
End Stage.
(** * Proofs *)

(** ** Association lists *)

Lemma alist_lookup_set_eq k v l : alist_lookup k (alist_set k v l) = Some v.
Proof.
  induction l as [|[k' v'] r IH]; simpl.
  - by rewrite decide_True.
  - destruct (decide (k = k')) as [->|Hne]; simpl.
    + by rewrite decide_True.
    + by rewrite decide_False.
Qed.

Lemma alist_lookup_set_ne k k' v l :
  k ≠ k' → alist_lookup k' (alist_set k v l) = alist_lookup k' l.
Proof.
  intros Hne. induction l as [|[k0 v0] r IH]; simpl.
  - by rewrite decide_False.
  - destruct (decide (k = k0)) as [->|Hne0]; simpl.
    + by rewrite !decide_False.
    + by rewrite IH.
Qed.

Lemma alist_set_set k v v' l :
  alist_set k v' (alist_set k v l) = alist_set k v' l.
Proof.
  induction l as [|[k0 v0] r IH]; simpl.
  - by rewrite decide_True.
  - destruct (decide (k = k0)) as [->|Hne]; simpl.
    + by rewrite decide_True.
    + by rewrite decide_False, IH.
Qed.

Lemma alist_lookup_is_Some k l : is_Some (alist_lookup k l) ↔ k ∈ l.*1.
Proof.
  induction l as [|[k0 v0] r IH]; simpl.
  - split; [intros [? [=]]|intros ?%elem_of_nil; done].
  - destruct (decide (k = k0)) as [->|Hne].
    + split; [intros _; apply elem_of_cons; by left|eauto].
    + rewrite IH, elem_of_cons. split; [by right|by intros [?|?]].
Qed.

Lemma alist_set_keys k v l : k ∈ l.*1 → (alist_set k v l).*1 = l.*1.
Proof.
  induction l as [|[k0 v0] r IH]; simpl.
  - intros ?%elem_of_nil; done.
  - intros Hin. destruct (decide (k = k0)) as [->|Hne]; simpl; [done|].
    f_equal. apply IH. apply elem_of_cons in Hin as [?|?]; done.
Qed.

(** ** Loops that always return *)

Lemma forEachM_total {A} (f : A → World → option World) (g : A → World → World)
    (l : list A) (w : World) :
  (∀ x w, f x w = Some (g x w)) →
  forEachM f l w = Some (fold_left (λ w x, g x w) l w).
Proof.
  intros Hf. revert w. induction l as [|x r IH]; intros w; simpl; [done|].
  by rewrite Hf, IH.
Qed.

(** ** Dispatch: what each event does, and that three levels are enough *)

(** A sync-tagged event runs every local listener to no effect. *)
Lemma dispatch_sync fuel e ty w :
  dispatchEvent (S fuel) (TElement e) ty DetailSync w
  = Some (log (Dispatched (TElement e) ty DetailSync) w).
Proof.
  simpl. generalize (log (Dispatched (TElement e) ty DetailSync) w).
  induction (filter _ _) as [|l r IH]; intros w0; simpl; done.
Qed.

Lemma windowHandler_run fuel h d w :
  windowHandler (dispatchEvent (S fuel)) h d w = Some (windowEffect d h w).
Proof.
  unfold windowHandler, windowEffect, triggerSyncEvent.
  case_decide; [done|]. by rewrite dispatch_sync.
Qed.

Lemma dispatch_window fuel ty d w :
  dispatchEvent (S (S fuel)) TWindow ty d w
  = Some (fold_left (λ w h, windowEffect d h w)
            (filter (λ h, wlWindowEventName h = ty) (windowListeners w))
            (log (Dispatched TWindow ty d) w)).
Proof.
  cbn [dispatchEvent]. apply forEachM_total. intros h w0.
  apply windowHandler_run.
Qed.

Lemma localListener_run fuel l d w :
  d ≠ DetailSync →
  localListener (dispatchEvent (S (S fuel))) l d w = Some (localEffect l w).
Proof.
  intros Hd. unfold localListener, triggerGlobalEvent, localEffect.
  destruct d; [|done|]; by rewrite dispatch_window.
Qed.

Lemma dispatch_local fuel e ty d w :
  d ≠ DetailSync →
  dispatchEvent (S (S (S fuel))) (TElement e) ty d w
  = Some (fold_left (λ w l, localEffect l w)
            (filter (λ l, elId (llEl l) = e ∧ llChangeEvent l = ty)
                    (localListeners w))
            (log (Dispatched (TElement e) ty d) w)).
Proof.
  intros Hd. cbn [dispatchEvent]. apply forEachM_total. intros l w0.
  by apply localListener_run.
Qed.


(** ** The trace observers distribute over concatenation *)

Lemma rootWrites_app t1 t2 : rootWrites (t1 ++ t2) = rootWrites t1 ++ rootWrites t2.
Proof. apply omap_app. Qed.

Lemma windowEvents_app t1 t2 :
  windowEvents (t1 ++ t2) = windowEvents t1 ++ windowEvents t2.
Proof. apply omap_app. Qed.

Lemma elementEvents_app e t1 t2 :
  elementEvents e (t1 ++ t2) = elementEvents e t1 ++ elementEvents e t2.
Proof. apply omap_app. Qed.

Lemma propWrites_app e t1 t2 :
  propWrites e (t1 ++ t2) = propWrites e t1 ++ propWrites e t2.
Proof. apply omap_app. Qed.

(** ** The loop body of attach *)

Lemma connectProperty_run fuel el sid p dp w :
  alist_lookup p (getDataProperties w (elCtor el)) = Some dp →
  connectProperty (S fuel) el sid p w = Some (connectedProperty el sid p dp w).
Proof.
  intros Hdp. unfold connectProperty. rewrite Hdp. cbn [mbind option_bind].
  set (path := statePathOf (elCtor el) p sid).
  set (ce := changeEventOf dp p).
  set (dp1 := {| changeEvent := Some ce; statePath := Some path;
                 windowEventName := Some (windowEventNameOf path);
                 windowEventHandler := windowEventHandler dp |}).
  set (w2 := setStateRef path _ (setDataProperty (elCtor el) p dp1 w)).
  assert (Hget : RootState_get w2 path = RootState_get w path) by done.
  assert (Hprop : getProp w2 el p = getProp w el p) by done.
  assert (Hdps : ∀ w3,
    dataProperties w3 = dataProperties w2 →
    setWindowEventHandler (elCtor el) p (nextHandler w3) w3
    = {| rootState := rootState w3; stateRefs := stateRefs w3;
         dataProperties :=
           <[ctorId (elCtor el) :=
               alist_set p
                 {| changeEvent := Some ce; statePath := Some path;
                    windowEventName := Some (windowEventNameOf path);
                    windowEventHandler := Some (nextHandler w3) |}
                 (getDataProperties w (elCtor el))]> (dataProperties w);
         elementProps := elementProps w3;
         localListeners := localListeners w3;
         windowListeners := windowListeners w3;
         nextHandler := nextHandler w3; trace := trace w3 |}).
  { intros w3 Hw3. unfold setWindowEventHandler, setDataProperty.
    assert (Hg : getDataProperties w3 (elCtor el)
                 = alist_set p dp1 (getDataProperties w (elCtor el))).
    { unfold getDataProperties at 1. rewrite Hw3. simpl.
      by rewrite lookup_insert_eq. }
    rewrite Hg, alist_lookup_set_eq, alist_set_set, Hw3. simpl.
    by rewrite insert_insert_eq. }
  rewrite Hget, Hprop. unfold connectedProperty. fold path ce.
  destruct (decide (RootState_get w path = VNull)) as [Hnull|Hnull].
  - rewrite (bool_decide_eq_true_2 _ Hnull). cbn [mbind option_bind].
    rewrite Hdps by done. done.
  - rewrite (bool_decide_eq_false_2 _ Hnull).
    unfold triggerSyncEvent. rewrite dispatch_sync. cbn [mbind option_bind].
    rewrite Hdps by done. done.
Qed.

(** ** What a global event does *)

Lemma onlyPropsChange_refl w : onlyPropsChange w w.
Proof. by repeat split. Qed.

Lemma onlyPropsChange_trans w1 w2 w3 :
  onlyPropsChange w1 w2 → onlyPropsChange w2 w3 → onlyPropsChange w1 w3.
Proof.
  intros (?&?&?&?&?&?) (?&?&?&?&?&?). repeat split; congruence.
Qed.

Lemma since_delta w w' delta : trace w' = delta ++ trace w → since w w' = delta.
Proof.
  intros H. unfold since. rewrite H, length_app.
  replace (length delta + length (trace w) - length (trace w))
    with (length delta) by lia.
  by rewrite take_app_length.
Qed.

Section WindowFold.
Variable d : Detail.

Let runAll := fold_left (λ w h, windowEffect d h w).

Lemma windowEffect_frame h w : onlyPropsChange w (windowEffect d h w).
Proof. unfold windowEffect. case_decide; by repeat split. Qed.

Lemma window_fold_frame hs w : onlyPropsChange w (runAll hs w).
Proof.
  revert w. induction hs as [|h hs IH]; intros w; simpl.
  - apply onlyPropsChange_refl.
  - eapply onlyPropsChange_trans; [apply windowEffect_frame|apply IH].
Qed.

Lemma RootState_get_frame w w' path :
  rootState w' = rootState w → RootState_get w' path = RootState_get w path.
Proof. unfold RootState_get. by intros ->. Qed.

(** A global event writes nothing to RootState, dispatches no further
    global event, and gives each element one property write and one
    sync-tagged event per reacting handler it has. *)
Lemma window_fold_trace hs w :
  ∃ delta,
    trace (runAll hs w) = delta ++ trace w ∧
    rootWrites delta = [] ∧
    windowEvents delta = [] ∧
    ∀ b,
      elementEvents b delta
      = reverse ((λ h, (wlChangeEvent h, DetailSync))
                   <$> filter (reacting d b) hs) ∧
      propWrites b delta
      = reverse ((λ h, (wlPropertyName h, RootState_get w (wlStatePath h)))
                   <$> filter (reacting d b) hs).
Proof.
  revert w. induction hs as [|h hs IH]; intros w.
  - exists []. by repeat split.
  - simpl. destruct (IH (windowEffect d h w)) as (d1 & Htr & Hrw & Hwe & Hb).
    pose proof (windowEffect_frame h w) as (HR & _).
    unfold windowEffect in Htr, Hb, HR.
    destruct (decide (d = DetailSource (elId (wlEl h)))) as [Hskip|Hrun].
    + exists d1. fold runAll in Htr. unfold windowEffect at 1.
      rewrite decide_True by done. repeat split; try done.
      * destruct (Hb b) as [-> _]. rewrite filter_cons_False; [done|].
        intros [<- ?]; done.
      * destruct (Hb b) as [_ ->]. rewrite filter_cons_False; [done|].
        intros [<- ?]; done.
    + exists (d1 ++ [Dispatched (TElement (elId (wlEl h))) (wlChangeEvent h)
                       DetailSync;
                     PropSet (elId (wlEl h)) (wlPropertyName h)
                       (RootState_get w (wlStatePath h))]).
      unfold windowEffect at 1. rewrite decide_False by done.
      fold runAll in Htr. rewrite Htr. cbn [trace log setProp].
      rewrite <- app_assoc. split; [done|].
      rewrite rootWrites_app, windowEvents_app, Hrw, Hwe.
      split; [done|]. split; [done|]. intros b.
      rewrite elementEvents_app, propWrites_app.
      destruct (Hb b) as [-> ->].
      destruct (decide (elId (wlEl h) = b)) as [Hb'|Hb'].
      * rewrite (filter_cons_True (reacting d b)) by (split; congruence).
        rewrite !fmap_cons, !reverse_cons. cbn.
        rewrite !decide_True by done.
        split; reflexivity.
      * rewrite (filter_cons_False (reacting d b)) by (intros [? ?]; done).
        cbn. rewrite !decide_False by done. rewrite !app_nil_r.
        split; reflexivity.
Qed.

(** Properties that no reacting handler writes keep their value. *)
Lemma window_fold_prop_other hs w k :
  (∀ h, h ∈ hs → d ≠ DetailSource (elId (wlEl h)) →
        (elId (wlEl h), wlPropertyName h) ≠ k) →
  elementProps (runAll hs w) !! k = elementProps w !! k.
Proof.
  revert w. induction hs as [|h hs IH]; intros w Hk; simpl; [done|].
  rewrite IH.
  - unfold windowEffect. case_decide; [done|]. cbn.
    rewrite lookup_insert_ne; [done|]. apply Hk; [|done].
    apply elem_of_cons; by left.
  - intros h' Hin. apply Hk. apply elem_of_cons; by right.
Qed.

(** An element with exactly one handler on the event ends up holding
    what that handler pulled. *)
Lemma window_fold_prop_single hs w b h :
  d ≠ DetailSource b →
  filter (λ h, elId (wlEl h) = b) hs = [h] →
  elementProps (runAll hs w) !! (b, wlPropertyName h)
  = Some (RootState_get w (wlStatePath h)).
Proof.
  intros Hd. revert w. induction hs as [|h0 hs IH]; intros w Hf; [done|].
  simpl. destruct (decide (elId (wlEl h0) = b)) as [Hb|Hb].
  - rewrite filter_cons_True in Hf by done.
    injection Hf as -> Hnil.
    rewrite window_fold_prop_other.
    + unfold windowEffect. rewrite decide_False by congruence. cbn.
      rewrite Hb. by rewrite lookup_insert_eq.
    + intros h' Hin _ [= Hb' _].
      assert (h' ∈ filter (λ h, elId (wlEl h) = b) hs) as Hin'
        by (apply list_elem_of_filter; done).
      rewrite Hnil in Hin'. by apply elem_of_nil in Hin'.
  - rewrite filter_cons_False in Hf by done.
    rewrite IH by done. f_equal.
    by apply RootState_get_frame, windowEffect_frame.
Qed.
End WindowFold.

(** ** What a genuine change event does *)

(** The store after a listener ran. *)
Lemma localEffect_frame l w :
  rootState (localEffect l w)
  = <[llStatePath l := getProp w (llEl l) (llPropertyName l)]> (rootState w) ∧
  stateRefs (localEffect l w) = stateRefs w ∧
  dataProperties (localEffect l w) = dataProperties w ∧
  localListeners (localEffect l w) = localListeners w ∧
  windowListeners (localEffect l w) = windowListeners w ∧
  nextHandler (localEffect l w) = nextHandler w.
Proof.
  unfold localEffect.
  match goal with
  | |- context [fold_left ?f ?hs ?w0] =>
      destruct (window_fold_frame (DetailSource (elId (llEl l))) hs w0)
        as (-> & -> & -> & -> & -> & ->)
  end.
  by repeat split.
Qed.

(** The actions a listener logs: its own write and global event first,
    then what the global handlers of other elements did. *)
Lemma localEffect_trace l w :
  let v := getProp w (llEl l) (llPropertyName l) in
  let src := DetailSource (elId (llEl l)) in
  let hs := filter (λ h, wlWindowEventName h = llWindowEventName l)
              (windowListeners w) in
  ∃ delta,
    trace (localEffect l w) = delta ++ trace w ∧
    rootWrites delta = [(llStatePath l, v)] ∧
    windowEvents delta = [(llWindowEventName l, src)] ∧
    ∀ b,
      elementEvents b delta
      = reverse ((λ h, (wlChangeEvent h, DetailSync))
                   <$> filter (reacting src b) hs) ∧
      propWrites b delta
      = reverse ((λ h, (wlPropertyName h,
                        RootState_get (RootState_set (llStatePath l) v w)
                          (wlStatePath h)))
                   <$> filter (reacting src b) hs).
Proof.
  intros v src hs. unfold localEffect. fold v src.
  change (windowListeners (RootState_set (llStatePath l) v w))
    with (windowListeners w). fold hs.
  set (w1 := log (Dispatched TWindow (llWindowEventName l) src)
               (RootState_set (llStatePath l) v w)).
  destruct (window_fold_trace src hs w1) as (d1 & Htr & Hrw & Hwe & Hb).
  exists (d1 ++ [Dispatched TWindow (llWindowEventName l) src;
                 RootSet (llStatePath l) v]).
  rewrite Htr, <- app_assoc. split; [done|].
  rewrite rootWrites_app, windowEvents_app, Hrw, Hwe.
  split; [done|]. split; [done|]. intros b.
  rewrite elementEvents_app, propWrites_app.
  destruct (Hb b) as [-> ->]. cbn. rewrite !app_nil_r. done.
Qed.

(** Properties of [b] are untouched when none of its global handlers is
    registered under the event a listener raises. *)
Lemma localEffect_props_other l w b n :
  (∀ h, h ∈ windowListeners w →
        wlWindowEventName h = llWindowEventName l → elId (wlEl h) ≠ b) →
  elementProps (localEffect l w) !! (b, n) = elementProps w !! (b, n).
Proof.
  intros Hiso. unfold localEffect. rewrite window_fold_prop_other; [done|].
  intros h [Hty Hin]%list_elem_of_filter _ [= Hb _].
  by apply (Hiso h).
Qed.

Lemma reacting_source_nil a (hs : list WindowListener) :
  filter (reacting (DetailSource a) a) hs = [].
Proof.
  induction hs as [|h hs IH]; [done|].
  rewrite filter_cons_False; [done|]. by intros [_ ?].
Qed.

Lemma reacting_other a b (hs : list WindowListener) :
  a ≠ b →
  filter (reacting (DetailSource a) b) hs
  = filter (λ h, elId (wlEl h) = b) hs.
Proof.
  intros Hab. apply list_filter_iff. intros h. unfold reacting.
  split; [by intros [? _]|]. intros ?. split; [done|]. congruence.
Qed.

(** ** The loops of attach and detach *)

Lemma disconnectProperty_run el p dp w :
  alist_lookup p (getDataProperties w (elCtor el)) = Some dp →
  disconnectProperty el p w = Some (disconnectedProperty el p dp w).
Proof.
  intros Hdp. unfold disconnectProperty. rewrite Hdp. cbn [mbind option_bind].
  unfold disconnectedProperty. f_equal.
  set (path := asString (statePath dp)).
  set (n := refDecr (stateRefs w !! path)).
  assert (Hn : stateRefs (setStateRef path n w) !! path = Some n).
  { cbn. by rewrite lookup_insert_eq. }
  rewrite Hn.
  destruct (decide (n = Num 0)) as [H0|H0].
  - rewrite decide_True by congruence.
    rewrite (bool_decide_eq_true_2 _ H0).
    unfold removeWindowListener. by destruct (windowEventHandler dp).
  - rewrite decide_False by congruence.
    rewrite (bool_decide_eq_false_2 _ H0).
    unfold removeWindowListener. by destruct (windowEventHandler dp).
Qed.

Lemma keys_alist_set (c : DataElementCtor) p dp m w :
  alist_lookup p (getDataProperties w c) = Some dp →
  (default [] (<[ctorId c := alist_set p m (getDataProperties w c)]>
                 (dataProperties w) !! ctorId c)).*1
  = keys w c.
Proof.
  intros Hdp. rewrite lookup_insert_eq. cbn. apply alist_set_keys.
  apply alist_lookup_is_Some. eauto.
Qed.

Lemma keys_connectedProperty el sid p dp w :
  alist_lookup p (getDataProperties w (elCtor el)) = Some dp →
  keys (connectedProperty el sid p dp w) (elCtor el) = keys w (elCtor el).
Proof. intros Hdp. by apply keys_alist_set with (dp := dp). Qed.

Lemma keys_disconnectedProperty el p dp w :
  alist_lookup p (getDataProperties w (elCtor el)) = Some dp →
  keys (disconnectedProperty el p dp w) (elCtor el) = keys w (elCtor el).
Proof. intros Hdp. by apply keys_alist_set with (dp := dp). Qed.

(** Invariant reasoning over the attach loop: [Q r w] is what holds when the
    names [r] are still to be visited. *)
Lemma connect_loop el fuel sid ks (Q : list string → World → Prop) :
  (∀ x r w dp,
     keys w (elCtor el) = ks →
     alist_lookup x (getDataProperties w (elCtor el)) = Some dp →
     Q (x :: r) w → Q r (connectedProperty el sid x dp w)) →
  ∀ r w,
    r ⊆ ks → keys w (elCtor el) = ks → Q r w →
    ∃ w', forEachM (connectProperty (S fuel) el sid) r w = Some w' ∧
          keys w' (elCtor el) = ks ∧ Q [] w'.
Proof.
  intros Hstep r. induction r as [|x r IH]; intros w Hsub Hks HQ; simpl.
  - eauto.
  - assert (x ∈ keys w (elCtor el)) as Hx.
    { rewrite Hks. apply Hsub, elem_of_cons. by left. }
    apply alist_lookup_is_Some in Hx as [dp Hdp].
    rewrite (connectProperty_run _ _ _ _ _ _ Hdp).
    apply IH.
    + intros y Hy. apply Hsub, elem_of_cons. by right.
    + by rewrite keys_connectedProperty.
    + by apply Hstep.
Qed.

(** The same for the detach loop. *)
Lemma disconnect_loop el ks (Q : list string → World → Prop) :
  (∀ x r w dp,
     keys w (elCtor el) = ks →
     alist_lookup x (getDataProperties w (elCtor el)) = Some dp →
     Q (x :: r) w → Q r (disconnectedProperty el x dp w)) →
  ∀ r w,
    r ⊆ ks → keys w (elCtor el) = ks → Q r w →
    ∃ w', forEachM (disconnectProperty el) r w = Some w' ∧
          keys w' (elCtor el) = ks ∧ Q [] w'.
Proof.
  intros Hstep r. induction r as [|x r IH]; intros w Hsub Hks HQ; simpl.
  - eauto.
  - assert (x ∈ keys w (elCtor el)) as Hx.
    { rewrite Hks. apply Hsub, elem_of_cons. by left. }
    apply alist_lookup_is_Some in Hx as [dp Hdp].
    rewrite (disconnectProperty_run _ _ _ _ Hdp).
    apply IH.
    + intros y Hy. apply Hsub, elem_of_cons. by right.
    + by rewrite keys_disconnectedProperty.
    + by apply Hstep.
Qed.

(** Attach and detach always return (attach: given one level of fuel). *)
Lemma elementConnected_loop el fuel w (Q : list string → World → Prop) :
  let ks := keys w (elCtor el) in
  let sid := stateIdPathOf (getProp w el (stateIdProperty (elCtor el))) in
  (∀ x r w dp,
     keys w (elCtor el) = ks →
     alist_lookup x (getDataProperties w (elCtor el)) = Some dp →
     Q (x :: r) w → Q r (connectedProperty el sid x dp w)) →
  Q ks w →
  ∃ w', elementConnected (S fuel) el w
        = Some (log (MiddlewareRun true (elId el)) w') ∧
        keys w' (elCtor el) = ks ∧ Q [] w'.
Proof.
  intros ks sid Hstep HQ. unfold elementConnected. fold ks sid.
  destruct (connect_loop el fuel sid ks Q Hstep ks w) as (w' & -> & ? & ?);
    [done..|].
  exists w'. done.
Qed.

Lemma elementDisconnected_loop el w (Q : list string → World → Prop) :
  let ks := keys w (elCtor el) in
  (∀ x r w dp,
     keys w (elCtor el) = ks →
     alist_lookup x (getDataProperties w (elCtor el)) = Some dp →
     Q (x :: r) w → Q r (disconnectedProperty el x dp w)) →
  Q ks w →
  ∃ w', elementDisconnected el w
        = Some (log (MiddlewareRun false (elId el)) w') ∧
        keys w' (elCtor el) = ks ∧ Q [] w'.
Proof.
  intros ks Hstep HQ. unfold elementDisconnected. fold ks.
  destruct (disconnect_loop el ks Q Hstep ks w) as (w' & -> & ? & ?);
    [done..|].
  exists w'. done.
Qed.

Lemma getDataProperties_connected el sid p dp w :
  getDataProperties (connectedProperty el sid p dp w) (elCtor el)
  = alist_set p
      {| changeEvent := Some (changeEventOf dp p);
         statePath := Some (statePathOf (elCtor el) p sid);
         windowEventName :=
           Some (windowEventNameOf (statePathOf (elCtor el) p sid));
         windowEventHandler := Some (nextHandler w) |}
      (getDataProperties w (elCtor el)).
Proof. unfold getDataProperties at 1. cbn. by rewrite lookup_insert_eq. Qed.

Lemma getDataProperties_disconnected el p dp w :
  getDataProperties (disconnectedProperty el p dp w) (elCtor el)
  = alist_set p
      {| changeEvent := changeEvent dp; statePath := statePath dp;
         windowEventName := None; windowEventHandler := None |}
      (getDataProperties w (elCtor el)).
Proof. unfold getDataProperties at 1. cbn. by rewrite lookup_insert_eq. Qed.

Lemma string_app_nil_r (s : string) : s +:+ "" = s.
Proof.
  induction s as [|a s IH]; [done|].
  change (String a (s +:+ "") = String a s). by rewrite IH.
Qed.

(** ** Strings *)

Lemma string_app_cons a (s t : string) : String a s +:+ t = String a (s +:+ t).
Proof. done. Qed.

Lemma string_length_app (s t : string) :
  String.length (s +:+ t) = String.length s + String.length t.
Proof.
  induction s as [|a s IH]; [done|].
  rewrite string_app_cons. cbn. by rewrite IH.
Qed.

Lemma string_app_inv_tail (p q s : string) : p +:+ s = q +:+ s → p = q.
Proof.
  revert q. induction p as [|a p IH]; intros [|b q] H.
  - done.
  - apply (f_equal String.length) in H.
    rewrite !string_length_app in H. cbn in H. lia.
  - apply (f_equal String.length) in H.
    rewrite !string_length_app in H. cbn in H. lia.
  - rewrite !string_app_cons in H. injection H as -> H.
    f_equal. by apply IH.
Qed.

(** Distinct property names give distinct paths under one instance id. *)
Lemma statePathOf_inj ctor sid p q :
  statePathOf ctor p sid = statePathOf ctor q sid → p = q.
Proof.
  unfold statePathOf. intros H.
  apply (inj (String.app _)) in H. apply (inj (String.app _)) in H.
  by apply string_app_inv_tail in H.
Qed.

Lemma windowEventNameOf_inj p q :
  windowEventNameOf p = windowEventNameOf q → p = q.
Proof. apply string_app_inv_tail. Qed.

(** ** Counting subscribers *)

Section Counting.
Variable ks : list string.
Variable sid : string.
Hypothesis ks_nodup : NoDup ks.

Lemma attach_counts ctor fuel e w n :
  let P p := statePathOf ctor p sid in
  let resolved := resolvedAt ctor sid in
  elCtor e = ctor →
  stateIdProperty ctor ∉ ks →
  stateIdPathOf (getProp w e (stateIdProperty ctor)) = sid →
  keys w ctor = ks →
  (0 ≤ n)%Z →
  (∀ p, p ∈ ks →
     stateRefs w !! P p = Some (Num n) ∨
     (n = 0%Z ∧ refTruthy (stateRefs w !! P p) = false)) →
  ∃ w',
    elementConnected (S fuel) e w = Some w' ∧
    keys w' ctor = ks ∧
    (∀ i, elementProps w' !! (i, stateIdProperty ctor)
          = elementProps w !! (i, stateIdProperty ctor)) ∧
    ∀ p, p ∈ ks →
      stateRefs w' !! P p = Some (Num (n + 1)) ∧ resolved w' p.
Proof.
  intros P resolved He sid_not_synced Hsid Hks Hn Hold. subst ctor.
  pose proof (elementConnected_loop e fuel w) as Hloop.
  cbv zeta in Hloop. rewrite Hsid, Hks in Hloop.
  destruct (Hloop
    (λ r w',
       NoDup r ∧
       (∀ i, elementProps w' !! (i, stateIdProperty (elCtor e))
             = elementProps w !! (i, stateIdProperty (elCtor e))) ∧
       ∀ p, p ∈ ks →
         (p ∈ r → stateRefs w' !! P p = stateRefs w !! P p) ∧
         (p ∉ r → stateRefs w' !! P p = Some (Num (n + 1)) ∧
                  resolved w' p)))
    as (w' & Hrun & Hks' & _ & Hprops & HQ).
  - intros x r w1 dp Hks1 Hdp (Hnd & Hprops & HQ).
    assert (x ∈ ks) as Hx.
    { rewrite <- Hks1. apply alist_lookup_is_Some. eauto. }
    apply NoDup_cons in Hnd as [Hxr Hnd].
    split; [done|]. split.
    { intros i. rewrite <- Hprops. unfold connectedProperty.
      cbn [elementProps]. case_bool_decide; [done|].
      rewrite lookup_insert_ne; [done|]. intros [= _ ->]. done. }
    intros p Hp. destruct (HQ p Hp) as [Hin Hout].
    destruct (decide (p = x)) as [->|Hne].
    + split; [done|]. intros _. split.
      * unfold connectedProperty. cbn [stateRefs]. fold (P x).
        rewrite lookup_insert_eq. f_equal.
        rewrite Hin by (apply elem_of_cons; by left).
        destruct (Hold x Hx) as [->|[-> Hf]].
        -- unfold refIncr, refTruthy, refPlus.
           destruct (n =? 0)%Z eqn:E; cbn; [|done].
           apply Z.eqb_eq in E as ->. done.
        -- unfold refIncr. by rewrite Hf.
      * exists {| changeEvent := Some (changeEventOf dp x);
                  statePath := Some (P x);
                  windowEventName := Some (windowEventNameOf (P x));
                  windowEventHandler := Some (nextHandler w1) |}.
        split; [|done].
        by rewrite getDataProperties_connected, alist_lookup_set_eq.
    + assert (P x ≠ P p) as HP.
      { intros HPP. apply statePathOf_inj in HPP. done. }
      unfold connectedProperty at 1 2. cbn [stateRefs]. fold (P x).
      rewrite lookup_insert_ne by done. split.
      * intros Hpr. apply Hin. apply elem_of_cons. by right.
      * intros Hpr. destruct Hout as [Hc (dp' & Hl & Hs)].
        { intros [?|?]%elem_of_cons; done. }
        split; [done|]. exists dp'. split; [|done].
        by rewrite getDataProperties_connected, alist_lookup_set_ne.
  - split; [done|]. split; [done|].
    intros p Hp. split; [done|]. intros Hnot. done.
  - exists (log (MiddlewareRun true (elId e)) w').
    repeat (split; [done|]).
    intros p Hp. apply (HQ p Hp). apply not_elem_of_nil.
Qed.

Lemma detach_counts ctor e w n :
  let P p := statePathOf ctor p sid in
  let resolved := resolvedAt ctor sid in
  elCtor e = ctor →
  keys w ctor = ks →
  (∀ p, p ∈ ks → stateRefs w !! P p = Some (Num n) ∧ resolved w p) →
  ∃ w',
    elementDisconnected e w = Some w' ∧
    keys w' ctor = ks ∧
    elementProps w' = elementProps w ∧
    ∀ p, p ∈ ks →
      stateRefs w' !! P p = Some (Num (n - 1)) ∧ resolved w' p ∧
      ((n - 1)%Z = 0%Z → rootState w' !! P p = None).
Proof.
  intros P resolved He Hks Hold. subst ctor.
  pose proof (elementDisconnected_loop e w) as Hloop.
  cbv zeta in Hloop. rewrite Hks in Hloop.
  destruct (Hloop
    (λ r w',
       NoDup r ∧ elementProps w' = elementProps w ∧
       ∀ p, p ∈ ks →
         resolved w' p ∧
         (p ∈ r → stateRefs w' !! P p = Some (Num n)) ∧
         (p ∉ r → stateRefs w' !! P p = Some (Num (n - 1)) ∧
                  ((n - 1)%Z = 0%Z → rootState w' !! P p = None))))
    as (w' & Hrun & Hks' & _ & Hprops & HQ).
  - intros x r w1 dp Hks1 Hdp (Hnd & Hprops & HQ).
    assert (x ∈ ks) as Hx.
    { rewrite <- Hks1. apply alist_lookup_is_Some. eauto. }
    apply NoDup_cons in Hnd as [Hxr Hnd].
    split; [done|]. split; [done|].
    destruct (HQ x Hx) as ((dpx & Hdpx & Hsx) & Hxin & _).
    rewrite Hdp in Hdpx. injection Hdpx as <-.
    assert (Hn : refDecr (stateRefs w1 !! P x) = Num (n - 1)).
    { rewrite Hxin by (apply elem_of_cons; by left). done. }
    intros p Hp. destruct (HQ p Hp) as ((dp' & Hl & Hs) & Hin & Hout).
    unfold disconnectedProperty at 2 3 4. rewrite Hsx.
    cbn [asString default from_option id stateRefs rootState].
    fold (P x). rewrite Hn.
    destruct (decide (p = x)) as [->|Hne].
    + split.
      { exists {| changeEvent := changeEvent dp; statePath := statePath dp;
                  windowEventName := None; windowEventHandler := None |}.
        by rewrite getDataProperties_disconnected, alist_lookup_set_eq. }
      split; [done|]. intros _.
      rewrite lookup_insert_eq. split; [done|]. intros H0.
      rewrite bool_decide_eq_true_2 by congruence.
      by rewrite lookup_delete_eq.
    + assert (P x ≠ P p) as HP.
      { intros HPP. apply statePathOf_inj in HPP. done. }
      rewrite lookup_insert_ne by done. split.
      { exists dp'.
        by rewrite getDataProperties_disconnected, alist_lookup_set_ne. }
      split.
      * intros Hpr. apply Hin. apply elem_of_cons. by right.
      * intros Hpr. destruct Hout as [Hc H0].
        { intros [?|?]%elem_of_cons; done. }
        split; [done|]. intros Hz. case_bool_decide.
        -- rewrite lookup_delete_ne by done. by apply H0.
        -- by apply H0.
  - split; [done|]. split; [done|].
    intros p Hp. destruct (Hold p Hp) as [? ?]. done.
  - exists (log (MiddlewareRun false (elId e)) w').
    repeat (split; [done|]).
    intros p Hp. destruct (HQ p Hp) as (? & _ & Hout).
    destruct Hout as [? ?]; [apply not_elem_of_nil|]. done.
Qed.
End Counting.

Lemma attachedAfter_app A B ab ops1 ops2 :
  attachedAfter A B ab (ops1 ++ ops2)
  = attachedAfter A B ab ops1 ≫= λ ab', attachedAfter A B ab' ops2.
Proof.
  revert ab. induction ops1 as [|op r IH]; intros ab; simpl; [done|].
  destruct (flagStep A B ab op); [apply IH|done].
Qed.

Lemma getProp_same w w' e name :
  elementProps w' !! (elId e, name) = elementProps w !! (elId e, name) →
  getProp w' e name = getProp w e name.
Proof. unfold getProp. by intros ->. Qed.

Section Pair.
Variables (A B : DataElement) (ctor : DataElementCtor).
Variables (ks : list string) (sid : string) (fuel : nat).
Hypothesis ks_nodup : NoDup ks.
Hypothesis sid_not_synced : stateIdProperty ctor ∉ ks.
Hypothesis ctor_A : elCtor A = ctor.
Hypothesis ctor_B : elCtor B = ctor.

Lemma attachedCount_nonneg ab : (0 ≤ attachedCount ab)%Z.
Proof. destruct ab as [[] []]; unfold attachedCount; cbn; lia. Qed.

(** Attaching [e], one of the two, adds one to every count. *)
Lemma attach_counted e n w :
  e = A ∨ e = B →
  (0 ≤ n)%Z →
  keys w ctor = ks →
  stateIdPathOf (getProp w A (stateIdProperty ctor)) = sid →
  stateIdPathOf (getProp w B (stateIdProperty ctor)) = sid →
  (∀ p, p ∈ ks →
     stateRefs w !! statePathOf ctor p sid = Some (Num n) ∨
     (n = 0%Z ∧ refTruthy (stateRefs w !! statePathOf ctor p sid) = false)) →
  ∃ w', elementConnected (S fuel) e w = Some w' ∧
        countedAt ctor ks sid A B (n + 1) w'.
Proof.
  intros He Hn Hks HsA HsB Hold.
  destruct (attach_counts ks sid ks_nodup ctor fuel e w n)
    as (w' & Hrun & Hks' & Hprops & Hnew); try done.
  { by destruct He as [->| ->]. }
  { by destruct He as [->| ->]. }
  exists w'. split; [done|]. split; [done|].
  split; [by rewrite (getProp_same w)|].
  split; [by rewrite (getProp_same w)|].
  intros p Hp. destruct (Hnew p Hp) as [? ?].
  repeat (split; [done|]). lia.
Qed.

(** Detaching [e], one of the two, takes one from every count and
    deletes the entries whose count reaches zero. *)
Lemma detach_counted e n w :
  e = A ∨ e = B →
  countedAt ctor ks sid A B n w →
  ∃ w', elementDisconnected e w = Some w' ∧
        countedAt ctor ks sid A B (n - 1) w'.
Proof.
  intros He (Hks & HsA & HsB & Hold).
  destruct (detach_counts ks sid ks_nodup ctor e w n)
    as (w' & Hrun & Hks' & Hprops & Hnew); try done.
  { by destruct He as [->| ->]. }
  { intros p Hp. destruct (Hold p Hp) as (? & ? & _). done. }
  exists w'. split; [done|]. split; [done|].
  split; [by rewrite (getProp_same w) by (by rewrite Hprops)|].
  split; [by rewrite (getProp_same w) by (by rewrite Hprops)|].
  intros p Hp. destruct (Hnew p Hp) as (? & ? & ?). done.
Qed.

(** One paired operation keeps the count in step with the flags. *)
Lemma step_counted op ab ab' w :
  flagStep A B ab op = Some ab' →
  countedAt ctor ks sid A B (attachedCount ab) w →
  ∃ w', step (S fuel) op w = Some w' ∧
        countedAt ctor ks sid A B (attachedCount ab') w'.
Proof.
  intros Hflag Hinv. destruct ab as [a b].
  pose proof (attachedCount_nonneg (a, b)) as Hnn.
  destruct Hinv as (Hks & HsA & HsB & Hold).
  destruct op as [e|e]; cbn [flagStep fst snd] in Hflag; cbn [step].
  - assert (∃ w', elementConnected (S fuel) e w = Some w' ∧
              countedAt ctor ks sid A B (attachedCount (a, b) + 1) w')
      as (w' & Hrun & Hinv').
    { apply attach_counted; try done.
      - destruct (decide (e = A)); [by left|].
        destruct (decide (e = B)); [by right|done].
      - intros p Hp. left. by destruct (Hold p Hp). }
    exists w'. split; [done|].
    replace (attachedCount ab') with (attachedCount (a, b) + 1)%Z; [done|].
    repeat case_decide; try done; destruct a, b; try done;
      injection Hflag as <-; done.
  - assert (∃ w', elementDisconnected e w = Some w' ∧
              countedAt ctor ks sid A B (attachedCount (a, b) - 1) w')
      as (w' & Hrun & Hinv').
    { apply detach_counted; [|done].
      destruct (decide (e = A)); [by left|].
      destruct (decide (e = B)); [by right|done]. }
    exists w'. split; [done|].
    replace (attachedCount ab') with (attachedCount (a, b) - 1)%Z; [done|].
    repeat case_decide; try done; destruct a, b; try done;
      injection Hflag as <-; done.
Qed.

Lemma run_counted ops ab ab' w :
  attachedAfter A B ab ops = Some ab' →
  countedAt ctor ks sid A B (attachedCount ab) w →
  ∃ w', run (S fuel) ops w = Some w' ∧
        countedAt ctor ks sid A B (attachedCount ab') w'.
Proof.
  revert ab w. induction ops as [|op r IH]; intros ab w Hflags Hinv.
  - injection Hflags as <-. exists w. done.
  - cbn in Hflags. destruct (flagStep A B ab op) as [ab1|] eqn:Hflag; [|done].
    destruct (step_counted op ab ab1 w Hflag Hinv) as (w1 & Hstep & Hinv1).
    destruct (IH ab1 w1 Hflags Hinv1) as (w' & Hrun & Hinv').
    exists w'. split; [|done]. unfold run. cbn. rewrite Hstep. exact Hrun.
Qed.

(** From a world where nobody is counted on the paths. *)
Lemma run_counted_initial ops ab' w :
  ops ≠ [] →
  attachedAfter A B (false, false) ops = Some ab' →
  keys w ctor = ks →
  stateIdPathOf (getProp w A (stateIdProperty ctor)) = sid →
  stateIdPathOf (getProp w B (stateIdProperty ctor)) = sid →
  (∀ p, p ∈ ks →
     refTruthy (stateRefs w !! statePathOf ctor p sid) = false) →
  ∃ w', run (S fuel) ops w = Some w' ∧
        countedAt ctor ks sid A B (attachedCount ab') w'.
Proof.
  intros Hne Hflags Hks HsA HsB Hfalsy.
  destruct ops as [|op r]; [done|]. cbn in Hflags.
  destruct (flagStep A B (false, false) op) as [ab1|] eqn:Hflag; [|done].
  assert (∃ w1, step (S fuel) op w = Some w1 ∧
            countedAt ctor ks sid A B (attachedCount ab1) w1)
    as (w1 & Hstep & Hinv1).
  { destruct op as [e|e]; cbn [flagStep fst snd] in Hflag;
      [|repeat case_decide; done].
    assert (e = A ∨ e = B) as He.
    { destruct (decide (e = A)); [by left|].
      destruct (decide (e = B)); [by right|done]. }
    assert (attachedCount ab1 = (0 + 1)%Z) as ->.
    { repeat case_decide; try done; injection Hflag as <-; done. }
    apply attach_counted; try done. intros p Hp. right. eauto. }
  destruct (run_counted r ab1 ab' w1 Hflags Hinv1) as (w' & Hrun & Hinv').
  exists w'. split; [|done]. unfold run. cbn.
  rewrite Hstep. exact Hrun.
Qed.
End Pair.

(** ** The listeners attach leaves, and what detach keeps *)

Section Listeners.
Variable ks : list string.
Variable sid : string.
Hypothesis ks_nodup : NoDup ks.

Lemma attach_listeners fuel e w :
  let ctor := elCtor e in
  stateIdPathOf (getProp w e (stateIdProperty ctor)) = sid →
  keys w ctor = ks →
  ∃ w',
    elementConnected (S fuel) e w = Some w' ∧
    keys w' ctor = ks ∧
    localListeners w' = localListeners w ++ (localListenerOf w e sid <$> ks) ∧
    (∀ i n, i ≠ elId e →
       elementProps w' !! (i, n) = elementProps w !! (i, n)) ∧
    (∀ h, h ∈ windowListeners w' →
       h ∈ windowListeners w ∨
       (wlEl h = e ∧ ∃ q, q ∈ ks ∧
          wlWindowEventName h = windowEventNameOf (statePathOf ctor q sid))) ∧
    ∀ p, p ∈ ks → resolvedAt ctor sid w' p.
Proof.
  intros ctor Hsid Hks.
  pose proof (elementConnected_loop e fuel w) as Hloop.
  cbv zeta in Hloop. fold ctor in Hloop. rewrite Hsid, Hks in Hloop.
  destruct (Hloop
    (λ r w',
       NoDup r ∧
       (∃ visited, ks = visited ++ r ∧
          localListeners w'
          = localListeners w ++ (localListenerOf w e sid <$> visited)) ∧
       (∀ q, q ∈ r →
          alist_lookup q (getDataProperties w' ctor)
          = alist_lookup q (getDataProperties w ctor)) ∧
       (∀ i n, i ≠ elId e →
          elementProps w' !! (i, n) = elementProps w !! (i, n)) ∧
       (∀ h, h ∈ windowListeners w' →
          h ∈ windowListeners w ∨
          (wlEl h = e ∧ ∃ q, q ∈ ks ∧
             wlWindowEventName h
             = windowEventNameOf (statePathOf ctor q sid))) ∧
       ∀ p, p ∈ ks → p ∉ r → resolvedAt ctor sid w' p))
    as (w' & Hrun & Hks' & _ & (visited & Hv & Hll) & _ & Hprops & Hwl & Hres).
  - intros x r w1 dp Hks1 Hdp (Hnd & (visited & Hv & Hll) & Hsame & Hprops
                                & Hwl & Hres).
    assert (x ∈ ks) as Hx.
    { rewrite <- Hks1. apply alist_lookup_is_Some. eauto. }
    apply NoDup_cons in Hnd as [Hxr Hnd].
    split; [done|]. split.
    { exists (visited ++ [x]). split; [by rewrite <- app_assoc|].
      cbn [localListeners connectedProperty]. rewrite Hll, fmap_app.
      rewrite <- app_assoc. f_equal. f_equal. cbn.
      unfold localListenerOf. fold ctor.
      rewrite <- (Hsame x) by (apply elem_of_cons; by left).
      by rewrite Hdp. }
    split.
    { intros q Hq. rewrite getDataProperties_connected.
      rewrite alist_lookup_set_ne by (intros ->; done).
      apply Hsame. apply elem_of_cons. by right. }
    split.
    { intros i n Hi. rewrite <- Hprops by done.
      cbn [elementProps connectedProperty]. case_bool_decide; [done|].
      rewrite lookup_insert_ne; [done|]. intros [= ? ?]. done. }
    split.
    { intros h Hh. cbn [windowListeners connectedProperty] in Hh.
      apply elem_of_app in Hh as [Hh|Hh]; [by apply Hwl|].
      apply list_elem_of_singleton in Hh as ->. right. split; [done|].
      exists x. done. }
    intros p Hp Hpr. destruct (decide (p = x)) as [->|Hne].
    + eexists. rewrite getDataProperties_connected, alist_lookup_set_eq.
      done.
    + destruct (Hres p Hp) as (dp' & Hl & Hs).
      { intros [?|?]%elem_of_cons; done. }
      exists dp'. split; [|done].
      by rewrite getDataProperties_connected, alist_lookup_set_ne.
  - split; [done|]. split; [exists []; by rewrite app_nil_r|].
    split; [done|]. split; [done|]. split; [by left|].
    intros p Hp Hnot. done.
  - exists (log (MiddlewareRun true (elId e)) w').
    split; [done|]. split; [done|].
    rewrite app_nil_r in Hv. subst visited.
    repeat (split; [done|]).
    intros p Hp. apply Hres; [done|]. apply not_elem_of_nil.
Qed.

Lemma detach_keeps e w :
  let ctor := elCtor e in
  let P p := statePathOf ctor p sid in
  keys w ctor = ks →
  (∀ p, p ∈ ks → resolvedAt ctor sid w p) →
  ∃ w',
    elementDisconnected e w = Some w' ∧
    keys w' ctor = ks ∧
    localListeners w' = localListeners w ∧
    elementProps w' = elementProps w ∧
    ∀ p, p ∈ ks →
      stateRefs w' !! P p = Some (refDecr (stateRefs w !! P p)) ∧
      (refDecr (stateRefs w !! P p) = Num 0 → rootState w' !! P p = None).
Proof.
  intros ctor P Hks Hres.
  pose proof (elementDisconnected_loop e w) as Hloop.
  cbv zeta in Hloop. fold ctor in Hloop. rewrite Hks in Hloop.
  destruct (Hloop
    (λ r w',
       NoDup r ∧ localListeners w' = localListeners w ∧
       elementProps w' = elementProps w ∧
       ∀ p, p ∈ ks →
         resolvedAt ctor sid w' p ∧
         (p ∈ r → stateRefs w' !! P p = stateRefs w !! P p) ∧
         (p ∉ r →
            stateRefs w' !! P p = Some (refDecr (stateRefs w !! P p)) ∧
            (refDecr (stateRefs w !! P p) = Num 0 →
             rootState w' !! P p = None))))
    as (w' & Hrun & Hks' & _ & Hll & Hprops & HQ).
  - intros x r w1 dp Hks1 Hdp (Hnd & Hll & Hprops & HQ).
    assert (x ∈ ks) as Hx.
    { rewrite <- Hks1. apply alist_lookup_is_Some. eauto. }
    apply NoDup_cons in Hnd as [Hxr Hnd].
    split; [done|]. split; [done|]. split; [done|].
    destruct (HQ x Hx) as ((dpx & Hdpx & Hsx) & Hxin & _).
    rewrite Hdp in Hdpx. injection Hdpx as <-.
    assert (Hn : refDecr (stateRefs w1 !! P x)
                 = refDecr (stateRefs w !! P x)).
    { by rewrite Hxin by (apply elem_of_cons; by left). }
    intros p Hp. destruct (HQ p Hp) as ((dp' & Hl & Hs) & Hin & Hout).
    unfold disconnectedProperty at 2 3 4. rewrite Hsx.
    cbn [asString default from_option id stateRefs rootState].
    fold (P x). rewrite Hn.
    destruct (decide (p = x)) as [->|Hne].
    + split.
      { exists {| changeEvent := changeEvent dp; statePath := statePath dp;
                  windowEventName := None; windowEventHandler := None |}.
        by rewrite getDataProperties_disconnected, alist_lookup_set_eq. }
      split; [done|]. intros _.
      rewrite lookup_insert_eq. split; [done|]. intros H0.
      rewrite bool_decide_eq_true_2 by done.
      by rewrite lookup_delete_eq.
    + assert (P x ≠ P p) as HP.
      { intros HPP. apply statePathOf_inj in HPP. done. }
      rewrite lookup_insert_ne by done. split.
      { exists dp'.
        by rewrite getDataProperties_disconnected, alist_lookup_set_ne. }
      split.
      * intros Hpr. apply Hin. apply elem_of_cons. by right.
      * intros Hpr. destruct Hout as [Hc H0].
        { intros [?|?]%elem_of_cons; done. }
        split; [done|]. intros Hz. case_bool_decide.
        -- rewrite lookup_delete_ne by done. by apply H0.
        -- by apply H0.
  - split; [done|]. split; [done|]. split; [done|].
    intros p Hp. split; [by apply Hres|]. done.
  - exists (log (MiddlewareRun false (elId e)) w').
    repeat (split; [done|]).
    intros p Hp. destruct (HQ p Hp) as (_ & _ & Hout).
    apply Hout, not_elem_of_nil.
Qed.
End Listeners.

(** ** Runs of local listeners *)

Lemma localEffect_props_self l w n :
  elementProps (localEffect l w) !! (elId (llEl l), n)
  = elementProps w !! (elId (llEl l), n).
Proof.
  unfold localEffect. rewrite window_fold_prop_other; [done|].
  intros h _ Hd [= Hel _]. apply Hd. by rewrite Hel.
Qed.

Lemma reacting_none d b (hs : list WindowListener) :
  (∀ h, h ∈ hs → elId (wlEl h) ≠ b) → filter (reacting d b) hs = [].
Proof.
  intros Hno. induction hs as [|h hs IH]; [done|].
  rewrite filter_cons_False.
  - apply IH. intros h' Hh'. apply Hno, elem_of_cons. by right.
  - intros [Hb _]. apply (Hno h); [|done]. apply elem_of_cons. by left.
Qed.

Section LocalFold.
Let runAll := fold_left (λ w l, localEffect l w).

(** The element that fired keeps its own properties. *)
Lemma local_fold_props_self ls w a n :
  (∀ l, l ∈ ls → elId (llEl l) = a) →
  elementProps (runAll ls w) !! (a, n) = elementProps w !! (a, n).
Proof.
  revert w. induction ls as [|l ls IH]; intros w Ha; [done|]. simpl.
  rewrite IH by (intros l' Hl'; apply Ha, elem_of_cons; by right).
  rewrite <- (Ha l) by (apply elem_of_cons; by left).
  apply localEffect_props_self.
Qed.

(** A path none of the listeners captured keeps its entry. *)
Lemma local_fold_root_other ls w path :
  (∀ l, l ∈ ls → llStatePath l ≠ path) →
  rootState (runAll ls w) !! path = rootState w !! path.
Proof.
  revert w. induction ls as [|l ls IH]; intros w Hp; [done|]. simpl.
  rewrite IH by (intros l' Hl'; apply Hp, elem_of_cons; by right).
  destruct (localEffect_frame l w) as (-> & _).
  rewrite lookup_insert_ne; [done|]. apply Hp, elem_of_cons. by left.
Qed.

Lemma local_fold_trace ls w : ∃ delta, trace (runAll ls w) = delta ++ trace w.
Proof.
  revert w. induction ls as [|l ls IH]; intros w; [by exists []|]. simpl.
  destruct (IH (localEffect l w)) as (d2 & ->).
  destruct (localEffect_trace l w) as (d1 & -> & _).
  exists (d2 ++ d1). by rewrite app_assoc.
Qed.

(** An element none of whose global handlers is registered under an
    event the listeners raise sees nothing of the run. *)
Lemma local_fold_isolated ls w b :
  (∀ l h, l ∈ ls → h ∈ windowListeners w →
          wlWindowEventName h = llWindowEventName l → elId (wlEl h) ≠ b) →
  (∀ n, elementProps (runAll ls w) !! (b, n) = elementProps w !! (b, n)) ∧
  ∃ delta,
    trace (runAll ls w) = delta ++ trace w ∧
    elementEvents b delta = [] ∧ propWrites b delta = [].
Proof.
  revert w. induction ls as [|l ls IH]; intros w Hiso.
  - split; [done|]. by exists [].
  - simpl.
    destruct (localEffect_frame l w) as (_ & _ & _ & _ & Hwl & _).
    destruct (IH (localEffect l w)) as (Hprops & d2 & Htr2 & He2 & Hp2).
    { intros l' h Hl' Hh. rewrite Hwl in Hh. apply Hiso; [|done].
      apply elem_of_cons. by right. }
    assert (Hl : ∀ h, h ∈ windowListeners w →
              wlWindowEventName h = llWindowEventName l → elId (wlEl h) ≠ b).
    { intros h. apply Hiso. apply elem_of_cons. by left. }
    split.
    { intros n. rewrite Hprops. by apply localEffect_props_other. }
    destruct (localEffect_trace l w) as (d1 & Htr1 & _ & _ & Hb).
    destruct (Hb b) as [He1 Hp1].
    rewrite reacting_none in He1, Hp1
      by (intros h [? ?]%list_elem_of_filter; by apply Hl).
    exists (d2 ++ d1). fold runAll in Htr2. rewrite Htr2, Htr1.
    split; [by rewrite app_assoc|].
    rewrite elementEvents_app, propWrites_app, He1, Hp1, He2, Hp2. done.
Qed.

(** The entry of a path holds what the last listener on that path
    wrote: the firing element's value of the listener's property. *)
Lemma local_fold_last_write ls1 l ls2 w a :
  (∀ l', l' ∈ ls1 ++ l :: ls2 → elId (llEl l') = a) →
  (∀ l', l' ∈ ls2 → llStatePath l' ≠ llStatePath l) →
  let v := default VUndefined (elementProps w !! (a, llPropertyName l)) in
  rootState (runAll (ls1 ++ l :: ls2) w) !! llStatePath l = Some v ∧
  ∃ delta,
    trace (runAll (ls1 ++ l :: ls2) w) = delta ++ trace w ∧
    (llStatePath l, v) ∈ rootWrites delta ∧
    (llWindowEventName l, DetailSource a) ∈ windowEvents delta.
Proof.
  intros Ha Hlater v. unfold runAll. rewrite fold_left_app. cbn [fold_left].
  fold runAll. set (w1 := runAll ls1 w).
  assert (Hla : elId (llEl l) = a).
  { apply Ha, elem_of_app. right. apply elem_of_cons. by left. }
  assert (Hv : getProp w1 (llEl l) (llPropertyName l) = v).
  { unfold getProp, v. rewrite Hla. unfold w1.
    rewrite local_fold_props_self; [done|].
    intros l' Hl'. apply Ha, elem_of_app. by left. }
  split.
  - rewrite local_fold_root_other by done. fold runAll. fold w1.
    destruct (localEffect_frame l w1) as (-> & _).
    by rewrite lookup_insert_eq, Hv.
  - fold runAll. fold w1.
    destruct (local_fold_trace ls2 (localEffect l w1)) as (d3 & ->).
    destruct (localEffect_trace l w1) as (d2 & -> & Hrw & Hwe & _).
    destruct (local_fold_trace ls1 w) as (d1 & Htr1). fold w1 in Htr1.
    rewrite Htr1. exists (d3 ++ d2 ++ d1).
    split; [by rewrite !app_assoc|].
    rewrite !rootWrites_app, !windowEvents_app, Hrw, Hwe, Hv, Hla.
    split; apply elem_of_app; right; apply elem_of_app; left;
      by apply list_elem_of_singleton.
Qed.
End LocalFold.

(** ** Paths of instances with different ids *)

Lemma dotted_split (p q x y : string) :
  dotFree p = true → dotFree q = true →
  p +:+ "." +:+ x = q +:+ "." +:+ y → p = q ∧ x = y.
Proof.
  change ("." +:+ x) with (String "."%char x).
  change ("." +:+ y) with (String "."%char y).
  revert q. induction p as [|a p IH]; intros [|c q] Hp Hq H.
  - by injection H as ->.
  - rewrite (string_app_cons c q) in H. injection H as <- _.
    cbn in Hq. by rewrite decide_True in Hq.
  - rewrite (string_app_cons a p) in H. injection H as -> _.
    cbn in Hp. by rewrite decide_True in Hp.
  - rewrite (string_app_cons a p), (string_app_cons c q) in H.
    injection H as -> H.
    cbn in Hp, Hq. destruct (decide (c = "."%char)); [done|].
    destruct (IH q Hp Hq H) as [-> ->]. done.
Qed.

Lemma statePathOf_ids_differ ctor p q idA idB :
  truthy idA = true → truthy idB = true → toStr idA ≠ toStr idB →
  dotFree p = true → dotFree q = true →
  statePathOf ctor p (stateIdPathOf idA) ≠ statePathOf ctor q (stateIdPathOf idB).
Proof.
  intros HA HB Hne Hp Hq. unfold statePathOf, stateIdPathOf.
  rewrite HA, HB. intros H.
  apply (inj (String.app _)) in H. apply (inj (String.app _)) in H.
  apply dotted_split in H as [_ ?]; done.
Qed.

(** A genuine change event on [X] leaves [b] alone when no global handler
    of [b] listens to what [X]'s local listeners raise. *)
Lemma fire_isolated fuel w X b ce d :
  3 ≤ fuel → d ≠ DetailSync → elId X ≠ b →
  (∀ l h, l ∈ localListeners w → elId (llEl l) = elId X →
          h ∈ windowListeners w →
          wlWindowEventName h = llWindowEventName l → elId (wlEl h) ≠ b) →
  ∃ w3 delta,
    dispatchEvent fuel (TElement (elId X)) ce d w = Some w3 ∧
    trace w3 = delta ++ trace w ∧
    propWrites b delta = [] ∧
    elementEvents b delta = [] ∧
    ∀ n, elementProps w3 !! (b, n) = elementProps w !! (b, n).
Proof.
  intros Hfuel Hd HXb Hiso. destruct fuel as [|[|[|fuel]]]; try lia.
  rewrite dispatch_local by done.
  set (w0 := log (Dispatched (TElement (elId X)) ce d) w).
  destruct (local_fold_isolated
              (filter (λ l, elId (llEl l) = elId X ∧ llChangeEvent l = ce)
                      (localListeners w)) w0 b)
    as (Hprops & delta & Htr & He & Hp).
  { intros l h [[Hl _] Hin]%list_elem_of_filter Hh. by apply Hiso. }
  eexists _, (delta ++ [Dispatched (TElement (elId X)) ce d]).
  split; [done|]. split; [by rewrite Htr, <- app_assoc|].
  rewrite propWrites_app, elementEvents_app, He, Hp. cbn.
  rewrite decide_False by done. done.
Qed.

(** * The claims *)

(** The Widget scenario of the specification: [W1] attaches with
    [count = 5] and seeds the store; [W2] attaches and pulls 5; [W1] sets 6
    and fires its change event, the store and [W2] follow; [W1] detaches and
    the entry persists; [W2] detaches and the entry is removed. *)
Example widget_scenario :
  (w1 ← elementConnected 3 Widget.W1 Widget.init;
   w2 ← elementConnected 3 Widget.W2 w1;
   w3 ← dispatchChange 3 Widget.W1 "count"
          (setProp Widget.W1 "count" (VNum "6") w2);
   w4 ← elementDisconnected Widget.W1 w3;
   w5 ← elementDisconnected Widget.W2 w4;
   Some [(rootState w1 !! "Widget.count", stateRefs w1 !! "Widget.count",
          getProp w1 Widget.W2 "count");
         (rootState w2 !! "Widget.count", stateRefs w2 !! "Widget.count",
          getProp w2 Widget.W2 "count");
         (rootState w3 !! "Widget.count", stateRefs w3 !! "Widget.count",
          getProp w3 Widget.W2 "count");
         (rootState w4 !! "Widget.count", stateRefs w4 !! "Widget.count",
          getProp w4 Widget.W2 "count");
         (rootState w5 !! "Widget.count", stateRefs w5 !! "Widget.count",
          getProp w5 Widget.W2 "count")])
  = Some [(Some (VNum "5"), Some (Num 1), VNum "0");
          (Some (VNum "5"), Some (Num 2), VNum "5");
          (Some (VNum "6"), Some (Num 2), VNum "6");
          (Some (VNum "6"), Some (Num 1), VNum "6");
          (None, Some (Num 0), VNum "6")].
Proof. vm_compute. reflexivity. Qed.

(** ** Seeding and pulling on attach *)

(** C3: on attach, for a declared property [p]: when [RootState.get] at the
    state path returns the null sentinel, RootState is set to the element's
    current value of [p], no property is written and no event is
    dispatched; otherwise RootState is left alone, the element's [p] is
    overwritten with the stored value and exactly one event is dispatched,
    on the element, of the change-event type, tagged as a sync update. *)
Theorem C3_attach_seeds_or_pulls (fuel : nat) (el : DataElement)
    (sid p : string) (dp : DataProperty) (w : World) :
  1 ≤ fuel →
  alist_lookup p (getDataProperties w (elCtor el)) = Some dp →
  let path := statePathOf (elCtor el) p sid in
  let ce := changeEventOf dp p in
  ∃ w' delta,
    connectProperty fuel el sid p w = Some w' ∧
    trace w' = delta ++ trace w ∧
    (RootState_get w path = VNull →
       rootState w' = rootState (RootState_set path (getProp w el p) w) ∧
       elementProps w' = elementProps w ∧
       delta = [RootSet path (getProp w el p)] ∧
       allEvents delta = []) ∧
    (RootState_get w path ≠ VNull →
       rootState w' = rootState w ∧
       getProp w' el p = RootState_get w path ∧
       delta = [Dispatched (TElement (elId el)) ce DetailSync;
                PropSet (elId el) p (RootState_get w path)] ∧
       allEvents delta = [(TElement (elId el), ce, DetailSync)]).
Proof.
  intros Hfuel Hdp path ce. destruct fuel as [|fuel]; [lia|].
  rewrite (connectProperty_run _ _ _ _ _ _ Hdp).
  eexists _, _. split; [done|]. fold path ce.
  split; [unfold connectedProperty; cbn [trace]; reflexivity|].
  fold path ce. split; intros Hnull.
  - unfold connectedProperty. fold path.
    rewrite (bool_decide_eq_true_2 _ Hnull). done.
  - unfold connectedProperty, getProp. fold path.
    rewrite (bool_decide_eq_false_2 _ Hnull). cbn.
    by rewrite lookup_insert_eq.
Qed.

Lemma C3_attach_seeds_or_pulls_witness :
  1 ≤ 1 ∧
  alist_lookup "count" (getDataProperties Widget.init (elCtor Widget.W1))
  = Some {| changeEvent := Some "count-changed"; statePath := None;
            windowEventName := None; windowEventHandler := None |} ∧
  ∃ w' delta,
    connectProperty 1 Widget.W1 "" "count" Widget.init = Some w' ∧
    trace w' = delta ++ trace Widget.init ∧
    (RootState_get Widget.init "Widget.count" = VNull →
       rootState w'
       = rootState (RootState_set "Widget.count"
                      (getProp Widget.init Widget.W1 "count") Widget.init) ∧
       elementProps w' = elementProps Widget.init ∧
       delta = [RootSet "Widget.count" (getProp Widget.init Widget.W1 "count")] ∧
       allEvents delta = []) ∧
    (RootState_get Widget.init "Widget.count" ≠ VNull →
       rootState w' = rootState Widget.init ∧
       getProp w' Widget.W1 "count" = RootState_get Widget.init "Widget.count" ∧
       delta = [Dispatched (TElement 1) "count-changed" DetailSync;
                PropSet 1 "count" (RootState_get Widget.init "Widget.count")] ∧
       allEvents delta = [(TElement 1, "count-changed", DetailSync)]).
Proof.
  split; [lia|]. split; [reflexivity|].
  apply (C3_attach_seeds_or_pulls 1 Widget.W1 "" "count"
           {| changeEvent := Some "count-changed"; statePath := None;
              windowEventName := None; windowEventHandler := None |}
           Widget.init).
  - lia.
  - reflexivity.
Defined.

(** C10: a stored [null] is treated like an absent entry.  When the entry
    at the state path holds [null], attach does not pull: no property of the
    element is written and no event is dispatched; it seeds, so the entry
    then holds the element's own current value; and the outcome is the one
    attach has when the entry is absent. *)
Theorem C10_stored_null_is_seeded (fuel : nat) (el : DataElement)
    (sid p : string) (dp : DataProperty) (w : World) :
  1 ≤ fuel →
  alist_lookup p (getDataProperties w (elCtor el)) = Some dp →
  let path := statePathOf (elCtor el) p sid in
  rootState w !! path = Some VNull →
  ∃ w',
    connectProperty fuel el sid p w = Some w' ∧
    elementProps w' = elementProps w ∧
    trace w' = [RootSet path (getProp w el p)] ++ trace w ∧
    rootState w' !! path = Some (getProp w el p) ∧
    connectProperty fuel el sid p (forgetEntry path w) = Some w'.
Proof.
  intros Hfuel Hdp path Hnull. destruct fuel as [|fuel]; [lia|].
  rewrite (connectProperty_run _ _ _ _ _ _ Hdp).
  rewrite (connectProperty_run _ _ _ _ dp (forgetEntry path w)) by done.
  assert (Hget : RootState_get w path = VNull).
  { unfold RootState_get. by rewrite Hnull. }
  assert (Hget' : RootState_get (forgetEntry path w) path = VNull).
  { unfold RootState_get, forgetEntry. simpl. by rewrite lookup_delete_eq. }
  eexists. split; [done|].
  unfold connectedProperty. fold path.
  rewrite Hget, Hget'. rewrite !bool_decide_eq_true_2 by done. cbn.
  repeat split; [by rewrite lookup_insert_eq|].
  by rewrite insert_delete_eq.
Qed.

Lemma C10_stored_null_is_seeded_witness :
  1 ≤ 1 ∧
  alist_lookup "count" (getDataProperties Widget.nulled (elCtor Widget.W1))
  = Some {| changeEvent := Some "count-changed"; statePath := None;
            windowEventName := None; windowEventHandler := None |} ∧
  rootState Widget.nulled !! statePathOf (elCtor Widget.W1) "count" "" = Some VNull ∧
  ∃ w',
    connectProperty 1 Widget.W1 "" "count" Widget.nulled = Some w' ∧
    elementProps w' = elementProps Widget.nulled ∧
    trace w' = [RootSet (statePathOf (elCtor Widget.W1) "count" "")
                  (getProp Widget.nulled Widget.W1 "count")] ++ trace Widget.nulled ∧
    rootState w' !! statePathOf (elCtor Widget.W1) "count" ""
    = Some (getProp Widget.nulled Widget.W1 "count") ∧
    connectProperty 1 Widget.W1 "" "count"
      (forgetEntry (statePathOf (elCtor Widget.W1) "count" "") Widget.nulled) = Some w'.
Proof.
  split; [lia|]. split; [reflexivity|]. split; [reflexivity|].
  apply (C10_stored_null_is_seeded 1 Widget.W1 "" "count"
           {| changeEvent := Some "count-changed"; statePath := None;
              windowEventName := None; windowEventHandler := None |} Widget.nulled).
  - lia.
  - reflexivity.
  - reflexivity.
Defined.

(** ** The local listener *)

(** C8: the local listener that attach registers for a declared property
    listens on the element for the property's change event; run on an event
    that is not tagged as a sync update, it writes the element's current
    value of the property into RootState under the captured state path (the
    only RootState write) and dispatches exactly one global event, named by
    the captured window event name, whose detail carries the element as
    [sourceElement]. *)
Theorem C8_local_listener_pushes (fuel : nat) (el : DataElement)
    (sid p : string) (dp : DataProperty) (w : World) :
  1 ≤ fuel →
  alist_lookup p (getDataProperties w (elCtor el)) = Some dp →
  let path := statePathOf (elCtor el) p sid in
  let l := {| llEl := el; llChangeEvent := changeEventOf dp p;
              llStatePath := path; llPropertyName := p;
              llWindowEventName := windowEventNameOf path |} in
  ∃ w',
    connectProperty fuel el sid p w = Some w' ∧
    localListeners w' = localListeners w ++ [l] ∧
    l ∈ filter (λ l, elId (llEl l) = elId el ∧
                     llChangeEvent l = changeEventOf dp p)
               (localListeners w') ∧
    ∀ fuel2 d w2,
      2 ≤ fuel2 → d ≠ DetailSync →
      ∃ w3 delta,
        localListener (dispatchEvent fuel2) l d w2 = Some w3 ∧
        trace w3 = delta ++ trace w2 ∧
        rootState w3 = <[path := getProp w2 el p]> (rootState w2) ∧
        rootWrites delta = [(path, getProp w2 el p)] ∧
        windowEvents delta
        = [(windowEventNameOf path, DetailSource (elId el))].
Proof.
  intros Hfuel Hdp path l. destruct fuel as [|fuel]; [lia|].
  rewrite (connectProperty_run _ _ _ _ _ _ Hdp).
  eexists. split; [done|]. split; [done|]. split.
  { apply list_elem_of_filter. split; [done|].
    cbn [localListeners connectedProperty]. apply elem_of_app. right.
    by apply list_elem_of_singleton. }
  intros fuel2 d w2 Hfuel2 Hd. destruct fuel2 as [|[|fuel2]]; try lia.
  rewrite localListener_run by done.
  destruct (localEffect_trace l w2) as (delta & Htr & Hrw & Hwe & _).
  destruct (localEffect_frame l w2) as (HR & _).
  exists (localEffect l w2), delta. by repeat split.
Qed.

Lemma C8_local_listener_pushes_witness :
  1 ≤ 1 ∧
  alist_lookup "count" (getDataProperties Widget.init (elCtor Widget.W1))
  = Some {| changeEvent := Some "count-changed"; statePath := None;
            windowEventName := None; windowEventHandler := None |} ∧
  ∃ w',
    connectProperty 1 Widget.W1 "" "count" Widget.init = Some w' ∧
    localListeners w'
    = localListeners Widget.init ++
        [{| llEl := Widget.W1; llChangeEvent := "count-changed";
            llStatePath := "Widget.count"; llPropertyName := "count";
            llWindowEventName := "Widget.count-changed" |}].
Proof.
  split; [lia|]. split; [reflexivity|].
  destruct (C8_local_listener_pushes 1 Widget.W1 "" "count"
              {| changeEvent := Some "count-changed"; statePath := None;
                 windowEventName := None; windowEventHandler := None |}
              Widget.init) as (w' & Hrun & Hl & _).
  - lia.
  - reflexivity.
  - exists w'. split; [exact Hrun|exact Hl].
Defined.

(** ** No bouncing between instances *)

(** C2, as stated, fails after a refresh: [W1] attaches, refreshes (detach
    then attach, which leaves the first local listener in place and adds a
    second), [W2] attaches, and [W1] fires one genuine change event.  [W2]
    then receives two sync-tagged events and two property writes, RootState
    is written twice and two global events are dispatched. *)
Lemma C2_counterexample :
  (w1 ← elementConnected 3 Widget.W1 Widget.init;
   w2 ← refreshState 3 Widget.W1 w1;
   w3 ← elementConnected 3 Widget.W2 w2;
   w4 ← dispatchChange 3 Widget.W1 "count" w3;
   Some (elementEvents 2 (since w3 w4), propWrites 2 (since w3 w4),
         rootWrites (since w3 w4), windowEvents (since w3 w4)))
  = Some ([("count-changed", DetailSync); ("count-changed", DetailSync)],
          [("count", VNum "5"); ("count", VNum "5")],
          [("Widget.count", VNum "5"); ("Widget.count", VNum "5")],
          [("Widget.count-changed", DetailSource 1);
           ("Widget.count-changed", DetailSource 1)]).
Proof. vm_compute. reflexivity. Qed.

(** C2, amended: when instance [A] carries exactly one local listener [l]
    for the change event and another instance [B] has exactly one global
    handler [h] registered under the window event that [l] raises, a genuine
    (not sync-tagged) change event fired on [A] returns, and: RootState is
    written once, with [A]'s value, at [l]'s path; one global event is
    dispatched, with [A] as source; [B] gets exactly one property write,
    of what RootState then holds at [h]'s path (so [A]'s value when the
    paths agree), and exactly one event, sync-tagged; [A] itself gets no
    property write and no event besides the one fired. *)
Theorem C2_one_sync_update (fuel : nat) (w : World) (A B : DataElement)
    (ce : string) (d : Detail) (l : LocalListener) (h : WindowListener) :
  3 ≤ fuel →
  d ≠ DetailSync →
  elId A ≠ elId B →
  filter (λ l, elId (llEl l) = elId A ∧ llChangeEvent l = ce)
         (localListeners w) = [l] →
  filter (λ h, elId (wlEl h) = elId B)
         (filter (λ h, wlWindowEventName h = llWindowEventName l)
                 (windowListeners w)) = [h] →
  let v := getProp w (llEl l) (llPropertyName l) in
  ∃ w' delta,
    dispatchEvent fuel (TElement (elId A)) ce d w = Some w' ∧
    trace w' = delta ++ trace w ∧
    rootState w' = <[llStatePath l := v]> (rootState w) ∧
    rootWrites delta = [(llStatePath l, v)] ∧
    windowEvents delta = [(llWindowEventName l, DetailSource (elId A))] ∧
    propWrites (elId B) delta
    = [(wlPropertyName h, RootState_get w' (wlStatePath h))] ∧
    elementEvents (elId B) delta = [(wlChangeEvent h, DetailSync)] ∧
    elementProps w' !! (elId B, wlPropertyName h)
    = Some (RootState_get w' (wlStatePath h)) ∧
    (wlStatePath h = llStatePath l → RootState_get w' (wlStatePath h) = v) ∧
    propWrites (elId A) delta = [] ∧
    elementEvents (elId A) delta = [(ce, d)].
Proof.
  intros Hfuel Hd HAB Hl Hh v.
  destruct fuel as [|[|[|fuel]]]; try lia.
  rewrite dispatch_local by done. rewrite Hl. cbn [fold_left].
  set (w0 := log (Dispatched (TElement (elId A)) ce d) w).
  assert (HlA : elId (llEl l) = elId A).
  { assert (l ∈ [l]) as Hin by (by apply list_elem_of_singleton).
    rewrite <- Hl in Hin. apply list_elem_of_filter in Hin. tauto. }
  destruct (localEffect_trace l w0) as (d1 & Htr & Hrw & Hwe & Hb).
  destruct (localEffect_frame l w0) as (HR & _).
  change (getProp w0 (llEl l) (llPropertyName l)) with v in *.
  change (windowListeners w0) with (windowListeners w) in *.
  change (rootState w0) with (rootState w) in HR.
  assert (Hget : ∀ path,
    RootState_get (RootState_set (llStatePath l) v w0) path
    = RootState_get (localEffect l w0) path).
  { intros path. unfold RootState_get. by rewrite HR. }
  assert (Hprop : elementProps (localEffect l w0) !! (elId B, wlPropertyName h)
                  = Some (RootState_get (localEffect l w0) (wlStatePath h))).
  { rewrite <- Hget. unfold localEffect.
    rewrite (window_fold_prop_single _ _ _ (elId B) h); [done|congruence|].
    exact Hh. }
  destruct (Hb (elId B)) as [HeB HpB]. destruct (Hb (elId A)) as [HeA HpA].
  rewrite HlA in HeB, HpB, HeA, HpA.
  rewrite reacting_other, Hh in HeB, HpB by done.
  rewrite reacting_source_nil in HeA, HpA.
  cbn in HeB, HpB, HeA, HpA. rewrite Hget in HpB.
  remember (localEffect l w0) as w' eqn:Hw'.
  exists w', (d1 ++ [Dispatched (TElement (elId A)) ce d]).
  split; [done|]. split; [by rewrite Htr, <- app_assoc|].
  split; [done|].
  rewrite rootWrites_app, windowEvents_app, !propWrites_app,
    !elementEvents_app, Hrw, Hwe, HlA, HeB, HpB, HeA, HpA.
  cbn. rewrite (decide_False (P := elId A = elId B)) by done.
  rewrite (decide_True (P := elId A = elId A)) by done.
  repeat (split; [done|]). split; [|done].
  intros Hpath. rewrite <- Hget, Hpath. unfold RootState_get. cbn.
  by rewrite lookup_insert_eq.
Qed.

Lemma C2_one_sync_update_witness :
  3 ≤ 3 ∧ DetailNone ≠ DetailSync ∧ elId Widget.W1 ≠ elId Widget.W2 ∧
  ∃ w' delta,
    dispatchEvent 3 (TElement (elId Widget.W1)) "count-changed" DetailNone
      Widget.both = Some w' ∧
    trace w' = delta ++ trace Widget.both ∧
    rootWrites delta = [("Widget.count", VNum "5")] ∧
    windowEvents delta = [("Widget.count-changed", DetailSource 1)] ∧
    elementEvents (elId Widget.W2) delta = [("count-changed", DetailSync)].
Proof.
  split; [lia|]. split; [discriminate|]. split; [discriminate|].
  destruct (C2_one_sync_update 3 Widget.both Widget.W1 Widget.W2
              "count-changed" DetailNone
              {| llEl := Widget.W1; llChangeEvent := "count-changed";
                 llStatePath := "Widget.count"; llPropertyName := "count";
                 llWindowEventName := "Widget.count-changed" |}
              {| wlHandler := 1; wlWindowEventName := "Widget.count-changed";
                 wlEl := Widget.W2; wlPropertyName := "count";
                 wlStatePath := "Widget.count";
                 wlChangeEvent := "count-changed" |})
    as (w' & delta & Hrun & Htr & _ & Hrw & Hwe & _ & HeB & _).
  - lia.
  - discriminate.
  - discriminate.
  - vm_compute. reflexivity.
  - vm_compute. reflexivity.
  - exists w', delta. repeat split; assumption.
Defined.

(** ** Resolution of paths and event names *)

(** C4, as stated, fails for a [stateId] that is present but falsy: with
    [stateId = ""] the recorded path is ["Widget.count"], not
    ["Widget.count."]. *)
Lemma C4_counterexample :
  elementProps (Widget.withIds (VStr "") (VStr "")) !! (1, "stateId")
  = Some (VStr "") ∧
  (w ← elementConnected 3 Widget.W1 (Widget.withIds (VStr "") (VStr ""));
   dp ← alist_lookup "count" (getDataProperties w Widget.ctor);
   Some (statePath dp, windowEventName dp))
  = Some (Some "Widget.count", Some "Widget.count-changed") ∧
  "Widget.count" ≠ "Widget" +:+ "." +:+ "count" +:+ "." +:+ toStr (VStr "").
Proof. split; [|split]; vm_compute; [reflexivity|reflexivity|discriminate]. Qed.

(** C4, amended: on every attach, for every declared property [p], the
    recorded state path is [{typeName}.{p}] when the instance's [stateId] is
    falsy (absent, [undefined], [null], [false], [0] or the empty string)
    and [{typeName}.{p}.{stateId}], with [stateId] converted to a string,
    when it is truthy; the recorded window event name is the state path
    followed by [-changed]. *)
Theorem C4_paths_follow_truthiness (fuel : nat) (el : DataElement) (w : World) :
  1 ≤ fuel →
  let ctor := elCtor el in
  let stateId := getProp w el (stateIdProperty ctor) in
  ∃ w',
    elementConnected fuel el w = Some w' ∧
    ∀ p, p ∈ keys w ctor →
      let path :=
        if truthy stateId
        then __elementName ctor +:+ "." +:+ p +:+ "." +:+ toStr stateId
        else __elementName ctor +:+ "." +:+ p in
      ∃ dp',
        alist_lookup p (getDataProperties w' ctor) = Some dp' ∧
        statePath dp' = Some path ∧
        windowEventName dp' = Some (path +:+ "-changed").
Proof.
  intros Hfuel ctor stateId. destruct fuel as [|fuel]; [lia|].
  set (sid := stateIdPathOf stateId).
  set (ks := keys w ctor).
  destruct (elementConnected_loop el fuel w
    (λ r w', ∀ p, p ∈ ks → p ∈ r ∨
       ∃ dp', alist_lookup p (getDataProperties w' ctor) = Some dp' ∧
              statePath dp' = Some (statePathOf ctor p sid) ∧
              windowEventName dp'
              = Some (windowEventNameOf (statePathOf ctor p sid))))
    as (w' & Hrun & _ & HQ).
  - intros x r w1 dp _ Hdp HQ p Hp.
    destruct (decide (p = x)) as [->|Hne].
    + right. rewrite getDataProperties_connected, alist_lookup_set_eq. eauto.
    + destruct (HQ p Hp) as [Hin|Hdone].
      * left. apply elem_of_cons in Hin as [?|?]; done.
      * right. rewrite getDataProperties_connected.
        by rewrite alist_lookup_set_ne.
  - intros p Hp. by left.
  - exists (log (MiddlewareRun true (elId el)) w'). split; [done|].
    intros p Hp. destruct (HQ p Hp) as [Hin|(dp' & H1 & H2 & H3)].
    { by apply elem_of_nil in Hin. }
    exists dp'. split; [done|].
    rewrite H2, H3. unfold statePathOf, windowEventNameOf, sid, stateIdPathOf.
    destruct (truthy stateId); [done|]. by rewrite string_app_nil_r.
Qed.

Lemma C4_paths_follow_truthiness_witness :
  1 ≤ 1 ∧
  ∃ w',
    elementConnected 1 Widget.W1 (Widget.withIds (VStr "a") (VStr "b"))
    = Some w' ∧
    ∃ dp',
      alist_lookup "count" (getDataProperties w' Widget.ctor) = Some dp' ∧
      statePath dp' = Some "Widget.count.a" ∧
      windowEventName dp' = Some "Widget.count.a-changed".
Proof.
  split; [lia|].
  destruct (C4_paths_follow_truthiness 1 Widget.W1
              (Widget.withIds (VStr "a") (VStr "b"))) as (w' & Hrun & Hp);
    [lia|].
  exists w'. split; [exact Hrun|].
  apply (Hp "count"). vm_compute. apply elem_of_cons. by left.
Defined.

(** ** What detach leaves in the class record *)

(** C6, as stated, fails: after an attach and a detach the class record
    still holds the resolved [statePath]. *)
Lemma C6_counterexample :
  (w ← run 3 [Attach Widget.W1; Detach Widget.W1] Widget.init;
   dp ← alist_lookup "count" (getDataProperties w Widget.ctor);
   Some (statePath dp, windowEventName dp, windowEventHandler dp))
  = Some (Some "Widget.count", None, None).
Proof. vm_compute. reflexivity. Qed.

(** C6, amended: on every detach, for every declared property, the fields
    [windowEventName] and [windowEventHandler] are cleared from the shared
    class record; [statePath] and [changeEvent] are left as they were. *)
Theorem C6_detach_clears_event_fields (el : DataElement) (w : World) :
  ∃ w',
    elementDisconnected el w = Some w' ∧
    ∀ p dp,
      alist_lookup p (getDataProperties w (elCtor el)) = Some dp →
      ∃ dp',
        alist_lookup p (getDataProperties w' (elCtor el)) = Some dp' ∧
        windowEventName dp' = None ∧
        windowEventHandler dp' = None ∧
        statePath dp' = statePath dp ∧
        changeEvent dp' = changeEvent dp.
Proof.
  set (ctor := elCtor el).
  destruct (elementDisconnected_loop el w
    (λ r w', ∀ p dp,
       alist_lookup p (getDataProperties w ctor) = Some dp →
       ∃ dp', alist_lookup p (getDataProperties w' ctor) = Some dp' ∧
              statePath dp' = statePath dp ∧
              changeEvent dp' = changeEvent dp ∧
              (p ∈ r ∨ (windowEventName dp' = None ∧
                        windowEventHandler dp' = None))))
    as (w' & Hrun & _ & HQ).
  - intros x r w1 dpx _ Hdpx HQ p dp Hdp.
    destruct (HQ p dp Hdp) as (dp' & H1 & H2 & H3 & H4).
    rewrite getDataProperties_disconnected.
    destruct (decide (p = x)) as [->|Hne].
    + rewrite alist_lookup_set_eq. eexists. split; [done|].
      fold ctor in Hdpx. rewrite Hdpx in H1. injection H1 as ->.
      cbn. eauto.
    + rewrite alist_lookup_set_ne by done. exists dp'.
      repeat (split; [done|]).
      destruct H4 as [Hin|?]; [|by right].
      left. apply elem_of_cons in Hin as [?|?]; done.
  - intros p dp Hdp. exists dp. repeat (split; [done|]). left.
    apply alist_lookup_is_Some. eauto.
  - exists (log (MiddlewareRun false (elId el)) w'). split; [done|].
    intros p dp Hdp.
    destruct (HQ p dp Hdp) as (dp' & H1 & H2 & H3 & [Hin|[H4 H5]]).
    { by apply elem_of_nil in Hin. }
    exists dp'. done.
Qed.

(** ** The reference count *)

(** C1: two instances [A] and [B] of one type share one state path per
    declared property (same instance id suffix, and [stateId] is not itself
    a synced property); nobody is counted on these paths at the start.  For
    every sequence of paired attach/detach operations on them, after every
    non-empty prefix the count of each path equals the number of the two
    that are attached: 2 once both are attached, and 0 once both are
    detached, at which point the RootState entry of the path is gone. *)
Theorem C1_reference_count (fuel : nat) (w0 : World) (A B : DataElement)
    (pre suf : list Op) :
  1 ≤ fuel →
  elCtor A = elCtor B →
  let ctor := elCtor A in
  let sid := stateIdPathOf (getProp w0 A (stateIdProperty ctor)) in
  stateIdPathOf (getProp w0 B (stateIdProperty ctor)) = sid →
  NoDup (keys w0 ctor) →
  stateIdProperty ctor ∉ keys w0 ctor →
  (∀ p, p ∈ keys w0 ctor →
     refTruthy (stateRefs w0 !! statePathOf ctor p sid) = false) →
  is_Some (attachedAfter A B (false, false) (pre ++ suf)) →
  pre ≠ [] →
  ∃ w ab,
    run fuel pre w0 = Some w ∧
    attachedAfter A B (false, false) pre = Some ab ∧
    ∀ p, p ∈ keys w0 ctor →
      let path := statePathOf ctor p sid in
      stateRefs w !! path = Some (Num (attachedCount ab)) ∧
      (ab = (true, true) → stateRefs w !! path = Some (Num 2)) ∧
      (ab = (false, false) →
         stateRefs w !! path = Some (Num 0) ∧ rootState w !! path = None).
Proof.
  intros Hfuel Hctor ctor sid HsB Hnd Hsid Hfalsy Hpaired Hne.
  destruct fuel as [|fuel]; [lia|].
  rewrite attachedAfter_app in Hpaired.
  destruct (attachedAfter A B (false, false) pre) as [ab|] eqn:Hflags;
    [|by destruct Hpaired].
  destruct (run_counted_initial A B ctor (keys w0 ctor) sid fuel Hnd Hsid
              eq_refl (eq_sym Hctor) pre ab w0)
    as (w & Hrun & _ & _ & _ & Hcount); try done.
  exists w, ab. split; [done|]. split; [done|].
  intros p Hp path. destruct (Hcount p Hp) as (Hc & _ & Hroot).
  fold path in Hc, Hroot. split; [done|]. split.
  - intros ->. done.
  - intros ->. split; [done|]. by apply Hroot.
Qed.

Lemma C1_reference_count_witness :
  1 ≤ 1 ∧
  elCtor Widget.W1 = elCtor Widget.W2 ∧
  NoDup (keys Widget.init Widget.ctor) ∧
  ∃ w,
    run 1 [Attach Widget.W1; Attach Widget.W2; Detach Widget.W1;
           Detach Widget.W2] Widget.init = Some w ∧
    stateRefs w !! "Widget.count" = Some (Num 0) ∧
    rootState w !! "Widget.count" = None.
Proof.
  split; [lia|]. split; [reflexivity|].
  assert (HND : NoDup (keys Widget.init Widget.ctor))
    by (vm_compute; apply NoDup_singleton).
  split; [exact HND|].
  destruct (C1_reference_count 1 Widget.init Widget.W1 Widget.W2
              [Attach Widget.W1; Attach Widget.W2; Detach Widget.W1;
               Detach Widget.W2] [])
    as (w & ab & Hrun & Hab & Hcount).
  - lia.
  - reflexivity.
  - reflexivity.
  - exact HND.
  - vm_compute. intros [H|H]%elem_of_cons; [discriminate|].
    by apply elem_of_nil in H.
  - intros p Hp. vm_compute in Hp.
    apply list_elem_of_singleton in Hp as ->. reflexivity.
  - vm_compute. eauto.
  - discriminate.
  - exists w. split; [exact Hrun|].
    injection Hab as <-.
    destruct (Hcount "count") as (_ & _ & H0).
    { vm_compute. apply elem_of_cons. by left. }
    apply H0. reflexivity.
Defined.

(** ** The local listener outlives the attachment *)

(** C9: detach never removes the local listener.  For every element that
    attaches and then detaches, the listener attach registered for a
    declared property [p] is still registered; a later change event on the
    element that is not sync-tagged returns, writes the element's current
    value of [p] into RootState at the path resolved by that attach, so the
    entry is there afterwards, also when the detach had deleted it on the
    count reaching zero, and dispatches the global event of that path with
    the element as source. *)
Theorem C9_listener_survives_detach (fuel : nat) (el : DataElement)
    (w : World) (p : string) (dp : DataProperty) (d : Detail) :
  3 ≤ fuel →
  d ≠ DetailSync →
  NoDup (keys w (elCtor el)) →
  alist_lookup p (getDataProperties w (elCtor el)) = Some dp →
  let ctor := elCtor el in
  let sid := stateIdPathOf (getProp w el (stateIdProperty ctor)) in
  let path := statePathOf ctor p sid in
  let ce := changeEventOf dp p in
  ∃ w1 w2 w3 delta,
    elementConnected fuel el w = Some w1 ∧
    elementDisconnected el w1 = Some w2 ∧
    localListeners w2 = localListeners w1 ∧
    {| llEl := el; llChangeEvent := ce; llStatePath := path;
       llPropertyName := p; llWindowEventName := windowEventNameOf path |}
      ∈ localListeners w2 ∧
    (stateRefs w2 !! path = Some (Num 0) → rootState w2 !! path = None) ∧
    dispatchEvent fuel (TElement (elId el)) ce d w2 = Some w3 ∧
    trace w3 = delta ++ trace w2 ∧
    rootState w3 !! path = Some (getProp w2 el p) ∧
    (path, getProp w2 el p) ∈ rootWrites delta ∧
    (windowEventNameOf path, DetailSource (elId el)) ∈ windowEvents delta.
Proof.
  intros Hfuel Hd Hnd Hdp ctor sid path ce.
  destruct fuel as [|[|[|fuel]]]; try lia.
  set (ks := keys w ctor).
  destruct (attach_listeners ks sid Hnd (S (S fuel)) el w)
    as (w1 & Hrun1 & Hks1 & Hll1 & _ & _ & Hres); [done..|].
  destruct (detach_keeps ks sid Hnd el w1)
    as (w2 & Hrun2 & _ & Hll2 & Hprops2 & Hrefs); [done..|].
  assert (p ∈ ks) as Hp by (apply alist_lookup_is_Some; eauto).
  set (mk := localListenerOf w el sid).
  assert (Hmk : mk p = {| llEl := el; llChangeEvent := ce; llStatePath := path;
                          llPropertyName := p;
                          llWindowEventName := windowEventNameOf path |}).
  { unfold mk, localListenerOf. by rewrite Hdp. }
  apply list_elem_of_split in Hp as (k1 & k2 & Hsplit).
  assert (Hks : keys w (elCtor el) = k1 ++ p :: k2) by exact Hsplit.
  assert (Hpin : p ∈ keys w (elCtor el)).
  { rewrite Hks. apply elem_of_app. right. apply elem_of_cons. by left. }
  assert (p ∉ k2) as Hpk2.
  { rewrite Hks in Hnd.
    apply NoDup_app in Hnd as (_ & _ & Hnd2).
    by apply NoDup_cons in Hnd2 as [? _]. }
  exists w1, w2. rewrite dispatch_local by done.
  set (M := λ l : LocalListener, elId (llEl l) = elId el ∧ llChangeEvent l = ce).
  set (w0 := log (Dispatched (TElement (elId el)) ce d) w2).
  assert (Hfilter : filter M (localListeners w2)
                    = (filter M (localListeners w) ++ filter M (mk <$> k1))
                      ++ mk p :: filter M (mk <$> k2)).
  { rewrite Hll2, Hll1. fold mk. rewrite Hsplit.
    rewrite fmap_app, fmap_cons, !filter_app.
    rewrite (filter_cons_True M); [by rewrite <- app_assoc|].
    rewrite Hmk. done. }
  rewrite Hfilter.
  destruct (local_fold_last_write
              (filter M (localListeners w) ++ filter M (mk <$> k1))
              (mk p) (filter M (mk <$> k2)) w0 (elId el))
    as (Hroot & delta & Htr & Hrw & Hwe).
  { intros l'. rewrite <- Hfilter. intros [[? _] _]%list_elem_of_filter. done. }
  { intros l' [_ Hin]%list_elem_of_filter.
    apply list_elem_of_fmap in Hin as (q & -> & Hq).
    unfold mk, localListenerOf. cbn.
    intros Heq%statePathOf_inj. by subst q. }
  change (llStatePath (mk p)) with path in Hroot, Hrw.
  change (llPropertyName (mk p)) with p in Hroot, Hrw.
  change (llWindowEventName (mk p)) with (windowEventNameOf path) in Hwe.
  eexists _, (delta ++ [Dispatched (TElement (elId el)) ce d]).
  split; [done|]. split; [done|]. split; [done|]. split.
  { rewrite Hll2, Hll1, <- Hmk. apply elem_of_app. right.
    apply list_elem_of_fmap. exists p. split; [done|]. exact Hpin. }
  split.
  { intros H0. destruct (Hrefs p) as [Hr Hdel]; [exact Hpin|].
    apply Hdel. fold ctor path in Hr. rewrite Hr in H0. by injection H0. }
  split; [reflexivity|]. split.
  { rewrite Htr. by rewrite <- app_assoc. }
  split; [exact Hroot|].
  rewrite rootWrites_app, windowEvents_app.
  split; apply elem_of_app; by left.
Qed.

Lemma C9_listener_survives_detach_witness :
  3 ≤ 3 ∧ DetailNone ≠ DetailSync ∧
  NoDup (keys Widget.init (elCtor Widget.W1)) ∧
  ∃ w1 w2 w3,
    elementConnected 3 Widget.W1 Widget.init = Some w1 ∧
    elementDisconnected Widget.W1 w1 = Some w2 ∧
    (stateRefs w2 !! "Widget.count" = Some (Num 0) →
     rootState w2 !! "Widget.count" = None) ∧
    dispatchEvent 3 (TElement 1) "count-changed" DetailNone w2 = Some w3 ∧
    rootState w3 !! "Widget.count" = Some (getProp w2 Widget.W1 "count").
Proof.
  split; [lia|]. split; [discriminate|].
  assert (HND : NoDup (keys Widget.init (elCtor Widget.W1)))
    by (vm_compute; apply NoDup_singleton).
  split; [exact HND|].
  destruct (C9_listener_survives_detach 3 Widget.W1 Widget.init "count"
              {| changeEvent := Some "count-changed"; statePath := None;
                 windowEventName := None; windowEventHandler := None |}
              DetailNone)
    as (w1 & w2 & w3 & delta & H1 & H2 & _ & _ & H3 & H4 & _ & H5 & _).
  - lia.
  - discriminate.
  - exact HND.
  - reflexivity.
  - exists w1, w2, w3. repeat split; assumption.
Defined.

(** ** Instances with different ids *)

(** C7, as stated, fails in three ways.

    After a refresh under a new id: [W1] attaches with [stateId = "b"], has
    its [stateId] set to ["a"] and refreshes; [W2] attaches with
    [stateId = "b"].  The two are now attached under the distinct non-empty
    ids ["a"] and ["b"], yet a genuine change event on [W1] still runs the
    listener of its first attachment, which writes the path of ["b"] and
    raises its global event: [W2] gets a property write and a sync-tagged
    event.

    With ids that differ as values but not as strings: the number [1] and
    the string ["1"] both resolve to the path ["Widget.count.1"].

    With a property name that contains the separator: for the properties
    ["x"] and ["x.a"] and the ids ["a.b"] and ["b"], the path of [A]'s ["x"]
    is the path of [B]'s ["x.a"], and a change of [A.x] is pulled into
    [B]'s ["x.a"]. *)
Lemma C7_counterexample :
  (w1 ← elementConnected 3 Widget.W1 (Widget.withIds (VStr "b") (VStr "b"));
   w3 ← refreshState 3 Widget.W1 (setProp Widget.W1 "stateId" (VStr "a") w1);
   w4 ← elementConnected 3 Widget.W2 w3;
   w6 ← dispatchChange 3 Widget.W1 "count"
          (setProp Widget.W1 "count" (VNum "6") w4);
   Some (getProp w4 Widget.W1 "stateId", getProp w4 Widget.W2 "stateId",
         propWrites 2 (since w4 w6), elementEvents 2 (since w4 w6),
         getProp w6 Widget.W2 "count"))
  = Some (VStr "a", VStr "b",
          [("count", VNum "6")], [("count-changed", DetailSync)], VNum "6") ∧
  (VNum "1" ≠ VStr "1" ∧
   statePathOf Widget.ctor "count" (stateIdPathOf (VNum "1"))
   = statePathOf Widget.ctor "count" (stateIdPathOf (VStr "1"))) ∧
  (w1 ← elementConnected 3 Dotted.A Dotted.init;
   w2 ← elementConnected 3 Dotted.B w1;
   w3 ← dispatchChange 3 Dotted.A "x" w2;
   Some (propWrites 2 (since w2 w3), elementEvents 2 (since w2 w3)))
  = Some ([("x.a", VNum "7")], [("xa-changed", DetailSync)]).
Proof.
  split; [vm_compute; reflexivity|]. split; [|vm_compute; reflexivity].
  split; [discriminate|vm_compute; reflexivity].
Qed.

(** C7, amended: two instances [A] and [B] of one type, neither carrying a
    listener of an earlier attachment, attach with truthy [stateId] values
    whose string forms differ; the declared property names contain no
    ["."].  Then no state path of [A] equals a state path of [B], and a
    genuine change event fired on either instance returns and causes no
    property write and no event on the other, whose properties stay as they
    were. *)
Theorem C7_distinct_ids_isolated (fuel : nat) (w0 : World) (A B : DataElement) :
  3 ≤ fuel →
  elCtor A = elCtor B →
  let ctor := elCtor A in
  let idA := getProp w0 A (stateIdProperty ctor) in
  let idB := getProp w0 B (stateIdProperty ctor) in
  truthy idA = true → truthy idB = true → toStr idA ≠ toStr idB →
  NoDup (keys w0 ctor) →
  (∀ p, p ∈ keys w0 ctor → dotFree p = true) →
  (∀ l, l ∈ localListeners w0 →
     elId (llEl l) ≠ elId A ∧ elId (llEl l) ≠ elId B) →
  (∀ h, h ∈ windowListeners w0 →
     elId (wlEl h) ≠ elId A ∧ elId (wlEl h) ≠ elId B) →
  ∃ w1 w2,
    elementConnected fuel A w0 = Some w1 ∧
    elementConnected fuel B w1 = Some w2 ∧
    (∀ p q, p ∈ keys w0 ctor → q ∈ keys w0 ctor →
       statePathOf ctor p (stateIdPathOf idA)
       ≠ statePathOf ctor q (stateIdPathOf idB)) ∧
    ∀ ce d, d ≠ DetailSync →
      (∃ w3 delta,
         dispatchEvent fuel (TElement (elId A)) ce d w2 = Some w3 ∧
         trace w3 = delta ++ trace w2 ∧
         propWrites (elId B) delta = [] ∧
         elementEvents (elId B) delta = [] ∧
         ∀ n, getProp w3 B n = getProp w2 B n) ∧
      (∃ w3 delta,
         dispatchEvent fuel (TElement (elId B)) ce d w2 = Some w3 ∧
         trace w3 = delta ++ trace w2 ∧
         propWrites (elId A) delta = [] ∧
         elementEvents (elId A) delta = [] ∧
         ∀ n, getProp w3 A n = getProp w2 A n).
Proof.
  intros Hfuel Hctor ctor idA idB HtA HtB Hids Hnd Hdot HfreshL HfreshW.
  assert (HAB : elId A ≠ elId B).
  { intros Heq. apply Hids. unfold idA, idB, getProp. by rewrite Heq. }
  set (ks := keys w0 ctor).
  set (PA := λ p, statePathOf ctor p (stateIdPathOf idA)).
  set (PB := λ p, statePathOf ctor p (stateIdPathOf idB)).
  assert (Hpaths : ∀ p q, p ∈ ks → q ∈ ks → PA p ≠ PB q).
  { intros p q Hp Hq. apply statePathOf_ids_differ; auto. }
  destruct fuel as [|fuel]; [lia|].
  destruct (attach_listeners ks (stateIdPathOf idA) Hnd fuel A w0)
    as (w1 & Hrun1 & Hks1 & Hll1 & Hprops1 & Hwl1 & _); [done..|].
  destruct (attach_listeners ks (stateIdPathOf idB) Hnd fuel B w1)
    as (w2 & Hrun2 & Hks2 & Hll2 & Hprops2 & Hwl2 & _).
  { rewrite <- Hctor. fold ctor. unfold getProp.
    rewrite Hprops1 by auto. done. }
  { by rewrite <- Hctor. }
  rewrite <- Hctor in Hwl2. fold ctor in Hwl1, Hwl2.
  (* local listeners of the final world, by origin *)
  assert (HL : ∀ l, l ∈ localListeners w2 →
            l ∈ localListeners w0 ∨
            (llEl l = A ∧ ∃ q, q ∈ ks ∧ llWindowEventName l
                                        = windowEventNameOf (PA q)) ∨
            (llEl l = B ∧ ∃ q, q ∈ ks ∧ llWindowEventName l
                                        = windowEventNameOf (PB q))).
  { intros l. rewrite Hll2, Hll1, !elem_of_app.
    intros [[?|Hin]|Hin]; [by left| |].
    - right. left. apply list_elem_of_fmap in Hin as (q & -> & Hq).
      split; [done|]. exists q. done.
    - right. right. apply list_elem_of_fmap in Hin as (q & -> & Hq).
      split; [done|]. exists q. split; [done|].
      unfold localListenerOf. cbn. by rewrite <- Hctor. }
  assert (HW : ∀ h, h ∈ windowListeners w2 →
            h ∈ windowListeners w0 ∨
            (wlEl h = A ∧ ∃ q, q ∈ ks ∧ wlWindowEventName h
                                        = windowEventNameOf (PA q)) ∨
            (wlEl h = B ∧ ∃ q, q ∈ ks ∧ wlWindowEventName h
                                        = windowEventNameOf (PB q))).
  { intros h Hh. destruct (Hwl2 h Hh) as [Hh1|?]; [|by right; right].
    destruct (Hwl1 h Hh1) as [?|?]; [by left|by right; left]. }
  exists w1, w2. split; [done|]. split; [done|]. split; [exact Hpaths|].
  intros ce d Hd. split.
  - destruct (fire_isolated (S fuel) w2 A (elId B) ce d)
      as (w3 & delta & Hrun & Htr & Hpw & Hev & Hprops); try done.
    { intros l h Hl HlA Hh Hname.
      destruct (HL l Hl) as [Hold|[[_ (q & Hq & Hwn)]|[HlB _]]].
      - destruct (HfreshL l Hold) as [? _]. done.
      - destruct (HW h Hh) as [Hold|[[-> _]|[_ (q' & Hq' & Hwn')]]].
        + by destruct (HfreshW h Hold) as [_ ?].
        + done.
        + rewrite Hwn, Hwn' in Hname.
          apply windowEventNameOf_inj in Hname.
          by destruct (Hpaths q q' Hq Hq').
      - rewrite HlB in HlA. done. }
    exists w3, delta. repeat (split; [done|]).
    intros n. unfold getProp. by rewrite Hprops.
  - destruct (fire_isolated (S fuel) w2 B (elId A) ce d)
      as (w3 & delta & Hrun & Htr & Hpw & Hev & Hprops); try done.
    { intros l h Hl HlB Hh Hname.
      destruct (HL l Hl) as [Hold|[[HlA _]|[_ (q & Hq & Hwn)]]].
      - destruct (HfreshL l Hold) as [_ ?]. done.
      - rewrite HlA in HlB. done.
      - destruct (HW h Hh) as [Hold|[[_ (q' & Hq' & Hwn')]|[-> _]]].
        + by destruct (HfreshW h Hold) as [? _].
        + rewrite Hwn, Hwn' in Hname.
          apply windowEventNameOf_inj in Hname.
          by destruct (Hpaths q' q Hq' Hq).
        + done. }
    exists w3, delta. repeat (split; [done|]).
    intros n. unfold getProp. by rewrite Hprops.
Qed.

Lemma C7_distinct_ids_isolated_witness :
  3 ≤ 3 ∧
  elCtor Widget.W1 = elCtor Widget.W2 ∧
  truthy (VStr "a") = true ∧ truthy (VStr "b") = true ∧
  toStr (VStr "a") ≠ toStr (VStr "b") ∧
  ∃ w1 w2 w3 delta,
    elementConnected 3 Widget.W1 (Widget.withIds (VStr "a") (VStr "b"))
    = Some w1 ∧
    elementConnected 3 Widget.W2 w1 = Some w2 ∧
    dispatchEvent 3 (TElement (elId Widget.W1)) "count-changed" DetailNone w2
    = Some w3 ∧
    trace w3 = delta ++ trace w2 ∧
    propWrites (elId Widget.W2) delta = [] ∧
    elementEvents (elId Widget.W2) delta = [].
Proof.
  split; [lia|]. split; [reflexivity|]. split; [reflexivity|].
  split; [reflexivity|]. split; [discriminate|].
  destruct (C7_distinct_ids_isolated 3 (Widget.withIds (VStr "a") (VStr "b"))
              Widget.W1 Widget.W2)
    as (w1 & w2 & H1 & H2 & _ & Hfire).
  - lia.
  - reflexivity.
  - reflexivity.
  - reflexivity.
  - vm_compute. discriminate.
  - vm_compute. apply NoDup_singleton.
  - intros p Hp. vm_compute in Hp.
    apply list_elem_of_singleton in Hp as ->. reflexivity.
  - intros l Hl. vm_compute in Hl. by apply elem_of_nil in Hl.
  - intros h Hh. vm_compute in Hh. by apply elem_of_nil in Hh.
  - destruct (Hfire "count-changed" DetailNone)
      as [(w3 & delta & H3 & H4 & H5 & H6 & _) _]; [discriminate|].
    exists w1, w2, w3, delta. repeat split; assumption.
Defined.

(** ** Detach with two instances of one type *)

(** C5 fails on the code.  [W1] and [W2], same type and same path, attach in
    this order.  Detaching [W1] removes the handler the class record holds,
    which is [W2]'s (handler 1), and leaves [W1]'s own (handler 0)
    registered; detaching [W2] then finds [windowEventName] and
    [windowEventHandler] deleted and removes nothing, so [W1]'s handler
    stays for good.  With distinct ids ["a"] and ["b"], detaching [W1]
    decrements the count of [W2]'s path ["Widget.count.b"] and leaves the
    count of its own path at 1. *)
Lemma C5_detach_uses_latest_resolution :
  (w ← run 3 [Attach Widget.W1; Attach Widget.W2; Detach Widget.W1]
         Widget.init;
   Some ((λ h, (wlHandler h, elId (wlEl h))) <$> windowListeners w))
  = Some [(0, 1)] ∧
  (w ← run 3 [Attach Widget.W1; Attach Widget.W2; Detach Widget.W1;
              Detach Widget.W2] Widget.init;
   Some ((λ h, (wlHandler h, elId (wlEl h))) <$> windowListeners w))
  = Some [(0, 1)] ∧
  (w ← run 3 [Attach Widget.W1; Attach Widget.W2; Detach Widget.W1]
         (Widget.withIds (VStr "a") (VStr "b"));
   Some (stateRefs w !! "Widget.count.a", stateRefs w !! "Widget.count.b"))
  = Some (Some (Num 1), Some (Num 0)).
Proof. repeat split; vm_compute; reflexivity. Qed.

(** * Further properties of the code *)

(** ** What a whole attach does to the store, the counts and the element *)

Section AttachStore.
Variable ks : list string.
Variable sid : string.
Hypothesis ks_nodup : NoDup ks.

Lemma attach_store fuel e w :
  let ctor := elCtor e in
  let P p := statePathOf ctor p sid in
  stateIdPathOf (getProp w e (stateIdProperty ctor)) = sid →
  keys w ctor = ks →
  ∃ w',
    elementConnected (S fuel) e w = Some w' ∧
    (∀ k, (∀ p, p ∈ ks → k ≠ P p) →
       stateRefs w' !! k = stateRefs w !! k ∧
       rootState w' !! k = rootState w !! k) ∧
    (∀ i n, i ≠ elId e ∨ n ∉ ks →
       elementProps w' !! (i, n) = elementProps w !! (i, n)) ∧
    ∀ p, p ∈ ks →
      stateRefs w' !! P p = Some (refIncr (stateRefs w !! P p)) ∧
      (RootState_get w (P p) = VNull →
         rootState w' !! P p = Some (getProp w e p) ∧
         elementProps w' !! (elId e, p) = elementProps w !! (elId e, p)) ∧
      (RootState_get w (P p) ≠ VNull →
         rootState w' !! P p = rootState w !! P p ∧
         elementProps w' !! (elId e, p) = Some (RootState_get w (P p))).
Proof.
  intros ctor P Hsid Hks.
  pose proof (elementConnected_loop e fuel w) as Hloop.
  cbv zeta in Hloop. fold ctor in Hloop. rewrite Hsid, Hks in Hloop.
  destruct (Hloop
    (λ r w',
       NoDup r ∧
       (∀ k, (∀ p, p ∈ ks → k ≠ P p) →
          stateRefs w' !! k = stateRefs w !! k ∧
          rootState w' !! k = rootState w !! k) ∧
       (∀ i n, i ≠ elId e ∨ n ∉ ks →
          elementProps w' !! (i, n) = elementProps w !! (i, n)) ∧
       ∀ p, p ∈ ks →
         (p ∈ r →
            stateRefs w' !! P p = stateRefs w !! P p ∧
            rootState w' !! P p = rootState w !! P p ∧
            elementProps w' !! (elId e, p) = elementProps w !! (elId e, p)) ∧
         (p ∉ r →
            stateRefs w' !! P p = Some (refIncr (stateRefs w !! P p)) ∧
            (RootState_get w (P p) = VNull →
               rootState w' !! P p = Some (getProp w e p) ∧
               elementProps w' !! (elId e, p)
               = elementProps w !! (elId e, p)) ∧
            (RootState_get w (P p) ≠ VNull →
               rootState w' !! P p = rootState w !! P p ∧
               elementProps w' !! (elId e, p)
               = Some (RootState_get w (P p))))))
    as (w' & Hrun & _ & _ & Hframe & Hprops & HQ).
  - intros x r w1 dp Hks1 Hdp (Hnd & Hframe & Hprops & HQ).
    assert (x ∈ ks) as Hx.
    { rewrite <- Hks1. apply alist_lookup_is_Some. eauto. }
    apply NoDup_cons in Hnd as [Hxr Hnd].
    destruct (HQ x Hx) as [Hxin _].
    destruct Hxin as (HxS & HxR & HxE); [apply elem_of_cons; by left|].
    assert (Hget : RootState_get w1 (P x) = RootState_get w (P x)).
    { unfold RootState_get. by rewrite HxR. }
    assert (Hval : getProp w1 e x = getProp w e x).
    { unfold getProp. by rewrite HxE. }
    unfold connectedProperty. fold ctor. fold (P x).
    cbn [stateRefs rootState elementProps]. rewrite Hget, Hval, HxS.
    split; [done|]. split.
    { intros k Hk. destruct (Hframe k Hk) as [<- <-].
      assert (P x ≠ k) as Hne by (intros <-; by apply (Hk x)).
      rewrite lookup_insert_ne by done. split; [done|].
      case_bool_decide; [by rewrite lookup_insert_ne|done]. }
    split.
    { intros i n Hin. rewrite <- Hprops by done.
      case_bool_decide; [done|]. rewrite lookup_insert_ne; [done|].
      intros [= <- <-]. destruct Hin; done. }
    intros p Hp. destruct (HQ p Hp) as [Hin Hout].
    destruct (decide (p = x)) as [->|Hne].
    + split; [done|]. intros _. rewrite lookup_insert_eq. split; [done|].
      split; intros Hnull.
      * rewrite bool_decide_eq_true_2 by done.
        by rewrite lookup_insert_eq.
      * rewrite bool_decide_eq_false_2 by done.
        by rewrite lookup_insert_eq.
    + assert (P x ≠ P p) as HP.
      { intros HPP. apply statePathOf_inj in HPP. done. }
      assert (Hroot : ∀ (R : gmap string value) v,
        (if bool_decide (RootState_get w (P x) = VNull)
         then <[P x := v]> R else R) !! P p = R !! P p).
      { intros R v. case_bool_decide; [by rewrite lookup_insert_ne|done]. }
      assert (Helem : ∀ (E : gmap (nat * string) value) v,
        (if bool_decide (RootState_get w (P x) = VNull)
         then E else <[(elId e, x) := v]> E) !! (elId e, p)
        = E !! (elId e, p)).
      { intros E v. case_bool_decide; [done|].
        rewrite lookup_insert_ne; [done|]. intros [= ?]. done. }
      rewrite lookup_insert_ne, Hroot, Helem by done. split.
      * intros Hpr. apply Hin. apply elem_of_cons. by right.
      * intros Hpr. apply Hout. intros [?|?]%elem_of_cons; done.
  - split; [done|]. split; [done|]. split; [done|].
    intros p Hp. split; [done|]. intros Hnot. done.
  - exists (log (MiddlewareRun true (elId e)) w').
    split; [done|]. split; [exact Hframe|]. split; [exact Hprops|].
    intros p Hp. apply (HQ p Hp). apply not_elem_of_nil.
Qed.
End AttachStore.

(** ** What a whole attach registers and records *)

Section AttachTables.
Variable ks : list string.
Variable sid : string.
Hypothesis ks_nodup : NoDup ks.

Lemma attach_tables fuel e w :
  let ctor := elCtor e in
  stateIdPathOf (getProp w e (stateIdProperty ctor)) = sid →
  keys w ctor = ks →
  ∃ w',
    elementConnected (S fuel) e w = Some w' ∧
    keys w' ctor = ks ∧
    (∀ i p, ks !! i = Some p →
       alist_lookup p (getDataProperties w' ctor)
       = Some (resolvedRecord w e sid (nextHandler w + i) p)) ∧
    (∀ c, ctorId c ≠ ctorId ctor →
       dataProperties w' !! ctorId c = dataProperties w !! ctorId c) ∧
    localListeners w' = localListeners w ++ (localListenerOf w e sid <$> ks) ∧
    windowListeners w'
    = windowListeners w
      ++ imap (λ i p, windowListenerOf w e sid (nextHandler w + i) p) ks ∧
    nextHandler w' = nextHandler w + length ks.
Proof.
  intros ctor Hsid Hks.
  pose proof (elementConnected_loop e fuel w) as Hloop.
  cbv zeta in Hloop. fold ctor in Hloop. rewrite Hsid, Hks in Hloop.
  destruct (Hloop
    (λ r w',
       ∃ visited, ks = visited ++ r ∧
         (∀ q, q ∈ r →
            alist_lookup q (getDataProperties w' ctor)
            = alist_lookup q (getDataProperties w ctor)) ∧
         (∀ i p, visited !! i = Some p →
            alist_lookup p (getDataProperties w' ctor)
            = Some (resolvedRecord w e sid (nextHandler w + i) p)) ∧
         (∀ c, ctorId c ≠ ctorId ctor →
            dataProperties w' !! ctorId c = dataProperties w !! ctorId c) ∧
         localListeners w'
         = localListeners w ++ (localListenerOf w e sid <$> visited) ∧
         windowListeners w'
         = windowListeners w
           ++ imap (λ i p, windowListenerOf w e sid (nextHandler w + i) p)
                visited ∧
         nextHandler w' = nextHandler w + length visited))
    as (w' & Hrun & Hks' & visited & Hv & _ & Hrec & Hother & Hll & Hwl & Hnext).
  - intros x r w1 dp Hks1 Hdp
      (visited & Hv & Hsame & Hrec & Hother & Hll & Hwl & Hnext).
    assert (Hnd : NoDup (visited ++ x :: r)) by (by rewrite <- Hv).
    apply NoDup_app in Hnd as (_ & Hdisj & Hnd).
    apply NoDup_cons in Hnd as [Hxr _].
    assert (Hdpx : alist_lookup x (getDataProperties w ctor) = Some dp).
    { rewrite <- Hsame; [done|]. apply elem_of_cons. by left. }
    assert (Hce : changeEventOf dp x = llChangeEvent (localListenerOf w e sid x)).
    { unfold localListenerOf. cbn. fold ctor. by rewrite Hdpx. }
    exists (visited ++ [x]). split; [by rewrite <- app_assoc|]. split.
    { intros q Hq. rewrite getDataProperties_connected.
      rewrite alist_lookup_set_ne by (intros ->; done).
      apply Hsame. apply elem_of_cons. by right. }
    split.
    { intros i p Hi. rewrite getDataProperties_connected.
      apply lookup_app_Some in Hi as [Hi|[Hlen Hi]].
      - rewrite alist_lookup_set_ne; [by apply Hrec|].
        intros Heq. apply (Hdisj p); [by eapply list_elem_of_lookup_2|].
        rewrite <- Heq. apply elem_of_cons. by left.
      - apply list_lookup_singleton_Some in Hi as [Hi ->].
        rewrite alist_lookup_set_eq. unfold resolvedRecord.
        rewrite Hce, Hnext. do 3 f_equal. lia. }
    split.
    { intros c Hc. cbn [dataProperties connectedProperty].
      rewrite lookup_insert_ne by (fold ctor; congruence). by apply Hother. }
    split.
    { cbn [localListeners connectedProperty]. rewrite Hll, fmap_app.
      rewrite <- app_assoc. do 2 f_equal. cbn. unfold localListenerOf.
      fold ctor. by rewrite Hdpx. }
    split.
    { cbn [windowListeners connectedProperty].
      rewrite Hwl, imap_app, <- app_assoc. do 2 f_equal. cbn.
      unfold windowListenerOf. rewrite Hce, Hnext. do 2 f_equal. lia. }
    cbn [nextHandler connectedProperty]. rewrite Hnext, length_app. cbn. lia.
  - exists []. repeat split; try done; cbn; rewrite ?app_nil_r; try done; lia.
  - rewrite app_nil_r in Hv. subst visited.
    exists (log (MiddlewareRun true (elId e)) w'). done.
Qed.
End AttachTables.

(** ** What a whole detach does *)

Section DetachTables.
Variable ks : list string.
Hypothesis ks_nodup : NoDup ks.

Lemma detach_tables e w :
  let ctor := elCtor e in
  keys w ctor = ks →
  ∃ w',
    elementDisconnected e w = Some w' ∧
    keys w' ctor = ks ∧
    (∀ p, p ∈ ks →
       alist_lookup p (getDataProperties w' ctor)
       = Some (clearedRecord (recordOf w ctor p))) ∧
    (∀ c, ctorId c ≠ ctorId ctor →
       dataProperties w' !! ctorId c = dataProperties w !! ctorId c) ∧
    localListeners w' = localListeners w ∧
    elementProps w' = elementProps w ∧
    nextHandler w' = nextHandler w ∧
    windowListeners w'
    = fold_left (λ hs p, removeRecorded (recordOf w ctor p) hs) ks
        (windowListeners w).
Proof.
  intros ctor Hks.
  pose proof (elementDisconnected_loop e w) as Hloop.
  cbv zeta in Hloop. fold ctor in Hloop. rewrite Hks in Hloop.
  destruct (Hloop
    (λ r w',
       ∃ visited, ks = visited ++ r ∧
         (∀ q, q ∈ r →
            alist_lookup q (getDataProperties w' ctor)
            = alist_lookup q (getDataProperties w ctor)) ∧
         (∀ p, p ∈ visited →
            alist_lookup p (getDataProperties w' ctor)
            = Some (clearedRecord (recordOf w ctor p))) ∧
         (∀ c, ctorId c ≠ ctorId ctor →
            dataProperties w' !! ctorId c = dataProperties w !! ctorId c) ∧
         localListeners w' = localListeners w ∧
         elementProps w' = elementProps w ∧
         nextHandler w' = nextHandler w ∧
         windowListeners w'
         = fold_left (λ hs p, removeRecorded (recordOf w ctor p) hs) visited
             (windowListeners w)))
    as (w' & Hrun & Hks' & visited & Hv & _ & Hrec & Hother & Hll & Hep
        & Hnext & Hwl).
  - intros x r w1 dp Hks1 Hdp
      (visited & Hv & Hsame & Hrec & Hother & Hll & Hep & Hnext & Hwl).
    assert (Hnd : NoDup (visited ++ x :: r)) by (by rewrite <- Hv).
    apply NoDup_app in Hnd as (_ & Hdisj & Hnd).
    apply NoDup_cons in Hnd as [Hxr _].
    assert (Hdpx : recordOf w ctor x = dp).
    { unfold recordOf. rewrite <- Hsame by (apply elem_of_cons; by left).
      by rewrite Hdp. }
    exists (visited ++ [x]). split; [by rewrite <- app_assoc|]. split.
    { intros q Hq. rewrite getDataProperties_disconnected.
      rewrite alist_lookup_set_ne by (intros ->; done).
      apply Hsame. apply elem_of_cons. by right. }
    split.
    { intros p Hp. rewrite getDataProperties_disconnected.
      apply elem_of_app in Hp as [Hp|Hp].
      - rewrite alist_lookup_set_ne; [by apply Hrec|].
        intros Heq. apply (Hdisj p); [done|].
        rewrite <- Heq. apply elem_of_cons. by left.
      - apply list_elem_of_singleton in Hp as ->.
        by rewrite alist_lookup_set_eq, Hdpx. }
    split.
    { intros c Hc. cbn [dataProperties disconnectedProperty].
      rewrite lookup_insert_ne by (fold ctor; congruence). by apply Hother. }
    repeat (split; [done|]).
    cbn [windowListeners disconnectedProperty].
    rewrite fold_left_app. cbn [fold_left]. rewrite <- Hwl, Hdpx. done.
  - exists []. repeat split; try done. intros p Hp. by apply elem_of_nil in Hp.
  - rewrite app_nil_r in Hv. subst visited.
    exists (log (MiddlewareRun false (elId e)) w'). done.
Qed.
End DetachTables.

Section DetachStore.
Variable ks : list string.
Variable sid : string.
Hypothesis ks_nodup : NoDup ks.

Lemma detach_store e w :
  let ctor := elCtor e in
  let P p := statePathOf ctor p sid in
  keys w ctor = ks →
  (∀ p, p ∈ ks → resolvedAt ctor sid w p) →
  ∃ w',
    elementDisconnected e w = Some w' ∧
    (∀ k, (∀ p, p ∈ ks → k ≠ P p) →
       stateRefs w' !! k = stateRefs w !! k ∧
       rootState w' !! k = rootState w !! k) ∧
    ∀ p, p ∈ ks →
      resolvedAt ctor sid w' p ∧
      stateRefs w' !! P p = Some (refDecr (stateRefs w !! P p)) ∧
      rootState w' !! P p
      = (if bool_decide (refDecr (stateRefs w !! P p) = Num 0)
         then None else rootState w !! P p).
Proof.
  intros ctor P Hks Hres.
  pose proof (elementDisconnected_loop e w) as Hloop.
  cbv zeta in Hloop. fold ctor in Hloop. rewrite Hks in Hloop.
  destruct (Hloop
    (λ r w',
       NoDup r ∧
       (∀ k, (∀ p, p ∈ ks → k ≠ P p) →
          stateRefs w' !! k = stateRefs w !! k ∧
          rootState w' !! k = rootState w !! k) ∧
       ∀ p, p ∈ ks →
         resolvedAt ctor sid w' p ∧
         (p ∈ r →
            stateRefs w' !! P p = stateRefs w !! P p ∧
            rootState w' !! P p = rootState w !! P p) ∧
         (p ∉ r →
            stateRefs w' !! P p = Some (refDecr (stateRefs w !! P p)) ∧
            rootState w' !! P p
            = (if bool_decide (refDecr (stateRefs w !! P p) = Num 0)
               then None else rootState w !! P p))))
    as (w' & Hrun & _ & _ & Hframe & HQ).
  - intros x r w1 dp Hks1 Hdp (Hnd & Hframe & HQ).
    assert (x ∈ ks) as Hx.
    { rewrite <- Hks1. apply alist_lookup_is_Some. eauto. }
    apply NoDup_cons in Hnd as [Hxr Hnd].
    destruct (HQ x Hx) as ((dpx & Hdpx & Hsx) & Hxin & _).
    rewrite Hdp in Hdpx. injection Hdpx as <-.
    destruct Hxin as [HxS HxR]; [apply elem_of_cons; by left|].
    assert (Hres' : ∀ p, p ∈ ks →
              resolvedAt ctor sid (disconnectedProperty e x dp w1) p).
    { intros p Hp. destruct (HQ p Hp) as ((dp' & Hl & Hs) & _).
      unfold resolvedAt. rewrite getDataProperties_disconnected.
      destruct (decide (p = x)) as [->|Hne].
      - exists (clearedRecord dp). by rewrite alist_lookup_set_eq.
      - exists dp'. by rewrite alist_lookup_set_ne. }
    set (wd := disconnectedProperty e x dp w1) in *.
    assert (HS : stateRefs wd
                 = <[P x := refDecr (stateRefs w !! P x)]> (stateRefs w1)).
    { unfold wd, disconnectedProperty. fold ctor. rewrite Hsx.
      cbn [asString default from_option id stateRefs]. fold (P x).
      by rewrite HxS. }
    assert (HR : rootState wd
                 = if bool_decide (refDecr (stateRefs w !! P x) = Num 0)
                   then delete (P x) (rootState w1) else rootState w1).
    { unfold wd, disconnectedProperty. fold ctor. rewrite Hsx.
      cbn [asString default from_option id rootState]. fold (P x).
      by rewrite HxS. }
    clearbody wd. rewrite HS, HR. clear HS HR.
    split; [done|]. split.
    { intros k Hk. destruct (Hframe k Hk) as [<- <-].
      assert (P x ≠ k) as Hne by (intros <-; by apply (Hk x)).
      rewrite lookup_insert_ne by done. split; [done|].
      destruct (bool_decide (refDecr (stateRefs w !! P x) = Num 0));
        [by rewrite lookup_delete_ne|done]. }
    intros p Hp. destruct (HQ p Hp) as ((dp' & Hl & Hs) & Hin & Hout).
    destruct (decide (p = x)) as [->|Hne].
    + split; [by apply Hres'|].
      split; [done|]. intros _. rewrite lookup_insert_eq. split; [done|].
      destruct (bool_decide (refDecr (stateRefs w !! P x) = Num 0));
        [by rewrite lookup_delete_eq|done].
    + assert (P x ≠ P p) as HP.
      { intros HPP. apply statePathOf_inj in HPP. done. }
      split; [by apply Hres'|].
      assert (Hroot : ∀ R : gmap string value,
        (if bool_decide (refDecr (stateRefs w !! P x) = Num 0)
         then delete (P x) R else R) !! P p = R !! P p).
      { intros R. destruct (bool_decide (refDecr (stateRefs w !! P x) = Num 0));
        [by rewrite lookup_delete_ne|done]. }
      rewrite lookup_insert_ne, Hroot by done. split.
      * intros Hpr. apply Hin. apply elem_of_cons. by right.
      * intros Hpr. apply Hout. intros [?|?]%elem_of_cons; done.
  - split; [done|]. split; [done|].
    intros p Hp. split; [by apply Hres|]. split; [done|]. intros Hnot. done.
  - exists (log (MiddlewareRun false (elId e)) w').
    split; [done|]. split; [exact Hframe|].
    intros p Hp. destruct (HQ p Hp) as (? & _ & Hout). split; [done|].
    apply Hout, not_elem_of_nil.
Qed.
End DetachStore.

(** ** Attach and detach, all effects together *)

Lemma resolvedRecord_resolved w e sid id p dp :
  dp = resolvedRecord w e sid id p →
  statePath dp = Some (statePathOf (elCtor e) p sid).
Proof. by intros ->. Qed.

Section Whole.
Variable ks : list string.
Variable sid : string.
Hypothesis ks_nodup : NoDup ks.

(** Everything attach does, for an element whose id suffix is [sid] and
    whose class declares [ks]. *)
Lemma attach_all fuel e w :
  let ctor := elCtor e in
  let P p := statePathOf ctor p sid in
  stateIdPathOf (getProp w e (stateIdProperty ctor)) = sid →
  keys w ctor = ks →
  ∃ w',
    elementConnected (S fuel) e w = Some w' ∧
    keys w' ctor = ks ∧
    (∀ i p, ks !! i = Some p →
       alist_lookup p (getDataProperties w' ctor)
       = Some (resolvedRecord w e sid (nextHandler w + i) p)) ∧
    (∀ p, p ∈ ks → resolvedAt ctor sid w' p) ∧
    localListeners w' = localListeners w ++ (localListenerOf w e sid <$> ks) ∧
    windowListeners w'
    = windowListeners w
      ++ imap (λ i p, windowListenerOf w e sid (nextHandler w + i) p) ks ∧
    nextHandler w' = nextHandler w + length ks ∧
    (∀ k, (∀ p, p ∈ ks → k ≠ P p) →
       stateRefs w' !! k = stateRefs w !! k ∧
       rootState w' !! k = rootState w !! k) ∧
    (∀ i n, i ≠ elId e ∨ n ∉ ks →
       elementProps w' !! (i, n) = elementProps w !! (i, n)) ∧
    ∀ p, p ∈ ks →
      stateRefs w' !! P p = Some (refIncr (stateRefs w !! P p)) ∧
      (RootState_get w (P p) = VNull →
         rootState w' !! P p = Some (getProp w e p) ∧
         elementProps w' !! (elId e, p) = elementProps w !! (elId e, p)) ∧
      (RootState_get w (P p) ≠ VNull →
         rootState w' !! P p = rootState w !! P p ∧
         elementProps w' !! (elId e, p) = Some (RootState_get w (P p))).
Proof.
  intros ctor P Hsid Hks.
  destruct (attach_tables ks sid ks_nodup fuel e w Hsid Hks)
    as (w' & Hrun & Hks' & Hrec & _ & Hll & Hwl & Hnext).
  destruct (attach_store ks sid ks_nodup fuel e w Hsid Hks)
    as (w'' & Hrun' & Hframe & Hprops & Hstore).
  rewrite Hrun in Hrun'. injection Hrun' as <-.
  exists w'. repeat (split; [done|]). split; [|done].
  intros p Hp. apply list_elem_of_lookup in Hp as [i Hi].
  eexists. split; [by apply Hrec|]. done.
Qed.

(** Everything detach does, for a class whose records point at the paths
    of [sid]. *)
Lemma detach_all e w :
  let ctor := elCtor e in
  let P p := statePathOf ctor p sid in
  keys w ctor = ks →
  (∀ p, p ∈ ks → resolvedAt ctor sid w p) →
  ∃ w',
    elementDisconnected e w = Some w' ∧
    keys w' ctor = ks ∧
    (∀ p, p ∈ ks → resolvedAt ctor sid w' p) ∧
    (∀ p, p ∈ ks →
       alist_lookup p (getDataProperties w' ctor)
       = Some (clearedRecord (recordOf w ctor p))) ∧
    localListeners w' = localListeners w ∧
    elementProps w' = elementProps w ∧
    nextHandler w' = nextHandler w ∧
    windowListeners w'
    = fold_left (λ hs p, removeRecorded (recordOf w ctor p) hs) ks
        (windowListeners w) ∧
    (∀ k, (∀ p, p ∈ ks → k ≠ P p) →
       stateRefs w' !! k = stateRefs w !! k ∧
       rootState w' !! k = rootState w !! k) ∧
    ∀ p, p ∈ ks →
      stateRefs w' !! P p = Some (refDecr (stateRefs w !! P p)) ∧
      rootState w' !! P p
      = (if bool_decide (refDecr (stateRefs w !! P p) = Num 0)
         then None else rootState w !! P p).
Proof.
  intros ctor P Hks Hres.
  destruct (detach_tables ks ks_nodup e w Hks)
    as (w' & Hrun & Hks' & Hrec & _ & Hll & Hep & Hnext & Hwl).
  destruct (detach_store ks sid ks_nodup e w Hks Hres)
    as (w'' & Hrun' & Hframe & Hstore).
  rewrite Hrun in Hrun'. injection Hrun' as <-.
  exists w'. split; [done|]. split; [done|].
  split; [intros p Hp; by apply Hstore|].
  repeat (split; [done|]).
  intros p Hp. by apply Hstore.
Qed.
End Whole.

(** ** Removing what was recorded *)

Lemma removeRecorded_app dp (hs1 hs2 : list WindowListener) :
  removeRecorded dp (hs1 ++ hs2)
  = removeRecorded dp hs1 ++ removeRecorded dp hs2.
Proof.
  unfold removeRecorded. destruct (windowEventHandler dp); [|done].
  apply filter_app.
Qed.

Lemma remove_fold_app (r : string → DataProperty) ks
    (hs1 hs2 : list WindowListener) :
  fold_left (λ hs p, removeRecorded (r p) hs) ks (hs1 ++ hs2)
  = fold_left (λ hs p, removeRecorded (r p) hs) ks hs1
    ++ fold_left (λ hs p, removeRecorded (r p) hs) ks hs2.
Proof.
  revert hs1 hs2. induction ks as [|p ks IH]; intros hs1 hs2; [done|].
  cbn. by rewrite removeRecorded_app, IH.
Qed.

Lemma filter_all {A} (P : A → Prop) `{∀ x, Decision (P x)} (l : list A) :
  (∀ x, x ∈ l → P x) → filter P l = l.
Proof.
  induction l as [|x l IH]; intros HP; [done|].
  rewrite filter_cons_True by (apply HP, elem_of_cons; by left).
  f_equal. apply IH. intros y Hy. apply HP, elem_of_cons. by right.
Qed.

(** Handlers whose identity no record names stay registered. *)
Lemma remove_fold_keeps (r : string → DataProperty) ks
    (hs : list WindowListener) :
  (∀ h p id, h ∈ hs → p ∈ ks → windowEventHandler (r p) = Some id →
     wlHandler h ≠ id) →
  fold_left (λ hs p, removeRecorded (r p) hs) ks hs = hs.
Proof.
  induction ks as [|p ks IH]; intros Hkeep; [done|]. cbn.
  assert (removeRecorded (r p) hs = hs) as ->.
  { unfold removeRecorded.
    destruct (windowEventHandler (r p)) as [id|] eqn:Hid; [|done].
    apply filter_all. intros h Hh [_ Heq].
    apply (Hkeep h p id); [done| |done..]. apply elem_of_cons. by left. }
  apply IH. intros h q id Hh Hq. apply Hkeep; [done|].
  apply elem_of_cons. by right.
Qed.

(** What is left after the removals was there before and is named by no
    record. *)
Lemma remove_fold_elem (r : string → DataProperty) ks
    (hs : list WindowListener) h :
  h ∈ fold_left (λ hs p, removeRecorded (r p) hs) ks hs →
  h ∈ hs ∧
  ∀ p id, p ∈ ks → windowEventHandler (r p) = Some id →
    ¬ (wlWindowEventName h = asString (windowEventName (r p))
       ∧ wlHandler h = id).
Proof.
  revert hs. induction ks as [|p ks IH]; intros hs Hin.
  - split; [done|]. intros p id Hp. by apply elem_of_nil in Hp.
  - cbn in Hin. apply IH in Hin as [Hin Hrest].
    assert (h ∈ hs ∧
            ∀ id, windowEventHandler (r p) = Some id →
              ¬ (wlWindowEventName h = asString (windowEventName (r p))
                 ∧ wlHandler h = id)) as [Hhs Hp].
    { unfold removeRecorded in Hin.
      destruct (windowEventHandler (r p)) as [id|]; [|done].
      apply list_elem_of_filter in Hin as [Hno Hin].
      split; [done|]. by intros ? [= <-]. }
    split; [done|]. intros q id [->|Hq]%elem_of_cons; [apply Hp|].
    by apply Hrest.
Qed.

(** ** Properties *)

(** X1: a whole attach seeds or pulls every declared property on its own.
    For each declared [p]: when RootState has nothing (or [null]) at [p]'s
    path, the entry becomes the element's value of [p] and the element
    keeps it; otherwise the entry is kept and the element's [p] becomes the
    stored value.  Entries at other paths, counts at other paths,
    undeclared properties and the properties of other elements are left as
    they were; each declared path's count goes through the increment
    once. *)
Theorem X1_attach_seeds_or_pulls_every_property (fuel : nat) (el : DataElement)
    (w : World) :
  1 ≤ fuel →
  NoDup (keys w (elCtor el)) →
  let ctor := elCtor el in
  let sid := stateIdPathOf (getProp w el (stateIdProperty ctor)) in
  let P p := statePathOf ctor p sid in
  ∃ w',
    elementConnected fuel el w = Some w' ∧
    (∀ k, (∀ p, p ∈ keys w ctor → k ≠ P p) →
       stateRefs w' !! k = stateRefs w !! k ∧
       rootState w' !! k = rootState w !! k) ∧
    (∀ i n, i ≠ elId el ∨ n ∉ keys w ctor →
       elementProps w' !! (i, n) = elementProps w !! (i, n)) ∧
    ∀ p, p ∈ keys w ctor →
      stateRefs w' !! P p = Some (refIncr (stateRefs w !! P p)) ∧
      (RootState_get w (P p) = VNull →
         rootState w' !! P p = Some (getProp w el p) ∧
         getProp w' el p = getProp w el p) ∧
      (RootState_get w (P p) ≠ VNull →
         rootState w' !! P p = rootState w !! P p ∧
         getProp w' el p = RootState_get w (P p)).
Proof.
  intros Hfuel Hnd ctor sid P. destruct fuel as [|fuel]; [lia|].
  destruct (attach_store (keys w ctor) sid Hnd fuel el w)
    as (w' & Hrun & Hframe & Hprops & Hstore); [done..|].
  exists w'. repeat (split; [done|]).
  intros p Hp. destruct (Hstore p Hp) as (Hc & Hseed & Hpull).
  split; [done|]. split; intros Hnull.
  - destruct (Hseed Hnull) as [? Hel]. split; [done|].
    unfold getProp. by rewrite Hel.
  - destruct (Hpull Hnull) as [? Hel]. split; [done|].
    unfold getProp. by rewrite Hel.
Qed.

Lemma X1_attach_seeds_or_pulls_every_property_witness :
  1 ≤ 1 ∧ NoDup (keys Widget.init (elCtor Widget.W1)) ∧
  ∃ w',
    elementConnected 1 Widget.W1 Widget.init = Some w' ∧
    rootState w' !! "Widget.count" = Some (VNum "5") ∧
    getProp w' Widget.W1 "count" = VNum "5".
Proof.
  split; [lia|].
  assert (HND : NoDup (keys Widget.init (elCtor Widget.W1)))
    by (vm_compute; apply NoDup_singleton).
  split; [exact HND|].
  destruct (X1_attach_seeds_or_pulls_every_property 1 Widget.W1 Widget.init)
    as (w' & Hrun & _ & _ & Hp); [lia|exact HND|].
  exists w'. split; [exact Hrun|].
  destruct (Hp "count") as (_ & Hseed & _).
  { vm_compute. apply elem_of_cons. by left. }
  apply Hseed. reflexivity.
Defined.

(** X2: what the first instance seeds, the second observes.  [A] and [B]
    are two elements of one class with the same id suffix; RootState holds
    nothing (or [null]) at the paths and [A]'s values are not [null].
    After [A] and then [B] attach, for every declared [p] the entry holds
    [A]'s value, [B]'s [p] is [A]'s value, and [A] kept its own. *)
Theorem X2_second_instance_observes_seed (fuel : nat) (w0 : World)
    (A B : DataElement) :
  1 ≤ fuel →
  elCtor A = elCtor B →
  elId A ≠ elId B →
  let ctor := elCtor A in
  let sid := stateIdPathOf (getProp w0 A (stateIdProperty ctor)) in
  let P p := statePathOf ctor p sid in
  stateIdPathOf (getProp w0 B (stateIdProperty ctor)) = sid →
  NoDup (keys w0 ctor) →
  (∀ p, p ∈ keys w0 ctor →
     RootState_get w0 (P p) = VNull ∧ getProp w0 A p ≠ VNull) →
  ∃ w1 w2,
    elementConnected fuel A w0 = Some w1 ∧
    elementConnected fuel B w1 = Some w2 ∧
    ∀ p, p ∈ keys w0 ctor →
      rootState w2 !! P p = Some (getProp w0 A p) ∧
      getProp w2 B p = getProp w0 A p ∧
      getProp w2 A p = getProp w0 A p.
Proof.
  intros Hfuel Hctor HAB ctor sid P HsB Hnd Hinit.
  subst P. cbn beta in *.
  destruct fuel as [|fuel]; [lia|].
  set (ks := keys w0 ctor).
  destruct (attach_all ks sid Hnd fuel A w0)
    as (w1 & Hrun1 & Hks1 & _ & _ & _ & _ & _ & _ & Hprops1 & Hstore1);
    [done..|].
  destruct (attach_all ks sid Hnd fuel B w1)
    as (w2 & Hrun2 & _ & _ & _ & _ & _ & _ & _ & Hprops2 & Hstore2).
  { rewrite <- Hctor. fold ctor. unfold getProp.
    rewrite Hprops1 by (left; congruence). exact HsB. }
  { by rewrite <- Hctor. }
  rewrite <- Hctor in Hstore2. fold ctor in Hstore1, Hstore2.
  exists w1, w2. split; [done|]. split; [done|].
  intros p Hp. destruct (Hinit p Hp) as [Hnull Hval].
  destruct (Hstore1 p Hp) as (_ & Hseed & _).
  destruct (Hseed Hnull) as [HR1 HA1].
  assert (Hget1 : RootState_get w1 (statePathOf ctor p sid) = getProp w0 A p).
  { unfold RootState_get. by rewrite HR1. }
  destruct (Hstore2 p Hp) as (_ & _ & Hpull).
  destruct Hpull as [HR2 HB2]; [by rewrite Hget1|].
  split; [by rewrite HR2|]. split.
  - unfold getProp at 1. by rewrite HB2, Hget1.
  - unfold getProp. rewrite Hprops2 by (left; congruence). by rewrite HA1.
Qed.

Lemma X2_second_instance_observes_seed_witness :
  1 ≤ 1 ∧ elCtor Widget.W1 = elCtor Widget.W2 ∧
  elId Widget.W1 ≠ elId Widget.W2 ∧
  ∃ w1 w2,
    elementConnected 1 Widget.W1 Widget.init = Some w1 ∧
    elementConnected 1 Widget.W2 w1 = Some w2 ∧
    rootState w2 !! "Widget.count" = Some (VNum "5") ∧
    getProp w2 Widget.W2 "count" = VNum "5".
Proof.
  split; [lia|]. split; [reflexivity|]. split; [discriminate|].
  destruct (X2_second_instance_observes_seed 1 Widget.init Widget.W1 Widget.W2)
    as (w1 & w2 & H1 & H2 & Hp).
  - lia.
  - reflexivity.
  - discriminate.
  - reflexivity.
  - vm_compute. apply NoDup_singleton.
  - intros p Hp. vm_compute in Hp.
    apply list_elem_of_singleton in Hp as ->.
    split; [reflexivity|discriminate].
  - exists w1, w2. split; [exact H1|]. split; [exact H2|].
    destruct (Hp "count") as (HR & HB & _).
    { vm_compute. apply elem_of_cons. by left. }
    split; [exact HR|exact HB].
Defined.

Lemma recordOf_lookup w ctor p dp :
  alist_lookup p (getDataProperties w ctor) = Some dp → recordOf w ctor p = dp.
Proof. unfold recordOf. by intros ->. Qed.

Lemma list_no_elements {A} (l : list A) : (∀ x, x ∉ l) → l = [].
Proof.
  destruct l as [|x l]; [done|]. intros H. destruct (H x).
  apply elem_of_cons. by left.
Qed.

(** X3: a detach right after the attach of the same element undoes the
    attach's registrations on [window], and nothing else's: the global
    handlers are again exactly those of before, the class record has its
    [windowEventName] and [windowEventHandler] cleared and keeps the
    resolved path.  The local listeners the attach added stay. *)
Theorem X3_detach_undoes_window_registrations (fuel : nat) (el : DataElement)
    (w : World) :
  1 ≤ fuel →
  NoDup (keys w (elCtor el)) →
  handlersAllocated w →
  let ctor := elCtor el in
  let sid := stateIdPathOf (getProp w el (stateIdProperty ctor)) in
  ∃ w1 w2,
    elementConnected fuel el w = Some w1 ∧
    elementDisconnected el w1 = Some w2 ∧
    length (windowListeners w1)
    = length (windowListeners w) + length (keys w ctor) ∧
    windowListeners w2 = windowListeners w ∧
    handlersAllocated w2 ∧
    localListeners w2
    = localListeners w ++ (localListenerOf w el sid <$> keys w ctor) ∧
    ∀ p, p ∈ keys w ctor →
      ∃ dp,
        alist_lookup p (getDataProperties w2 ctor) = Some dp ∧
        statePath dp = Some (statePathOf ctor p sid) ∧
        windowEventName dp = None ∧ windowEventHandler dp = None.
Proof.
  intros Hfuel Hnd Halloc ctor sid. destruct fuel as [|fuel]; [lia|].
  set (ks := keys w ctor).
  destruct (attach_all ks sid Hnd fuel el w)
    as (w1 & Hrun1 & Hks1 & Hrec1 & Hres1 & Hll1 & Hwl1 & Hnext1 & _);
    [done..|].
  destruct (detach_all ks sid Hnd el w1 Hks1 Hres1)
    as (w2 & Hrun2 & _ & _ & Hrec2 & Hll2 & _ & Hnext2 & Hwl2 & _).
  fold ctor in Hrec1, Hrec2, Hwl2.
  assert (Hr : ∀ i p, ks !! i = Some p →
            recordOf w1 ctor p = resolvedRecord w el sid (nextHandler w + i) p).
  { intros i p Hi. apply recordOf_lookup. by apply Hrec1. }
  assert (Hback : windowListeners w2 = windowListeners w).
  { rewrite Hwl2, Hwl1, remove_fold_app.
    rewrite remove_fold_keeps.
    - rewrite (list_no_elements (fold_left _ ks (imap _ ks)));
        [by rewrite app_nil_r|].
      intros h [Hin Hkeep]%remove_fold_elem.
      apply elem_of_lookup_imap in Hin as (j & q & -> & Hj).
      apply (Hkeep q (nextHandler w + j)).
      + by eapply list_elem_of_lookup_2.
      + by rewrite (Hr j q Hj).
      + by rewrite (Hr j q Hj).
    - intros h p id Hh Hp Hid.
      apply list_elem_of_lookup in Hp as [i Hi].
      rewrite (Hr i p Hi) in Hid. injection Hid as <-.
      specialize (Halloc h Hh). lia. }
  exists w1, w2. split; [done|]. split; [done|]. split.
  { rewrite Hwl1, length_app, length_imap. done. }
  split; [done|]. split.
  { intros h Hh. rewrite Hback in Hh. specialize (Halloc h Hh).
    rewrite Hnext2, Hnext1. lia. }
  split; [by rewrite Hll2, Hll1|].
  intros p Hp. exists (clearedRecord (recordOf w1 ctor p)).
  split; [by apply Hrec2|].
  apply list_elem_of_lookup in Hp as [i Hi]. by rewrite (Hr i p Hi).
Qed.

Lemma X3_detach_undoes_window_registrations_witness :
  1 ≤ 1 ∧ NoDup (keys Widget.both (elCtor Widget.W1)) ∧
  handlersAllocated Widget.both ∧
  ∃ w1 w2,
    elementConnected 1 Widget.W1 Widget.both = Some w1 ∧
    elementDisconnected Widget.W1 w1 = Some w2 ∧
    windowListeners w2 = windowListeners Widget.both.
Proof.
  split; [lia|].
  assert (HND : NoDup (keys Widget.both (elCtor Widget.W1)))
    by (vm_compute; apply NoDup_singleton).
  assert (HA : handlersAllocated Widget.both).
  { intros h Hh. vm_compute in Hh.
    apply elem_of_cons in Hh as [->|Hh]; [vm_compute; lia|].
    apply list_elem_of_singleton in Hh as ->. vm_compute. lia. }
  split; [exact HND|]. split; [exact HA|].
  destruct (X3_detach_undoes_window_registrations 1 Widget.W1 Widget.both)
    as (w1 & w2 & H1 & H2 & _ & H3 & _); [lia|exact HND|exact HA|].
  exists w1, w2. repeat split; assumption.
Defined.

(** X4: the metadata handed to the connected pipeline.  After an attach,
    [getMiddlewareMetaData] names the class and the element, and for every
    declared property its record is fully resolved: it holds the state
    path, the window event name and a handler, and that very handler is
    registered on [window] under that event name for this element, this
    property and this path. *)
Theorem X4_metadata_after_attach (fuel : nat) (el : DataElement) (w : World) :
  1 ≤ fuel →
  NoDup (keys w (elCtor el)) →
  let ctor := elCtor el in
  let sid := stateIdPathOf (getProp w el (stateIdProperty ctor)) in
  ∃ w',
    elementConnected fuel el w = Some w' ∧
    let md := getMiddlewareMetaData w' el in
    MetaData.elementName md = __elementName ctor ∧
    MetaData.element md = el ∧
    (MetaData.dataProperties md).*1 = keys w ctor ∧
    ∀ p, p ∈ keys w ctor →
      let path := statePathOf ctor p sid in
      ∃ dp h l,
        alist_lookup p (MetaData.dataProperties md) = Some dp ∧
        statePath dp = Some path ∧
        windowEventName dp = Some (windowEventNameOf path) ∧
        windowEventHandler dp = Some h ∧
        l ∈ windowListeners w' ∧
        wlHandler l = h ∧
        wlWindowEventName l = windowEventNameOf path ∧
        wlEl l = el ∧ wlPropertyName l = p ∧ wlStatePath l = path.
Proof.
  intros Hfuel Hnd ctor sid. destruct fuel as [|fuel]; [lia|].
  destruct (attach_all (keys w ctor) sid Hnd fuel el w)
    as (w' & Hrun & Hks & Hrec & _ & _ & Hwl & _); [done..|].
  exists w'. split; [done|]. cbn zeta.
  split; [done|]. split; [done|]. split; [exact Hks|].
  intros p Hp. apply list_elem_of_lookup in Hp as [i Hi].
  exists (resolvedRecord w el sid (nextHandler w + i) p), (nextHandler w + i),
    (windowListenerOf w el sid (nextHandler w + i) p).
  split; [by apply Hrec|]. repeat (split; [done|]). split; [|done].
  rewrite Hwl. apply elem_of_app. right.
  by apply (elem_of_lookup_imap_2
              (λ i p, windowListenerOf w el sid (nextHandler w + i) p)).
Qed.

Lemma X4_metadata_after_attach_witness :
  1 ≤ 1 ∧ NoDup (keys Widget.init (elCtor Widget.W1)) ∧
  ∃ w',
    elementConnected 1 Widget.W1 Widget.init = Some w' ∧
    MetaData.elementName (getMiddlewareMetaData w' Widget.W1) = "Widget" ∧
    (MetaData.dataProperties (getMiddlewareMetaData w' Widget.W1)).*1
    = ["count"].
Proof.
  split; [lia|].
  assert (HND : NoDup (keys Widget.init (elCtor Widget.W1)))
    by (vm_compute; apply NoDup_singleton).
  split; [exact HND|].
  destruct (X4_metadata_after_attach 1 Widget.W1 Widget.init)
    as (w' & Hrun & Hname & _ & Hkeys & _); [lia|exact HND|].
  exists w'. split; [exact Hrun|]. split; [exact Hname|exact Hkeys].
Defined.

(** X5: detach only takes away.  It always returns; it never writes
    RootState, never writes a property and never dispatches an event; it
    leaves the element properties, the local listeners and the handler
    counter as they were; the global handlers that remain are a sublist of
    those of before, and the RootState entries that remain were there
    before with the same value. *)
Theorem X5_detach_only_removes (el : DataElement) (w : World) :
  ∃ w' delta,
    elementDisconnected el w = Some w' ∧
    trace w' = delta ++ trace w ∧
    writesOf delta = [] ∧
    elementProps w' = elementProps w ∧
    localListeners w' = localListeners w ∧
    nextHandler w' = nextHandler w ∧
    sublist (windowListeners w') (windowListeners w) ∧
    rootState w' ⊆ rootState w.
Proof.
  destruct (elementDisconnected_loop el w
    (λ r w',
       ∃ delta,
         trace w' = delta ++ trace w ∧ writesOf delta = [] ∧
         elementProps w' = elementProps w ∧
         localListeners w' = localListeners w ∧
         nextHandler w' = nextHandler w ∧
         sublist (windowListeners w') (windowListeners w) ∧
         rootState w' ⊆ rootState w))
    as (w' & Hrun & _ & delta & Htr & Hwr & Hep & Hll & Hnext & Hwl & HR).
  - intros x r w1 dp _ _ (delta & Htr & Hwr & Hep & Hll & Hnext & Hwl & HR).
    unfold disconnectedProperty.
    cbn [trace elementProps localListeners nextHandler windowListeners
         rootState].
    set (wipe := bool_decide _).
    exists ((if wipe then [RootDelete (asString (statePath dp))] else [])
            ++ delta).
    split; [by rewrite Htr, app_assoc|]. split.
    { unfold writesOf in *. rewrite omap_app, Hwr. by destruct wipe. }
    repeat (split; [done|]). split.
    + destruct (windowEventHandler dp); [|done].
      etrans; [apply sublist_filter|done].
    + destruct wipe; [|done]. etrans; [apply delete_subseteq|done].
  - exists []. by repeat split.
  - exists (log (MiddlewareRun false (elId el)) w'),
      (MiddlewareRun false (elId el) :: delta).
    split; [done|]. cbn [trace log]. rewrite Htr. by repeat split.
Qed.

(** ** Dispatch leaves the registrations alone *)

Lemma local_fold_tables ls w w' :
  w' = fold_left (λ w l, localEffect l w) ls w →
  stateRefs w' = stateRefs w ∧
  dataProperties w' = dataProperties w ∧
  localListeners w' = localListeners w ∧
  windowListeners w' = windowListeners w ∧
  nextHandler w' = nextHandler w ∧
  ∀ k, is_Some (rootState w !! k) → is_Some (rootState w' !! k).
Proof.
  intros ->. revert w. induction ls as [|l ls IH]; intros w; [done|].
  cbn [fold_left].
  destruct (IH (localEffect l w)) as (-> & -> & -> & -> & -> & HR).
  destruct (localEffect_frame l w) as (HRl & -> & -> & -> & -> & ->).
  repeat (split; [done|]). intros k Hk. apply HR. rewrite HRl.
  destruct (decide (llStatePath l = k)) as [->|Hne].
  - rewrite lookup_insert_eq. eauto.
  - by rewrite lookup_insert_ne.
Qed.

(** X6: dispatching an event, whatever its target, type and detail, returns
    (three levels of nesting suffice) and changes neither the reference
    counts, nor the class records, nor what is registered on the elements
    and on [window]; no RootState entry disappears; and an event on
    [window] or a sync-tagged event writes nothing to RootState at all. *)
Theorem X6_dispatch_frame (fuel : nat) (tg : Target) (ty : string)
    (d : Detail) (w : World) :
  3 ≤ fuel →
  ∃ w',
    dispatchEvent fuel tg ty d w = Some w' ∧
    stateRefs w' = stateRefs w ∧
    dataProperties w' = dataProperties w ∧
    localListeners w' = localListeners w ∧
    windowListeners w' = windowListeners w ∧
    nextHandler w' = nextHandler w ∧
    (∀ k, is_Some (rootState w !! k) → is_Some (rootState w' !! k)) ∧
    (tg = TWindow ∨ d = DetailSync → rootState w' = rootState w).
Proof.
  intros Hfuel. destruct fuel as [|[|[|fuel]]]; try lia.
  destruct tg as [|e].
  - rewrite dispatch_window. eexists. split; [done|].
    match goal with
    | |- context [fold_left ?f ?hs ?w0] =>
        destruct (window_fold_frame d hs w0) as (HR & -> & -> & -> & -> & ->)
    end.
    repeat (split; [done|]). split; [by rewrite HR|]. intros _. by rewrite HR.
  - destruct (decide (d = DetailSync)) as [->|Hd].
    + rewrite dispatch_sync. eexists. by repeat split.
    + rewrite dispatch_local by done. eexists. split; [done|].
      match goal with
      | |- context [fold_left ?f ?ls ?w0] =>
          destruct (local_fold_tables ls w0 _ eq_refl)
            as (-> & -> & -> & -> & -> & HR)
      end.
      repeat (split; [done|]). intros [[=]|?]; done.
Qed.

Lemma X6_dispatch_frame_witness :
  3 ≤ 3 ∧
  ∃ w',
    dispatchEvent 3 (TElement 1) "count-changed" DetailNone Widget.both
    = Some w' ∧
    stateRefs w' = stateRefs Widget.both ∧
    windowListeners w' = windowListeners Widget.both.
Proof.
  split; [lia|].
  destruct (X6_dispatch_frame 3 (TElement 1) "count-changed" DetailNone
              Widget.both) as (w' & Hrun & HS & _ & _ & HW & _); [lia|].
  exists w'. repeat split; assumption.
Defined.

(** X7: detaching an element of a class whose records were never resolved
    (no instance of it has attached).  The undefined [statePath] is used as
    the key ["undefined"]: the only effect on the counts is that
    [stateRefs["undefined"]] becomes [NaN]; RootState is not touched,
    nothing is deleted, and the records stay unresolved. *)
Theorem X7_detach_before_any_attach (el : DataElement) (w : World) :
  let ctor := elCtor el in
  keys w ctor ≠ [] →
  (∀ p dp, alist_lookup p (getDataProperties w ctor) = Some dp →
           statePath dp = None) →
  (stateRefs w !! "undefined" = None ∨
   stateRefs w !! "undefined" = Some NaN) →
  ∃ w',
    elementDisconnected el w = Some w' ∧
    stateRefs w' = <["undefined" := NaN]> (stateRefs w) ∧
    rootState w' = rootState w ∧
    trace w' = MiddlewareRun false (elId el) :: trace w ∧
    ∀ p dp, alist_lookup p (getDataProperties w' ctor) = Some dp →
            statePath dp = None.
Proof.
  intros ctor Hne Hun Hundef.
  destruct (elementDisconnected_loop el w
    (λ r w',
       (∀ p dp, alist_lookup p (getDataProperties w' ctor) = Some dp →
                statePath dp = None) ∧
       rootState w' = rootState w ∧
       trace w' = trace w ∧
       ((r = keys w ctor ∧ stateRefs w' = stateRefs w) ∨
        stateRefs w' = <["undefined" := NaN]> (stateRefs w))))
    as (w' & Hrun & _ & Hrec & HR & Htr & Hrefs).
  - intros x r w1 dp _ Hdp (Hrec & HR & Htr & Hrefs).
    assert (Hsp : statePath dp = None) by (by eapply Hrec).
    assert (Hnan : refDecr (stateRefs w1 !! "undefined") = NaN).
    { destruct Hrefs as [[_ ->]| ->].
      - by destruct Hundef as [-> | ->].
      - by rewrite lookup_insert_eq. }
    split.
    { intros p dp'. rewrite getDataProperties_disconnected.
      destruct (decide (x = p)) as [->|Hxp].
      - rewrite alist_lookup_set_eq. by intros [= <-].
      - rewrite alist_lookup_set_ne by done. apply Hrec. }
    unfold disconnectedProperty. rewrite Hsp.
    cbn [asString default from_option id rootState trace stateRefs].
    rewrite Hnan. rewrite bool_decide_eq_false_2 by done.
    split; [done|]. split; [done|]. right.
    destruct Hrefs as [[_ ->]| ->]; [done|]. by rewrite insert_insert_eq.
  - split; [done|]. split; [done|]. split; [done|]. by left.
  - exists (log (MiddlewareRun false (elId el)) w').
    split; [done|]. cbn [log stateRefs rootState trace].
    rewrite Htr. destruct Hrefs as [[Hnil _]|Hrefs]; [by destruct Hne|].
    done.
Qed.

Lemma X7_detach_before_any_attach_witness :
  keys Widget.init (elCtor Widget.W1) ≠ [] ∧
  stateRefs Widget.init !! "undefined" = None ∧
  ∃ w',
    elementDisconnected Widget.W1 Widget.init = Some w' ∧
    stateRefs w' = <["undefined" := NaN]> (stateRefs Widget.init) ∧
    rootState w' = rootState Widget.init.
Proof.
  split; [discriminate|]. split; [reflexivity|].
  destruct (X7_detach_before_any_attach Widget.W1 Widget.init)
    as (w' & Hrun & HS & HR & _).
  - discriminate.
  - intros p dp.
    change (getDataProperties Widget.init (elCtor Widget.W1))
      with Widget.declared.
    unfold Widget.declared. cbn [alist_lookup].
    destruct (decide (p = "count")); [by intros [= <-]|done].
  - left. reflexivity.
  - exists w'. repeat split; assumption.
Defined.

(** X8: nothing guards the count against a second detach.  [el] is the
    sole subscriber of its paths (count 1).  A first detach brings the
    count to 0 and deletes the entry; a second detach brings it to -1; the
    attach that follows finds -1 truthy and makes it 0, not 1, and seeds
    the entry again; the detach after that makes the count -1 and, the
    count not being 0, leaves the entry in RootState although no instance
    is attached. *)
Theorem X8_double_detach_underflows (fuel : nat) (el : DataElement)
    (w : World) :
  1 ≤ fuel →
  NoDup (keys w (elCtor el)) →
  let ctor := elCtor el in
  let sid := stateIdPathOf (getProp w el (stateIdProperty ctor)) in
  let P p := statePathOf ctor p sid in
  (∀ p, p ∈ keys w ctor →
     resolvedAt ctor sid w p ∧ stateRefs w !! P p = Some (Num 1)) →
  ∃ w1 w2 w3 w4,
    elementDisconnected el w = Some w1 ∧
    elementDisconnected el w1 = Some w2 ∧
    elementConnected fuel el w2 = Some w3 ∧
    elementDisconnected el w3 = Some w4 ∧
    ∀ p, p ∈ keys w ctor →
      (stateRefs w1 !! P p = Some (Num 0) ∧ rootState w1 !! P p = None) ∧
      stateRefs w2 !! P p = Some (Num (-1)) ∧
      (stateRefs w3 !! P p = Some (Num 0) ∧
       rootState w3 !! P p = Some (getProp w el p)) ∧
      (stateRefs w4 !! P p = Some (Num (-1)) ∧
       rootState w4 !! P p = Some (getProp w el p)).
Proof.
  intros Hfuel Hnd ctor sid P Hsole. subst P. cbn beta in *.
  destruct fuel as [|fuel]; [lia|].
  set (ks := keys w ctor) in *.
  destruct (detach_all ks sid Hnd el w)
    as (w1 & Hrun1 & Hks1 & Hres1 & _ & _ & Hep1 & _ & _ & _ & Hst1);
    [done|intros p Hp; by apply Hsole|].
  destruct (detach_all ks sid Hnd el w1 Hks1 Hres1)
    as (w2 & Hrun2 & Hks2 & _ & _ & _ & Hep2 & _ & _ & _ & Hst2).
  assert (Hprop2 : ∀ n, getProp w2 el n = getProp w el n).
  { intros n. unfold getProp. by rewrite Hep2, Hep1. }
  destruct (attach_all ks sid Hnd fuel el w2)
    as (w3 & Hrun3 & Hks3 & _ & Hres3 & _ & _ & _ & _ & _ & Hst3);
    [by rewrite Hprop2|done|].
  destruct (detach_all ks sid Hnd el w3 Hks3 Hres3)
    as (w4 & Hrun4 & _ & _ & _ & _ & _ & _ & _ & _ & Hst4).
  fold ctor in Hst1, Hst2, Hst3, Hst4.
  exists w1, w2, w3, w4. repeat (split; [done|]).
  intros p Hp. destruct (Hsole p Hp) as [_ Hc0].
  destruct (Hst1 p Hp) as [Hc1 HR1]. rewrite Hc0 in Hc1, HR1. cbn in Hc1, HR1.
  destruct (Hst2 p Hp) as [Hc2 HR2]. rewrite Hc1 in Hc2, HR2. cbn in Hc2, HR2.
  rewrite HR1 in HR2.
  destruct (Hst3 p Hp) as (Hc3 & Hseed & _). rewrite Hc2 in Hc3. cbn in Hc3.
  destruct Hseed as [HR3 _]. { unfold RootState_get. by rewrite HR2. }
  rewrite Hprop2 in HR3.
  destruct (Hst4 p Hp) as [Hc4 HR4]. rewrite Hc3 in Hc4, HR4. cbn in Hc4, HR4.
  rewrite HR3 in HR4. done.
Qed.

Lemma X8_double_detach_underflows_witness :
  1 ≤ 1 ∧ NoDup (keys Stage.sole (elCtor Widget.W1)) ∧
  ∃ w1 w2 w3 w4,
    elementDisconnected Widget.W1 Stage.sole = Some w1 ∧
    elementDisconnected Widget.W1 w1 = Some w2 ∧
    elementConnected 1 Widget.W1 w2 = Some w3 ∧
    elementDisconnected Widget.W1 w3 = Some w4 ∧
    stateRefs w3 !! "Widget.count" = Some (Num 0) ∧
    stateRefs w4 !! "Widget.count" = Some (Num (-1)) ∧
    rootState w4 !! "Widget.count" = Some (VNum "5").
Proof.
  split; [lia|].
  assert (HND : NoDup (keys Stage.sole (elCtor Widget.W1)))
    by (vm_compute; apply NoDup_singleton).
  split; [exact HND|].
  destruct (X8_double_detach_underflows 1 Widget.W1 Stage.sole)
    as (w1 & w2 & w3 & w4 & H1 & H2 & H3 & H4 & Hp).
  - lia.
  - exact HND.
  - intros p Hp. vm_compute in Hp.
    apply list_elem_of_singleton in Hp as ->. split; [|reflexivity].
    eexists. split; vm_compute; reflexivity.
  - exists w1, w2, w3, w4. repeat (split; [assumption|]).
    destruct (Hp "count") as (_ & _ & [Hc3 _] & [Hc4 HR4]).
    { vm_compute. apply elem_of_cons. by left. }
    split; [exact Hc3|]. split; [exact Hc4|exact HR4].
Defined.

(** ** refreshState *)

(** X9: refreshing the sole subscriber does not pull.  When [el] is the
    only one counted on its paths (count 1) and its id is the one it
    attached under, [refreshState] deletes each entry on the way out and
    seeds it again on the way in: afterwards the count is 1, every entry
    holds the element's own current value, whatever RootState held before,
    and no property of any element has changed. *)
Theorem X9_refresh_of_sole_subscriber_reseeds (fuel : nat) (el : DataElement)
    (w : World) :
  1 ≤ fuel →
  NoDup (keys w (elCtor el)) →
  let ctor := elCtor el in
  let sid := stateIdPathOf (getProp w el (stateIdProperty ctor)) in
  let P p := statePathOf ctor p sid in
  (∀ p, p ∈ keys w ctor →
     resolvedAt ctor sid w p ∧ stateRefs w !! P p = Some (Num 1)) →
  ∃ w',
    refreshState fuel el w = Some w' ∧
    elementProps w' = elementProps w ∧
    ∀ p, p ∈ keys w ctor →
      stateRefs w' !! P p = Some (Num 1) ∧
      rootState w' !! P p = Some (getProp w el p).
Proof.
  intros Hfuel Hnd ctor sid P Hsole. subst P. cbn beta in *.
  destruct fuel as [|fuel]; [lia|].
  set (ks := keys w ctor) in *.
  destruct (detach_all ks sid Hnd el w)
    as (w1 & Hrun1 & Hks1 & _ & _ & _ & Hep1 & _ & _ & _ & Hst1);
    [done|intros p Hp; by apply Hsole|].
  assert (Hprop1 : ∀ n, getProp w1 el n = getProp w el n).
  { intros n. unfold getProp. by rewrite Hep1. }
  destruct (attach_all ks sid Hnd fuel el w1)
    as (w2 & Hrun2 & _ & _ & _ & _ & _ & _ & _ & Hfr2 & Hst2);
    [by rewrite Hprop1|done|].
  fold ctor in Hst1, Hst2.
  assert (Hseeded : ∀ p, p ∈ ks →
    stateRefs w2 !! statePathOf ctor p sid = Some (Num 1) ∧
    rootState w2 !! statePathOf ctor p sid = Some (getProp w el p) ∧
    elementProps w2 !! (elId el, p) = elementProps w !! (elId el, p)).
  { intros p Hp. destruct (Hsole p Hp) as [_ Hc0].
    destruct (Hst1 p Hp) as [Hc1 HR1]. rewrite Hc0 in Hc1, HR1.
    cbn in Hc1, HR1.
    destruct (Hst2 p Hp) as (Hc2 & Hseed & _). rewrite Hc1 in Hc2.
    destruct Hseed as [HR2 HE2]. { unfold RootState_get. by rewrite HR1. }
    rewrite Hprop1 in HR2. rewrite Hep1 in HE2. done. }
  exists w2. split; [unfold refreshState; by rewrite Hrun1|]. split.
  - apply map_eq. intros [i n].
    destruct (decide (i = elId el)) as [->|Hi].
    + destruct (decide (n ∈ ks)) as [Hn|Hn].
      * by destruct (Hseeded n Hn) as (_ & _ & ->).
      * rewrite Hfr2 by (by right). by rewrite Hep1.
    + rewrite Hfr2 by (by left). by rewrite Hep1.
  - intros p Hp. by destruct (Hseeded p Hp) as (? & ? & _).
Qed.

Lemma X9_refresh_of_sole_subscriber_reseeds_witness :
  1 ≤ 1 ∧ NoDup (keys Stage.sole (elCtor Widget.W1)) ∧
  ∃ w',
    refreshState 1 Widget.W1 (RootState_set "Widget.count" (VNum "9") Stage.sole)
    = Some w' ∧
    rootState w' !! "Widget.count" = Some (VNum "5").
Proof.
  split; [lia|].
  assert (HND : NoDup (keys Stage.sole (elCtor Widget.W1)))
    by (vm_compute; apply NoDup_singleton).
  split; [exact HND|].
  destruct (X9_refresh_of_sole_subscriber_reseeds 1 Widget.W1
              (RootState_set "Widget.count" (VNum "9") Stage.sole))
    as (w' & Hrun & _ & Hp).
  - lia.
  - exact HND.
  - intros p Hp. vm_compute in Hp.
    apply list_elem_of_singleton in Hp as ->. split; [|reflexivity].
    eexists. split; vm_compute; reflexivity.
  - exists w'. split; [exact Hrun|].
    destruct (Hp "count") as [_ HR].
    { vm_compute. apply elem_of_cons. by left. }
    exact HR.
Defined.

(** X10: refreshing one subscriber among several pulls.  When the count of
    the paths is some [n] other than 1 and RootState holds a value that is
    not [null], [refreshState] under the unchanged id leaves the count at
    [n] and the entry as it was, and overwrites the element's property with
    the stored value. *)
Theorem X10_refresh_among_others_pulls (fuel : nat) (el : DataElement)
    (w : World) (n : Z) :
  1 ≤ fuel →
  n ≠ 1%Z →
  NoDup (keys w (elCtor el)) →
  let ctor := elCtor el in
  let sid := stateIdPathOf (getProp w el (stateIdProperty ctor)) in
  let P p := statePathOf ctor p sid in
  (∀ p, p ∈ keys w ctor →
     resolvedAt ctor sid w p ∧ stateRefs w !! P p = Some (Num n) ∧
     RootState_get w (P p) ≠ VNull) →
  ∃ w',
    refreshState fuel el w = Some w' ∧
    ∀ p, p ∈ keys w ctor →
      stateRefs w' !! P p = Some (Num n) ∧
      rootState w' !! P p = rootState w !! P p ∧
      getProp w' el p = RootState_get w (P p).
Proof.
  intros Hfuel Hn Hnd ctor sid P Hshared. subst P. cbn beta in *.
  destruct fuel as [|fuel]; [lia|].
  set (ks := keys w ctor) in *.
  destruct (detach_all ks sid Hnd el w)
    as (w1 & Hrun1 & Hks1 & _ & _ & _ & Hep1 & _ & _ & _ & Hst1);
    [done|intros p Hp; by apply Hshared|].
  assert (Hprop1 : ∀ m, getProp w1 el m = getProp w el m).
  { intros m. unfold getProp. by rewrite Hep1. }
  destruct (attach_all ks sid Hnd fuel el w1)
    as (w2 & Hrun2 & _ & _ & _ & _ & _ & _ & _ & _ & Hst2);
    [by rewrite Hprop1|done|].
  fold ctor in Hst1, Hst2.
  exists w2. split; [unfold refreshState; by rewrite Hrun1|].
  intros p Hp. destruct (Hshared p Hp) as (_ & Hc0 & Hnn).
  destruct (Hst1 p Hp) as [Hc1 HR1]. rewrite Hc0 in Hc1, HR1.
  cbn in Hc1, HR1.
  rewrite bool_decide_eq_false_2 in HR1 by (intros [= ?]; lia).
  assert (Hget1 : RootState_get w1 (statePathOf ctor p sid)
                  = RootState_get w (statePathOf ctor p sid)).
  { unfold RootState_get. by rewrite HR1. }
  destruct (Hst2 p Hp) as (Hc2 & _ & Hpull). rewrite Hc1 in Hc2.
  destruct Hpull as [HR2 HE2]; [by rewrite Hget1|].
  split.
  { rewrite Hc2. unfold refIncr, refTruthy, refPlus.
    destruct (n + -1 =? 0)%Z eqn:E; [apply Z.eqb_eq in E; lia|].
    cbn. do 2 f_equal. lia. }
  split; [by rewrite HR2|].
  unfold getProp. by rewrite HE2, Hget1.
Qed.

Lemma X10_refresh_among_others_pulls_witness :
  1 ≤ 1 ∧ (2 ≠ 1)%Z ∧ NoDup (keys Stage.shared (elCtor Widget.W1)) ∧
  ∃ w',
    refreshState 1 Widget.W1 Stage.shared = Some w' ∧
    stateRefs w' !! "Widget.count" = Some (Num 2) ∧
    getProp w' Widget.W1 "count" = VNum "9".
Proof.
  split; [lia|]. split; [lia|].
  assert (HND : NoDup (keys Stage.shared (elCtor Widget.W1)))
    by (vm_compute; apply NoDup_singleton).
  split; [exact HND|].
  destruct (X10_refresh_among_others_pulls 1 Widget.W1 Stage.shared 2)
    as (w' & Hrun & Hp).
  - lia.
  - lia.
  - exact HND.
  - intros p Hp. vm_compute in Hp.
    apply list_elem_of_singleton in Hp as ->.
    split; [eexists; split; vm_compute; reflexivity|].
    split; [vm_compute; reflexivity|]. vm_compute. discriminate.
  - exists w'. split; [exact Hrun|].
    destruct (Hp "count") as (Hc & _ & Hv).
    { vm_compute. apply elem_of_cons. by left. }
    split; [exact Hc|]. rewrite Hv. vm_compute. reflexivity.
Defined.

Lemma dotFree_dotted (p x : string) : dotFree (p +:+ "." +:+ x) = false.
Proof.
  change ("." +:+ x) with (String "."%char x).
  induction p as [|a p IH]; [done|].
  rewrite string_app_cons. cbn. by destruct (decide (a = "."%char)).
Qed.

(** Two id suffixes that differ keep all paths of dot-free property names
    apart. *)
Lemma statePathOf_suffixes_differ ctor p q a b :
  dotFree p = true → dotFree q = true →
  stateIdPathOf a ≠ stateIdPathOf b →
  statePathOf ctor p (stateIdPathOf a) ≠ statePathOf ctor q (stateIdPathOf b).
Proof.
  intros Hp Hq Hne H. unfold statePathOf in H.
  apply (inj (String.app _)) in H. apply (inj (String.app _)) in H.
  unfold stateIdPathOf in *.
  destruct (truthy a), (truthy b).
  - apply dotted_split in H as [_ E]; [|done..]. apply Hne. by rewrite E.
  - rewrite string_app_nil_r in H. rewrite <- H, dotFree_dotted in Hq. done.
  - rewrite string_app_nil_r in H. rewrite H, dotFree_dotted in Hp. done.
  - done.
Qed.

(** X11: refreshing after the id changed moves the subscription.  The
    class records point at the paths of the id [old] the element attached
    under; the element's id now resolves to another suffix; the property
    names contain no ["."].  [refreshState] then takes one from the count
    of every old path, deleting the entry of a count that reaches 0, adds
    one subscriber at every new path, leaves the records pointing at the
    new paths, and seeds or pulls at the new paths. *)
Theorem X11_refresh_moves_subscription (fuel : nat) (el : DataElement)
    (w : World) (old : value) :
  1 ≤ fuel →
  NoDup (keys w (elCtor el)) →
  let ctor := elCtor el in
  let new := getProp w el (stateIdProperty ctor) in
  let Pold p := statePathOf ctor p (stateIdPathOf old) in
  let Pnew p := statePathOf ctor p (stateIdPathOf new) in
  stateIdPathOf old ≠ stateIdPathOf new →
  (∀ p, p ∈ keys w ctor → dotFree p = true) →
  (∀ p, p ∈ keys w ctor → resolvedAt ctor (stateIdPathOf old) w p) →
  ∃ w',
    refreshState fuel el w = Some w' ∧
    ∀ p, p ∈ keys w ctor →
      stateRefs w' !! Pold p = Some (refDecr (stateRefs w !! Pold p)) ∧
      rootState w' !! Pold p
      = (if bool_decide (refDecr (stateRefs w !! Pold p) = Num 0)
         then None else rootState w !! Pold p) ∧
      stateRefs w' !! Pnew p = Some (refIncr (stateRefs w !! Pnew p)) ∧
      resolvedAt ctor (stateIdPathOf new) w' p ∧
      (RootState_get w (Pnew p) = VNull →
         rootState w' !! Pnew p = Some (getProp w el p) ∧
         getProp w' el p = getProp w el p) ∧
      (RootState_get w (Pnew p) ≠ VNull →
         rootState w' !! Pnew p = rootState w !! Pnew p ∧
         getProp w' el p = RootState_get w (Pnew p)).
Proof.
  intros Hfuel Hnd ctor new Pold Pnew Hids Hdot Hres.
  subst Pold Pnew. cbn beta in *.
  destruct fuel as [|fuel]; [lia|].
  set (ks := keys w ctor) in *.
  set (so := stateIdPathOf old) in *. set (sn := stateIdPathOf new) in *.
  assert (Hapart : ∀ p q, p ∈ ks → q ∈ ks →
            statePathOf ctor p so ≠ statePathOf ctor q sn).
  { intros p q Hp Hq. apply statePathOf_suffixes_differ; auto. }
  destruct (detach_all ks so Hnd el w)
    as (w1 & Hrun1 & Hks1 & _ & _ & _ & Hep1 & _ & _ & Hfr1 & Hst1);
    [done..|].
  assert (Hprop1 : ∀ m, getProp w1 el m = getProp w el m).
  { intros m. unfold getProp. by rewrite Hep1. }
  destruct (attach_all ks sn Hnd fuel el w1)
    as (w2 & Hrun2 & _ & _ & Hres2 & _ & _ & _ & Hfr2 & _ & Hst2);
    [by rewrite Hprop1|done|].
  fold ctor in Hfr1, Hst1, Hfr2, Hst2, Hres2.
  exists w2. split; [unfold refreshState; by rewrite Hrun1|].
  intros p Hp.
  destruct (Hfr2 (statePathOf ctor p so)) as [HSo HRo].
  { intros q Hq. by apply Hapart. }
  destruct (Hfr1 (statePathOf ctor p sn)) as [HSn HRn].
  { intros q Hq Heq. by apply (Hapart q p). }
  destruct (Hst1 p Hp) as [Hc1 HR1].
  destruct (Hst2 p Hp) as (Hc2 & Hseed & Hpull).
  assert (Hget1 : RootState_get w1 (statePathOf ctor p sn)
                  = RootState_get w (statePathOf ctor p sn)).
  { unfold RootState_get. by rewrite HRn. }
  rewrite Hget1, Hprop1 in Hseed. rewrite Hget1 in Hpull.
  rewrite HSo, HRo, Hc2, HSn.
  split; [done|]. split; [done|]. split; [done|].
  split; [by apply Hres2|]. split; intros Hnull.
  - destruct (Hseed Hnull) as [HR2 HE2]. split; [done|].
    unfold getProp. by rewrite HE2, Hep1.
  - destruct (Hpull Hnull) as [HR2 HE2]. split; [by rewrite HR2|].
    unfold getProp. by rewrite HE2.
Qed.

Lemma X11_refresh_moves_subscription_witness :
  1 ≤ 1 ∧ NoDup (keys Stage.renamed (elCtor Widget.W1)) ∧
  stateIdPathOf (VStr "a") ≠ stateIdPathOf (VStr "b") ∧
  ∃ w',
    refreshState 1 Widget.W1 Stage.renamed = Some w' ∧
    stateRefs w' !! "Widget.count.a" = Some (Num 0) ∧
    rootState w' !! "Widget.count.a" = None ∧
    stateRefs w' !! "Widget.count.b" = Some (Num 1) ∧
    rootState w' !! "Widget.count.b" = Some (VNum "5").
Proof.
  split; [lia|].
  assert (HND : NoDup (keys Stage.renamed (elCtor Widget.W1)))
    by (vm_compute; apply NoDup_singleton).
  split; [exact HND|]. split; [vm_compute; discriminate|].
  destruct (X11_refresh_moves_subscription 1 Widget.W1 Stage.renamed (VStr "a"))
    as (w' & Hrun & Hp).
  - lia.
  - exact HND.
  - vm_compute. discriminate.
  - intros p Hp. vm_compute in Hp.
    apply list_elem_of_singleton in Hp as ->. reflexivity.
  - intros p Hp. vm_compute in Hp.
    apply list_elem_of_singleton in Hp as ->.
    eexists. split; vm_compute; reflexivity.
  - exists w'. split; [exact Hrun|].
    destruct (Hp "count") as (Hco & HRo & Hcn & _ & Hseed & _).
    { vm_compute. apply elem_of_cons. by left. }
    split; [exact Hco|]. split; [exact HRo|]. split; [exact Hcn|].
    apply Hseed. reflexivity.
Defined.

(** ** Declaring a property and pushing its value *)

(** An element's own genuine event gives it no event and no property
    write besides. *)
Lemma local_fold_self ls w a :
  (∀ l, l ∈ ls → elId (llEl l) = a) →
  ∃ delta,
    trace (fold_left (λ w l, localEffect l w) ls w) = delta ++ trace w ∧
    elementEvents a delta = [] ∧ propWrites a delta = [].
Proof.
  revert w. induction ls as [|l ls IH]; intros w Ha; [by exists []|].
  cbn [fold_left].
  destruct (IH (localEffect l w)) as (d2 & -> & He2 & Hp2).
  { intros l' Hl'. apply Ha, elem_of_cons. by right. }
  destruct (localEffect_trace l w) as (d1 & -> & _ & _ & Hb).
  destruct (Hb a) as [He1 Hp1].
  rewrite <- (Ha l) in He1, Hp1 by (apply elem_of_cons; by left).
  rewrite reacting_source_nil in He1, Hp1.
  exists (d2 ++ d1). split; [by rewrite app_assoc|].
  rewrite elementEvents_app, propWrites_app, He2, Hp2.
  rewrite <- (Ha l) by (apply elem_of_cons; by left).
  by rewrite He1, Hp1.
Qed.

(** X12: an attached property pushes its value.  An element attaches and
    calls [dispatchChange(p)] for a declared [p]: exactly one event is
    dispatched on the element, of the change-event type of [p]'s record
    (the default [p-changed] when the record has none or an empty one);
    RootState then holds the element's value of [p] at [p]'s path, the
    global event of that path was dispatched with the element as source,
    and no property of the element is written. *)
Theorem X12_attached_property_pushes (fuel : nat) (el : DataElement)
    (w : World) (p : string) :
  3 ≤ fuel →
  let ctor := elCtor el in
  NoDup (keys w ctor) →
  p ∈ keys w ctor →
  let sid := stateIdPathOf (getProp w el (stateIdProperty ctor)) in
  let path := statePathOf ctor p sid in
  let ce := changeEventOf (recordOf w ctor p) p in
  ∃ w1 w2 delta,
    elementConnected fuel el w = Some w1 ∧
    dispatchChange fuel el p w1 = Some w2 ∧
    trace w2 = delta ++ trace w1 ∧
    elementEvents (elId el) delta = [(ce, DetailNone)] ∧
    propWrites (elId el) delta = [] ∧
    rootState w2 !! path = Some (getProp w1 el p) ∧
    (path, getProp w1 el p) ∈ rootWrites delta ∧
    (windowEventNameOf path, DetailSource (elId el)) ∈ windowEvents delta.
Proof.
  intros Hfuel ctor Hnd Hpin sid path ce.
  destruct fuel as [|[|[|fuel]]]; try lia.
  set (ks := keys w ctor) in *.
  destruct (attach_all ks sid Hnd (S (S fuel)) el w)
    as (w1 & Hrun1 & _ & Hrec1 & _ & Hll1 & _); [done..|].
  fold ctor in Hrec1.
  set (mk := localListenerOf w el sid).
  assert (Hmkce : llChangeEvent (mk p) = ce).
  { unfold mk, localListenerOf, ce, recordOf. cbn [llChangeEvent]. fold ctor.
    apply alist_lookup_is_Some in Hpin as [dp Hdp]. by rewrite Hdp. }
  pose proof Hpin as Hsplit.
  apply list_elem_of_split in Hsplit as (k1 & k2 & Hsplit).
  assert (p ∉ k2) as Hpk2.
  { rewrite Hsplit in Hnd.
    apply NoDup_app in Hnd as (_ & _ & Hnd2).
    by apply NoDup_cons in Hnd2 as [? _]. }
  apply list_elem_of_lookup in Hpin as [i Hi].
  assert (Hdc : dispatchChange (S (S (S fuel))) el p w1
                = dispatchEvent (S (S (S fuel))) (TElement (elId el)) ce
                    DetailNone w1).
  { unfold dispatchChange, changeEventRead. fold ctor. rewrite (Hrec1 i p Hi).
    cbn [mbind option_bind resolvedRecord changeEvent asString default
         from_option id]. fold mk. by rewrite Hmkce. }
  exists w1. rewrite Hdc. rewrite dispatch_local by done.
  set (M := λ l : LocalListener, elId (llEl l) = elId el ∧ llChangeEvent l = ce).
  set (w1' := log (Dispatched (TElement (elId el)) ce DetailNone) w1).
  assert (Hfilter : filter M (localListeners w1)
                    = (filter M (localListeners w) ++ filter M (mk <$> k1))
                      ++ mk p :: filter M (mk <$> k2)).
  { rewrite Hll1. fold mk. rewrite Hsplit.
    rewrite fmap_app, fmap_cons, !filter_app.
    rewrite (filter_cons_True M); [by rewrite <- app_assoc|].
    split; [done|exact Hmkce]. }
  assert (Hall : ∀ l, l ∈ filter M (localListeners w1) →
                      elId (llEl l) = elId el).
  { by intros l [[? _] _]%list_elem_of_filter. }
  destruct (local_fold_self (filter M (localListeners w1)) w1' (elId el) Hall)
    as (ds & Htrs & Hes & Hps).
  destruct (local_fold_last_write
              (filter M (localListeners w) ++ filter M (mk <$> k1))
              (mk p) (filter M (mk <$> k2)) w1' (elId el))
    as (Hroot & delta & Htr & Hrw & Hwe).
  { intros l'. rewrite <- Hfilter. apply Hall. }
  { intros l' [_ Hin]%list_elem_of_filter.
    apply list_elem_of_fmap in Hin as (q & -> & Hq).
    unfold mk, localListenerOf. cbn.
    intros Heq%statePathOf_inj. by subst q. }
  rewrite <- Hfilter in Hroot, Htr.
  assert (delta = ds) as ->.
  { rewrite Htrs in Htr. by apply app_inv_tail in Htr. }
  change (llStatePath (mk p)) with path in Hroot, Hrw.
  change (llPropertyName (mk p)) with p in Hroot, Hrw.
  change (llWindowEventName (mk p)) with (windowEventNameOf path) in Hwe.
  eexists _, (ds ++ [Dispatched (TElement (elId el)) ce DetailNone]).
  split; [done|]. split; [reflexivity|]. split.
  { rewrite Htrs. by rewrite <- app_assoc. }
  rewrite elementEvents_app, propWrites_app, rootWrites_app,
    windowEvents_app, Hes, Hps. cbn.
  rewrite decide_True by done.
  split; [done|]. split; [done|]. split; [exact Hroot|].
  split; apply elem_of_app; by left.
Qed.

Lemma X12_attached_property_pushes_witness :
  3 ≤ 3 ∧
  NoDup (keys Widget.init (elCtor Widget.W1)) ∧
  "count" ∈ keys Widget.init (elCtor Widget.W1) ∧
  ∃ w1 w2 delta,
    elementConnected 3 Widget.W1 Widget.init = Some w1 ∧
    dispatchChange 3 Widget.W1 "count" w1 = Some w2 ∧
    trace w2 = delta ++ trace w1 ∧
    elementEvents 1 delta = [("count-changed", DetailNone)] ∧
    rootState w2 !! "Widget.count" = Some (getProp w1 Widget.W1 "count").
Proof.
  split; [lia|].
  assert (HND : NoDup (keys Widget.init (elCtor Widget.W1)))
    by (vm_compute; apply NoDup_singleton).
  assert (HIN : "count" ∈ keys Widget.init (elCtor Widget.W1))
    by (vm_compute; apply elem_of_cons; by left).
  split; [exact HND|]. split; [exact HIN|].
  destruct (X12_attached_property_pushes 3 Widget.W1 Widget.init "count")
    as (w1 & w2 & delta & H1 & H2 & H3 & H4 & _ & H5 & _);
    [lia|exact HND|exact HIN|].
  exists w1, w2, delta. repeat split; assumption.
Defined.



(** ** Attach followed by detach *)

(** X14: attach then detach of the only subscriber is a round trip on
    RootState.  When no path of the element is counted yet (count missing,
    0 or NaN), attaching and then detaching it leaves every one of its
    paths counted 0 and absent from RootState, and every other key of
    both maps as it was; so a RootState that had none of those paths is
    restored exactly, while an entry stored there beforehand is lost. *)
Theorem X14_attach_detach_round_trip (fuel : nat) (el : DataElement)
    (w : World) :
  1 ≤ fuel →
  NoDup (keys w (elCtor el)) →
  let ctor := elCtor el in
  let sid := stateIdPathOf (getProp w el (stateIdProperty ctor)) in
  let paths := (λ p, statePathOf ctor p sid) <$> keys w ctor in
  (∀ k, k ∈ paths → refTruthy (stateRefs w !! k) = false) →
  ∃ w1 w2,
    elementConnected fuel el w = Some w1 ∧
    elementDisconnected el w1 = Some w2 ∧
    (∀ k, rootState w2 !! k
          = if decide (k ∈ paths) then None else rootState w !! k) ∧
    (∀ k, stateRefs w2 !! k
          = if decide (k ∈ paths) then Some (Num 0) else stateRefs w !! k) ∧
    ((∀ k, k ∈ paths → rootState w !! k = None) → rootState w2 = rootState w).
Proof.
  intros Hfuel Hnd ctor sid paths Hfresh.
  destruct fuel as [|fuel]; [lia|].
  set (ks := keys w ctor) in *.
  destruct (attach_all ks sid Hnd fuel el w)
    as (w1 & Hrun1 & Hks1 & _ & Hres1 & _ & _ & _ & Hfr1 & _ & Hst1);
    [done..|].
  destruct (detach_all ks sid Hnd el w1 Hks1 Hres1)
    as (w2 & Hrun2 & _ & _ & _ & _ & _ & _ & _ & Hfr2 & Hst2).
  fold ctor in Hfr1, Hst1, Hfr2, Hst2.
  assert (Hin : ∀ k, k ∈ paths →
            rootState w2 !! k = None ∧ stateRefs w2 !! k = Some (Num 0)).
  { intros k Hk. pose proof (Hfresh k Hk) as Hf.
    apply list_elem_of_fmap in Hk as (p & -> & Hp).
    destruct (Hst1 p Hp) as [Hc1 _]. destruct (Hst2 p Hp) as [Hc2 HR2].
    rewrite Hc1 in Hc2, HR2. unfold refIncr in Hc2, HR2.
    rewrite Hf in Hc2, HR2. by rewrite Hc2, HR2. }
  assert (Hout : ∀ k, k ∉ paths →
            rootState w2 !! k = rootState w !! k ∧
            stateRefs w2 !! k = stateRefs w !! k).
  { intros k Hk.
    assert (Hne : ∀ p, p ∈ ks → k ≠ statePathOf ctor p sid).
    { intros p Hp ->. apply Hk, list_elem_of_fmap. by exists p. }
    destruct (Hfr1 k Hne) as [HS1 HR1]. destruct (Hfr2 k Hne) as [HS2 HR2].
    by rewrite HR2, HR1, HS2, HS1. }
  exists w1, w2. split; [done|]. split; [done|]. split; [|split].
  - intros k. destruct (decide (k ∈ paths)) as [Hk|Hk];
      [by apply Hin|by apply Hout].
  - intros k. destruct (decide (k ∈ paths)) as [Hk|Hk];
      [by apply Hin|by apply Hout].
  - intros Habs. apply map_eq. intros k.
    destruct (decide (k ∈ paths)) as [Hk|Hk].
    + rewrite (Habs k Hk). by apply Hin.
    + by apply Hout.
Qed.

Lemma X14_attach_detach_round_trip_witness :
  1 ≤ 1 ∧ NoDup (keys Widget.init (elCtor Widget.W1)) ∧
  ∃ w1 w2,
    elementConnected 1 Widget.W1 Widget.init = Some w1 ∧
    elementDisconnected Widget.W1 w1 = Some w2 ∧
    rootState w2 = rootState Widget.init ∧
    stateRefs w2 !! "Widget.count" = Some (Num 0).
Proof.
  split; [lia|].
  assert (HND : NoDup (keys Widget.init (elCtor Widget.W1)))
    by (vm_compute; apply NoDup_singleton).
  split; [exact HND|].
  destruct (X14_attach_detach_round_trip 1 Widget.W1 Widget.init)
    as (w1 & w2 & H1 & H2 & _ & HS & HR).
  - lia.
  - exact HND.
  - intros k Hk. vm_compute in Hk.
    apply list_elem_of_singleton in Hk as ->. vm_compute. reflexivity.
  - exists w1, w2. split; [exact H1|]. split; [exact H2|]. split.
    + apply HR. intros k Hk. vm_compute in Hk.
      apply list_elem_of_singleton in Hk as ->. vm_compute. reflexivity.
    + rewrite (HS "Widget.count"). vm_compute. reflexivity.
Defined.

(** ** State paths *)

(** Ids resolve by the string the template literal gives for them: the
    number [1e21] and the string ["1e+21"] share a path, the number and the
    string of its digits do not, and the falsy numbers give no suffix. *)
Example ids_resolve_by_string_form :
  statePathOf Widget.ctor "count" (stateIdPathOf (VNum "1e+21"))
  = "Widget.count.1e+21" ∧
  stateIdPathOf (VNum "1e+21") = stateIdPathOf (VStr "1e+21") ∧
  stateIdPathOf (VNum "1e+21")
  ≠ stateIdPathOf (VStr "1000000000000000000000") ∧
  stateIdPathOf (VObj 0 "1,2") = stateIdPathOf (VStr "1,2") ∧
  stateIdPathOf (VNum "0") = "" ∧ stateIdPathOf (VNum "NaN") = "".
Proof. repeat split; done. Qed.

(** X15: paths are injective on dot-free names.  When the element names
    and the property names contain no ["."], two state paths are equal
    exactly when element name, property name and id suffix are all equal
    (the id itself may contain dots). *)
Theorem X15_state_paths_injective (c1 c2 : DataElementCtor) (p q : string)
    (a b : value) :
  dotFree (__elementName c1) = true → dotFree (__elementName c2) = true →
  dotFree p = true → dotFree q = true →
  statePathOf c1 p (stateIdPathOf a) = statePathOf c2 q (stateIdPathOf b)
  ↔ __elementName c1 = __elementName c2 ∧ p = q ∧
    stateIdPathOf a = stateIdPathOf b.
Proof.
  intros Hn1 Hn2 Hp Hq. split.
  - unfold statePathOf. intros H.
    apply dotted_split in H as [Hn H]; [|done..].
    split; [done|]. unfold stateIdPathOf in *.
    destruct (truthy a), (truthy b).
    + apply dotted_split in H as [-> ->]; done.
    + rewrite string_app_nil_r in H. rewrite <- H, dotFree_dotted in Hq. done.
    + rewrite string_app_nil_r in H. rewrite H, dotFree_dotted in Hp. done.
    + rewrite !string_app_nil_r in H. done.
  - intros (Hn & -> & Hs). unfold statePathOf. by rewrite Hn, Hs.
Qed.

Lemma X15_state_paths_injective_witness :
  dotFree (__elementName Widget.ctor) = true ∧
  dotFree "count" = true ∧
  (statePathOf Widget.ctor "count" (stateIdPathOf (VStr "a.b"))
   = statePathOf Widget.ctor "count" (stateIdPathOf (VStr "a.b"))
   ↔ __elementName Widget.ctor = __elementName Widget.ctor ∧
     "count" = "count" ∧
     stateIdPathOf (VStr "a.b") = stateIdPathOf (VStr "a.b")).
Proof.
  split; [reflexivity|]. split; [reflexivity|].
  apply (X15_state_paths_injective Widget.ctor Widget.ctor "count" "count"
           (VStr "a.b") (VStr "a.b")); reflexivity.
Defined.

(** ** A change pushed by one instance reaches the other *)

Lemma changeEventOf_nonempty dp p : changeEventOf dp p ≠ "".
Proof.
  assert (p +:+ "-changed" ≠ "") as Hd by (by destruct p).
  unfold changeEventOf. destruct (changeEvent dp) as [s|]; [|done].
  by destruct (decide (s = "")).
Qed.

(** A class record resolved by an earlier attach yields the same change
    event again. *)
Lemma localListenerOf_changeEvent w w' e e' sid sid' id p :
  alist_lookup p (getDataProperties w' (elCtor e'))
  = Some (resolvedRecord w e sid id p) →
  llChangeEvent (localListenerOf w' e' sid' p)
  = llChangeEvent (localListenerOf w e sid p).
Proof.
  intros H. unfold localListenerOf at 1. cbn [llChangeEvent]. rewrite H.
  unfold changeEventOf. cbn [changeEvent resolvedRecord].
  rewrite decide_False; [done|].
  unfold localListenerOf. cbn [llChangeEvent].
  destruct (alist_lookup p (getDataProperties w (elCtor e))).
  - apply changeEventOf_nonempty.
  - by destruct p.
Qed.

(** When all handlers that write a property read one path, the property
    ends up with what RootState holds there. *)
Lemma window_fold_prop_agree d hs w b n path :
  d ≠ DetailSource b →
  (∀ h, h ∈ hs → elId (wlEl h) = b → wlPropertyName h = n →
        wlStatePath h = path) →
  (∃ h, h ∈ hs ∧ elId (wlEl h) = b ∧ wlPropertyName h = n) →
  elementProps (fold_left (λ w h, windowEffect d h w) hs w) !! (b, n)
  = Some (RootState_get w path).
Proof.
  intros Hd. induction hs as [|h hs IH] using rev_ind;
    intros Hpath (h0 & Hin & Hb & Hn).
  { by apply elem_of_nil in Hin. }
  rewrite fold_left_app. cbn [fold_left].
  destruct (window_fold_frame d hs w) as (HR & _).
  assert (Hprev : ∀ h', h' ∈ hs → elId (wlEl h') = b →
            wlPropertyName h' = n → wlStatePath h' = path).
  { intros h' Hh'. apply Hpath, elem_of_app. by left. }
  assert (Hlast : elId (wlEl h) = b → wlPropertyName h = n →
            wlStatePath h = path).
  { apply Hpath, elem_of_app. right. by apply list_elem_of_singleton. }
  assert (Hex : (elId (wlEl h), wlPropertyName h) ≠ (b, n) →
            ∃ h1, h1 ∈ hs ∧ elId (wlEl h1) = b ∧ wlPropertyName h1 = n).
  { intros Hne. exists h0. split; [|done].
    apply elem_of_app in Hin as [Hin|Hin%list_elem_of_singleton]; [done|].
    subst h0. destruct Hne. by rewrite Hb, Hn. }
  unfold windowEffect at 1.
  destruct (decide (d = DetailSource (elId (wlEl h)))) as [Hs|Hs].
  - apply IH; [done|]. apply Hex. intros [= E _]. apply Hd. by rewrite <- E.
  - cbn [elementProps log setProp].
    destruct (decide ((elId (wlEl h), wlPropertyName h) = (b, n)))
      as [E|Hne].
    + injection E as E1 E2. rewrite E1, E2, lookup_insert_eq. f_equal.
      rewrite (Hlast E1 E2). by apply RootState_get_frame.
    + rewrite lookup_insert_ne by done. apply IH; [done|]. by apply Hex.
Qed.

(** A property that no other element's handler under the raised event
    writes keeps its value. *)
Lemma localEffect_prop_keep l w k :
  (∀ h, h ∈ windowListeners w →
        wlWindowEventName h = llWindowEventName l →
        elId (wlEl h) ≠ elId (llEl l) →
        (elId (wlEl h), wlPropertyName h) ≠ k) →
  elementProps (localEffect l w) !! k = elementProps w !! k.
Proof.
  intros H. unfold localEffect. rewrite window_fold_prop_other; [done|].
  intros h [Hev Hin]%list_elem_of_filter Hd. apply H; [done..|].
  intros E. apply Hd. by rewrite E.
Qed.

Lemma local_fold_prop_keep ls w k :
  (∀ l h, l ∈ ls → h ∈ windowListeners w →
          wlWindowEventName h = llWindowEventName l →
          elId (wlEl h) ≠ elId (llEl l) →
          (elId (wlEl h), wlPropertyName h) ≠ k) →
  elementProps (fold_left (λ w l, localEffect l w) ls w) !! k
  = elementProps w !! k.
Proof.
  revert w. induction ls as [|l ls IH]; intros w H; [done|].
  cbn [fold_left]. rewrite IH.
  - apply localEffect_prop_keep. intros h. apply H, elem_of_cons. by left.
  - intros l' h Hl' Hh.
    destruct (localEffect_frame l w) as (_ & _ & _ & _ & HW & _).
    rewrite HW in Hh. apply H; [|done]. apply elem_of_cons. by right.
Qed.

(** X16: a pushed change reaches the peer.  [A] and [B] are two elements
    of one class with the same id suffix, and [B] has no global handler
    registered yet.  After [A] and then [B] attach, [A]'s property [p] is
    assigned [v] and [A] calls [dispatchChange(p)]: the call returns,
    RootState holds [v] at [p]'s path, [B]'s property [p] is [v], and
    [A]'s is still [v]. *)
Theorem X16_push_reaches_peer (fuel : nat) (w0 : World) (A B : DataElement)
    (p : string) (v : value) :
  3 ≤ fuel →
  elCtor A = elCtor B →
  elId A ≠ elId B →
  let ctor := elCtor A in
  let sid := stateIdPathOf (getProp w0 A (stateIdProperty ctor)) in
  stateIdPathOf (getProp w0 B (stateIdProperty ctor)) = sid →
  NoDup (keys w0 ctor) →
  p ∈ keys w0 ctor →
  (∀ h, h ∈ windowListeners w0 → elId (wlEl h) ≠ elId B) →
  ∃ w1 w2 w3,
    elementConnected fuel A w0 = Some w1 ∧
    elementConnected fuel B w1 = Some w2 ∧
    dispatchChange fuel A p (setProp A p v w2) = Some w3 ∧
    rootState w3 !! statePathOf ctor p sid = Some v ∧
    getProp w3 B p = v ∧
    getProp w3 A p = v.
Proof.
  intros Hfuel Hctor HAB ctor sid HsB Hnd Hp Hfresh.
  destruct fuel as [|[|[|fuel]]]; try lia.
  set (ks := keys w0 ctor) in *.
  destruct (attach_all ks sid Hnd (S (S fuel)) A w0)
    as (w1 & Hrun1 & Hks1 & Hrec1 & _ & Hll1 & Hwl1 & _ & _ & Hprops1 & _);
    [done..|].
  destruct (attach_all ks sid Hnd (S (S fuel)) B w1)
    as (w2 & Hrun2 & _ & Hrec2 & _ & Hll2 & Hwl2 & _).
  { rewrite <- Hctor. fold ctor. unfold getProp.
    rewrite Hprops1 by (left; congruence). exact HsB. }
  { by rewrite <- Hctor. }
  fold ctor in Hrec1. rewrite <- Hctor in Hrec2. fold ctor in Hrec2.
  set (mkA := localListenerOf w0 A sid) in *.
  set (mkB := localListenerOf w1 B sid) in *.
  set (hA := λ i q, windowListenerOf w0 A sid (nextHandler w0 + i) q) in *.
  set (hB := λ i q, windowListenerOf w1 B sid (nextHandler w1 + i) q) in *.
  set (path := statePathOf ctor p sid).
  set (ce := llChangeEvent (mkA p)).
  assert (HpathB : ∀ q, statePathOf (elCtor B) q sid = statePathOf ctor q sid).
  { intros q. by rewrite <- Hctor. }
  pose proof Hp as Hsplit.
  apply list_elem_of_split in Hsplit as (k1 & k2 & Hsplit).
  assert (p ∉ k2) as Hpk2.
  { rewrite Hsplit in Hnd. apply NoDup_app in Hnd as (_ & _ & Hnd2).
    by apply NoDup_cons in Hnd2 as [? _]. }
  pose proof Hp as Hi. apply list_elem_of_lookup in Hi as [i Hi].
  set (w2s := setProp A p v w2).
  assert (Hdc : dispatchChange (S (S (S fuel))) A p w2s
                = dispatchEvent (S (S (S fuel))) (TElement (elId A)) ce
                    DetailNone w2s).
  { unfold dispatchChange, changeEventRead.
    change (getDataProperties w2s (elCtor A))
      with (getDataProperties w2 ctor).
    rewrite (Hrec2 i p Hi).
    cbn [mbind option_bind resolvedRecord changeEvent asString default
         from_option id]. fold mkB.
    unfold mkB. rewrite (localListenerOf_changeEvent w0 w1 A B sid sid
                           (nextHandler w0 + i) p); [done|].
    rewrite <- Hctor. fold ctor. by apply Hrec1. }
  exists w1, w2. fold w2s. rewrite Hdc, dispatch_local by done.
  set (M := λ l : LocalListener, elId (llEl l) = elId A ∧ llChangeEvent l = ce).
  set (w2l := log (Dispatched (TElement (elId A)) ce DetailNone) w2s).
  change (localListeners w2s) with (localListeners w2).
  set (L1 := filter M (localListeners w0) ++ filter M (mkA <$> k1)).
  set (L2 := filter M (mkA <$> k2)).
  assert (Hfilter : filter M (localListeners w2) = L1 ++ mkA p :: L2).
  { rewrite Hll2, Hll1. fold mkA mkB. rewrite Hsplit.
    rewrite !filter_app, fmap_app, fmap_cons, filter_app.
    rewrite (filter_cons_True M); [|by split].
    rewrite (list_no_elements (filter M (mkB <$> _))).
    - rewrite app_nil_r. unfold L1, L2. by rewrite <- app_assoc.
    - intros l [[HeA _] Hin]%list_elem_of_filter.
      apply list_elem_of_fmap in Hin as (q & -> & _). cbn in HeA. congruence. }
  rewrite Hfilter.
  assert (Hall : ∀ l, l ∈ L1 ++ mkA p :: L2 → elId (llEl l) = elId A).
  { intros l. rewrite <- Hfilter. by intros [[? _] _]%list_elem_of_filter. }
  assert (HvA : elementProps w2l !! (elId A, p) = Some v).
  { unfold w2l, w2s, log, setProp. cbn [elementProps].
    by rewrite lookup_insert_eq. }
  assert (HWL : windowListeners w2l
                = (windowListeners w0 ++ imap hA ks) ++ imap hB ks).
  { change (windowListeners w2l) with (windowListeners w2).
    by rewrite Hwl2, Hwl1. }
  assert (Hin_cases : ∀ h, h ∈ windowListeners w2l →
            elId (wlEl h) = elId B →
            ∃ j q, ks !! j = Some q ∧ h = hB j q).
  { intros h Hh HhB. rewrite HWL in Hh.
    apply elem_of_app in Hh as [Hh|Hh].
    - apply elem_of_app in Hh as [Hh|Hh].
      + by destruct (Hfresh h Hh).
      + apply elem_of_lookup_imap in Hh as (j & q & -> & _).
        cbn in HhB. congruence.
    - apply elem_of_lookup_imap in Hh as (j & q & -> & Hj). eauto. }
  eexists. split; [done|]. split; [done|]. split; [reflexivity|].
  split; [|split].
  - destruct (local_fold_last_write L1 (mkA p) L2 w2l (elId A) Hall)
      as (Hroot & _).
    { intros l' [_ Hin]%list_elem_of_filter.
      apply list_elem_of_fmap in Hin as (q & -> & Hq).
      unfold mkA, localListenerOf. cbn [llStatePath].
      intros Heq%statePathOf_inj. by subst q. }
    change (llStatePath (mkA p)) with path in Hroot.
    change (llPropertyName (mkA p)) with p in Hroot.
    rewrite HvA in Hroot. exact Hroot.
  - rewrite fold_left_app. cbn [fold_left].
    set (wa := fold_left (λ w l, localEffect l w) L1 w2l).
    destruct (local_fold_tables L1 w2l wa eq_refl)
      as (_ & _ & _ & HWa & _).
    assert (HA_a : getProp wa (llEl (mkA p)) (llPropertyName (mkA p)) = v).
    { change (llEl (mkA p)) with A. change (llPropertyName (mkA p)) with p.
      unfold getProp, wa. rewrite local_fold_props_self.
      - by rewrite HvA.
      - intros l Hl. apply Hall, elem_of_app. by left. }
    unfold getProp. rewrite local_fold_prop_keep.
    + unfold localEffect. rewrite HA_a.
      rewrite (window_fold_prop_agree _ _ _ (elId B) p path).
      * unfold RootState_get, RootState_set, log. cbn [rootState].
        change (llStatePath (mkA p)) with path.
        by rewrite lookup_insert_eq.
      * intros [= E]. apply HAB. exact E.
      * intros h [_ Hh]%list_elem_of_filter HhB Hn.
        change (windowListeners (RootState_set _ _ wa))
          with (windowListeners wa) in Hh.
        rewrite HWa in Hh.
        destruct (Hin_cases h Hh HhB) as (j & q & _ & ->).
        cbn in Hn. subst q. cbn. apply HpathB.
      * exists (hB i p). split; [|done].
        apply list_elem_of_filter. split.
        -- cbn. by rewrite HpathB.
        -- change (windowListeners (RootState_set _ _ wa))
             with (windowListeners wa).
           rewrite HWa, HWL. apply elem_of_app. right.
           apply elem_of_lookup_imap. eauto.
    + intros l h [_ Hl]%list_elem_of_filter Hh Hev _ [= HhB Hn].
      apply list_elem_of_fmap in Hl as (q & -> & Hq).
      destruct (localEffect_frame (mkA p) wa) as (_ & _ & _ & _ & HWb & _).
      rewrite HWb, HWa in Hh.
      destruct (Hin_cases h Hh HhB) as (j & q' & _ & ->).
      cbn in Hn. subst q'. cbn in Hev. rewrite HpathB in Hev.
      apply windowEventNameOf_inj, statePathOf_inj in Hev. by subst q.
  - unfold getProp. rewrite local_fold_props_self by done. by rewrite HvA.
Qed.

Lemma X16_push_reaches_peer_witness :
  3 ≤ 3 ∧ elCtor Widget.W1 = elCtor Widget.W2 ∧
  elId Widget.W1 ≠ elId Widget.W2 ∧
  NoDup (keys Widget.init (elCtor Widget.W1)) ∧
  ∃ w1 w2 w3,
    elementConnected 3 Widget.W1 Widget.init = Some w1 ∧
    elementConnected 3 Widget.W2 w1 = Some w2 ∧
    dispatchChange 3 Widget.W1 "count"
      (setProp Widget.W1 "count" (VNum "42") w2) = Some w3 ∧
    rootState w3 !! "Widget.count" = Some (VNum "42") ∧
    getProp w3 Widget.W2 "count" = VNum "42".
Proof.
  split; [lia|]. split; [reflexivity|]. split; [vm_compute; lia|].
  assert (HND : NoDup (keys Widget.init (elCtor Widget.W1)))
    by (vm_compute; apply NoDup_singleton).
  split; [exact HND|].
  destruct (X16_push_reaches_peer 3 Widget.init Widget.W1 Widget.W2 "count"
              (VNum "42"))
    as (w1 & w2 & w3 & H1 & H2 & H3 & HR & HB & _).
  - lia.
  - reflexivity.
  - vm_compute. lia.
  - vm_compute. reflexivity.
  - exact HND.
  - vm_compute. apply elem_of_cons. by left.
  - intros h Hh. vm_compute in Hh. by apply elem_of_nil in Hh.
  - exists w1, w2, w3. repeat split; assumption.
Defined.
